(** * jctx: context propagation through JSON-RPC request parameters

    A shallow embedding of [vendor/github.com/creachadair/jrpc2/jctx/jctx.go]
    together with the parts of the Go standard library it calls
    ([time], [encoding/json], [context]), followed by the properties of the
    package's four entry points [Encode], [Decode], [WithMetadata] and
    [UnmarshalMetadata]. *)

From Stdlib Require Import ZArith List Lia Bool Ascii String.
Import ListNotations.
Open Scope Z_scope.

(** ** Bytes *)

(** A Go [byte] is an unsigned 8-bit integer, a [[]byte] a list of them. *)
Definition byte := Z.
Definition bytes := list byte.

Definition ch (a : ascii) : byte := Z.of_N (N_of_ascii a).
Definition bs (s : string) : bytes := map ch (list_ascii_of_string s).

(** The double quote, written by its code so that no literal needs one. *)
Definition dquote : byte := 34.

(** [js] reads a JSON text written with single quotes in place of double
    quotes, which keeps the examples readable. *)
Definition js (s : string) : bytes :=
  map (fun c => if c =? 39 then dquote else c) (bs s).

Fixpoint bytes_eqb (a b : bytes) : bool :=
  match a, b with
  | [], [] => true
  | x :: a', y :: b' => (x =? y) && bytes_eqb a' b'
  | _, _ => false
  end.

Definition isDigit (c : byte) : bool := (48 <=? c) && (c <=? 57).

(** Go's [error] values that the package can produce or pass on.  A nil
    error is [None : option error]. *)
Inductive error : Type :=
| ErrNoMetadata                       (* errors.New("context metadata not present") *)
| ErrInvalidVersion (v : bytes)       (* fmt.Errorf("invalid context version %q", v) *)
| SyntaxError                         (* *json.SyntaxError *)
| UnmarshalTypeError (value : string) (* *json.UnmarshalTypeError *)
| MarshalerError (cause : error)      (* *json.MarshalerError *)
| UnsupportedTypeError                (* *json.UnsupportedTypeError *)
| ErrYearRange                        (* Time.MarshalJSON: year outside of range [0,9999] *)
| ParseError (what : string)          (* *time.ParseError *)
| errPhase.                           (* the decoder's phase panic *)

(** ** Package time *)

Module time.

(** A location is UTC or a zone at a fixed offset, in seconds east of UTC. *)
Inductive Location : Type :=
| utcLoc
| FixedZone (offset : Z).

(** [sec] counts the seconds since January 1 of year 1, 00:00:00 UTC (Go's
    [t.sec()]), [nsec] the nanoseconds within the second.  Monotonic clock
    readings are left out: [Time.UTC] strips them before they could be
    observed here. *)
Record Time : Type := mkTime { sec : Z; nsec : Z; loc : Location }.

Definition zero : Time := mkTime 0 0 utcLoc.

Definition offset (l : Location) : Z :=
  match l with utcLoc => 0 | FixedZone o => o end.

Definition UTC (t : Time) : Time := mkTime (sec t) (nsec t) utcLoc.
Definition IsZero (t : Time) : bool := (sec t =? 0) && (nsec t =? 0).
Definition Equal (t u : Time) : bool := (sec t =? sec u) && (nsec t =? nsec u).
Definition Before (t u : Time) : bool :=
  (sec t <? sec u) || ((sec t =? sec u) && (nsec t <? nsec u)).

Definition secondsPerDay : Z := 86400.
Definition daysPer400Years : Z := 146097.
Definition daysPer100Years : Z := 36524.
Definition daysPer4Years : Z := 1461.

Definition isLeap (year : Z) : bool :=
  (year mod 4 =? 0) && (negb (year mod 100 =? 0) || (year mod 400 =? 0)).

(** [daysBefore m] is the number of days in a non-leap year before month
    [m+1] starts. *)
Definition daysBefore (m : Z) : Z :=
  nth (Z.to_nat m) [0; 31; 59; 90; 120; 151; 181; 212; 243; 273; 304; 334; 365] 0.

Definition daysIn (m year : Z) : Z :=
  if (m =? 2) && isLeap year then 29 else daysBefore m - daysBefore (m - 1).

(** [absDate]: the year and the day within it of day number [d].  Go counts
    days from an epoch that lies a whole number of 400-year cycles before
    year 1; counting from year 1 with flooring division is the same
    computation. *)
Definition absDate (d : Z) : Z * Z :=
  let n := d / daysPer400Years in
  let y := 400 * n in
  let d := d - daysPer400Years * n in
  let n := d / daysPer100Years in
  let n := n - Z.shiftr n 2 in
  let y := y + 100 * n in
  let d := d - daysPer100Years * n in
  let n := d / daysPer4Years in
  let y := y + 4 * n in
  let d := d - daysPer4Years * n in
  let n := d / 365 in
  let n := n - Z.shiftr n 2 in
  let y := y + n in
  let d := d - 365 * n in
  (y + 1, d).

(** The month and day of the month of day [yday] of [year]. *)
Definition monthDay (year yday : Z) : Z * Z :=
  let lp := isLeap year in
  if lp && (yday =? 31 + 29 - 1) then (2, 29)
  else
    let day := if lp && (31 + 29 - 1 <? yday) then yday - 1 else yday in
    let month := day / 31 in
    let e := daysBefore (month + 1) in
    if e <=? day then (month + 2, day - e + 1)
    else (month + 1, day - daysBefore month + 1).

(** Seconds since year 1 as seen on the wall clock of the time's zone. *)
Definition abs (t : Time) : Z := sec t + offset (loc t).

Definition Year (t : Time) : Z := fst (absDate (abs t / secondsPerDay)).

Definition daysSinceEpoch (year : Z) : Z :=
  let y := year - 1 in
  let n := y / 400 in
  let y := y - 400 * n in
  let d := daysPer400Years * n in
  let n := y / 100 in
  let y := y - 100 * n in
  let d := d + daysPer100Years * n in
  let n := y / 4 in
  let y := y - 4 * n in
  let d := d + daysPer4Years * n in
  d + 365 * y.

(** [Date] for fields that are already in range, in UTC. *)
Definition Date (year month day hour min s ns : Z) : Time :=
  let d := daysSinceEpoch year + daysBefore (month - 1) in
  let d := if isLeap year && (3 <=? month) then d + 1 else d in
  let d := d + (day - 1) in
  mkTime (d * secondsPerDay + hour * 3600 + min * 60 + s) ns utcLoc.

(** *** Formatting *)

Fixpoint utoa (fuel : nat) (u : Z) : bytes :=
  match fuel with
  | O => []
  | S f => if u <? 10 then [48 + u] else utoa f (u / 10) ++ [48 + u mod 10]
  end.

(** [appendInt]: decimal, zero-padded to [width]. *)
Definition appendInt (x : Z) (width : nat) : bytes :=
  let sign := if x <? 0 then [ch "-"] else [] in
  let ds := utoa 20 (Z.abs x) in
  sign ++ repeat 48 (width - List.length ds) ++ ds.

Fixpoint trimZeros (rev_digits : bytes) : bytes :=
  match rev_digits with
  | c :: r => if c =? 48 then trimZeros r else rev_digits
  | [] => []
  end.

(** [formatNano] with nine digits and trailing zeros trimmed. *)
Definition formatNano (ns : Z) : bytes :=
  let buf := appendInt ns 9 in
  match rev (trimZeros (rev buf)) with
  | [] => []
  | ds => ch "." :: ds
  end.

Definition formatZone (off : Z) : bytes :=
  if off =? 0 then [ch "Z"]
  else
    let zone := Z.quot off 60 in
    let sign := if zone <? 0 then ch "-" else ch "+" in
    let zone := Z.abs zone in
    sign :: appendInt (zone / 60) 2 ++ ch ":" :: appendInt (zone mod 60) 2.

(** [Time.AppendFormat] with the layout [RFC3339Nano]. *)
Definition formatRFC3339Nano (t : Time) : bytes :=
  let a := abs t in
  let '(year, yday) := absDate (a / secondsPerDay) in
  let '(month, day) := monthDay year yday in
  let s := a mod secondsPerDay in
  appendInt year 4 ++ ch "-" :: appendInt month 2 ++ ch "-" :: appendInt day 2
    ++ ch "T" :: appendInt (s / 3600) 2 ++ ch ":" :: appendInt (s mod 3600 / 60) 2
    ++ ch ":" :: appendInt (s mod 60) 2
    ++ formatNano (nsec t) ++ formatZone (offset (loc t)).

Definition MarshalJSON (t : Time) : error + bytes :=
  let y := Year t in
  if (y <? 0) || (10000 <=? y) then inl ErrYearRange
  else inr (dquote :: formatRFC3339Nano t ++ [dquote]).

(** *** Parsing *)

Definition errBad : error := ParseError "bad value".
Definition rangeErr (what : string) : error := ParseError what.

(** [leadingInt]: the leading digits of [s] as a number; [None] when the
    number leaves the range of an int64. *)
Fixpoint leadingInt (x : Z) (s : bytes) : option (Z * bytes) :=
  match s with
  | c :: r =>
      if isDigit c then
        if (2 ^ 63 - 1) / 10 <? x then None
        else
          let x := x * 10 + c - 48 in
          if 2 ^ 63 <=? x then None else leadingInt x r
      else Some (x, s)
  | [] => Some (x, s)
  end.

Definition atoi (s : bytes) : option Z :=
  let '(neg, s) :=
    match s with
    | c :: r => if (c =? ch "-") || (c =? ch "+") then (c =? ch "-", r) else (false, s)
    | [] => (false, s)
    end in
  match leadingInt 0 s with
  | Some (x, []) => Some (if neg then - x else x)
  | _ => None
  end.

(** [getnum]: one or two digits; exactly two when [fixed]. *)
Definition getnum (s : bytes) (fixed : bool) : option (Z * bytes) :=
  match s with
  | c0 :: r0 =>
      if isDigit c0 then
        match r0 with
        | c1 :: r1 =>
            if isDigit c1 then Some ((c0 - 48) * 10 + (c1 - 48), r1)
            else if fixed then None else Some (c0 - 48, r0)
        | [] => if fixed then None else Some (c0 - 48, r0)
        end
      else None
  | [] => None
  end.

(** [skip] for a one-byte literal of the layout. *)
Definition skip (value : bytes) (prefix : byte) : option bytes :=
  match value with
  | c :: r => if c =? prefix then Some r else None
  | [] => None
  end.

Fixpoint spanDigits (s : bytes) : bytes * bytes :=
  match s with
  | c :: r => if isDigit c then let '(d, t) := spanDigits r in (c :: d, t) else ([], s)
  | [] => ([], [])
  end.

(** [commaOrPeriod]: the separators that may start a fractional second. *)
Definition commaOrPeriod (c : byte) : bool := (c =? ch ".") || (c =? ch ",").

(** [parseNanoseconds] on the digits after the separator; digits beyond
    the ninth are dropped. *)
Definition parseNanoseconds (digits : bytes) : error + Z :=
  let digits := firstn 9 digits in
  match atoi digits with
  | None => inl errBad
  | Some ns =>
      if ns <? 0 then inl (rangeErr "fractional second")
      else inr (ns * 10 ^ (9 - Z.of_nat (List.length digits)))
  end.

Definition bind {A B} (x : error + A) (f : A -> error + B) : error + B :=
  match x with inl e => inl e | inr a => f a end.
Definition need {A} (x : option A) : error + A :=
  match x with Some a => inr a | None => inl errBad end.
Definition check (ok : bool) (what : string) : error + unit :=
  if ok then inr tt else inl (rangeErr what).

Notation "x <- c1 ;; c2" := (bind c1 (fun x => c2))
  (at level 61, c1 at next level, right associativity).
Notation "' pat <- c1 ;; c2" := (bind c1 (fun x => match x with pat => c2 end))
  (at level 61, pat pattern, c1 at next level, right associativity).

(** The zone of the layout element [Z07:00]: the offset in seconds, [None]
    for the letter Z.  Hour and minute are two digits each; an hour of 24
    and a minute of 60 pass the range test. *)
Definition parseZone (value : bytes) : error + (option Z * bytes) :=
  match value with
  | c :: r =>
      if c =? ch "Z" then inr (None, r)
      else
        match value with
        | sg :: h1 :: h2 :: colon :: m1 :: m2 :: rest =>
            if negb (colon =? ch ":") then inl errBad
            else
              '(hr, _) <- need (getnum [h1; h2] true) ;;
              '(mm, _) <- need (getnum [m1; m2] true) ;;
              _ <- check (hr <=? 24) "time zone offset hour" ;;
              _ <- check (mm <=? 60) "time zone offset minute" ;;
              let off := (hr * 60 + mm) * 60 in
              if sg =? ch "+" then inr (Some off, rest)
              else if sg =? ch "-" then inr (Some (- off), rest)
              else inl errBad
        | _ => inl errBad
        end
  | [] => inl errBad
  end.

(** [Parse] with the layout [RFC3339] between double quotes, as
    [Time.UnmarshalJSON] calls it.  A zone given as a numeric offset comes
    back as a fixed zone; Go substitutes the local zone when that has the
    same offset. *)
Definition parseRFC3339 (data : bytes) : error + Time :=
  value <- need (skip data dquote) ;;
  '(year, value) <-
    match value with
    | y1 :: y2 :: y3 :: y4 :: r =>
        if isDigit y1 then y <- need (atoi [y1; y2; y3; y4]) ;; inr (y, r)
        else inl errBad
    | _ => inl errBad
    end ;;
  value <- need (skip value (ch "-")) ;;
  '(month, value) <- need (getnum value true) ;;
  _ <- check ((0 <? month) && (month <=? 12)) "month" ;;
  value <- need (skip value (ch "-")) ;;
  '(day, value) <- need (getnum value true) ;;
  value <- need (skip value (ch "T")) ;;
  '(hour, value) <- need (getnum value false) ;;
  _ <- check (hour <? 24) "hour" ;;
  value <- need (skip value (ch ":")) ;;
  '(min, value) <- need (getnum value true) ;;
  _ <- check (min <? 60) "minute" ;;
  value <- need (skip value (ch ":")) ;;
  '(s, value) <- need (getnum value true) ;;
  _ <- check (s <? 60) "second" ;;
  '(ns, value) <-
    match value with
    | p :: d :: r =>
        if commaOrPeriod p && isDigit d then
          let '(ds, rest) := spanDigits (d :: r) in
          ns <- parseNanoseconds ds ;; inr (ns, rest)
        else inr (0, value)
    | _ => inr (0, value)
    end ;;
  '(zone, value) <- parseZone value ;;
  value <- need (skip value dquote) ;;
  match value with
  | _ :: _ => inl (ParseError "extra text")
  | [] =>
      _ <- check ((1 <=? day) && (day <=? daysIn month year)) "day" ;;
      let t := Date year month day hour min s ns in
      match zone with
      | None => inr t
      | Some off => inr (mkTime (sec t - off) (nsec t) (FixedZone off))
      end
  end.

Definition UnmarshalJSON (data : bytes) (t : Time) : error + Time :=
  if bytes_eqb data (bs "null") then inr t else parseRFC3339 data.

End time.

(** ** Package encoding/json *)

Module json.

(** [json.RawMessage] is a byte slice; the nil slice is [None] and differs
    from the empty one. *)
Definition RawMessage : Type := option bytes.

Definition raw (m : RawMessage) : bytes :=
  match m with Some b => b | None => [] end.

Definition len (m : RawMessage) : nat := List.length (raw m).

(** The interface of [json.Marshal] and [json.Unmarshal] at a Go type.
    [Unmarshal data v] returns the target as the call leaves it, with the
    error. *)
Class Codec (T : Type) : Type := {
  Marshal : T -> error + bytes;
  Unmarshal : bytes -> T -> T * option error
}.

(** *** The scanner (scanner.go) *)

Inductive opcode : Type :=
| scanContinue | scanBeginLiteral | scanBeginObject | scanObjectKey
| scanObjectValue | scanEndObject | scanBeginArray | scanArrayValue
| scanEndArray | scanSkipSpace | scanEnd | scanError.

(** [op >= scanSkipSpace] *)
Definition atLeastSkipSpace (op : opcode) : bool :=
  match op with scanSkipSpace | scanEnd | scanError => true | _ => false end.

Inductive pstate : Type := parseObjectKey | parseObjectValue | parseArrayValue.

Inductive stepfn : Type :=
| stateBeginValueOrEmpty | stateBeginValue | stateBeginStringOrEmpty
| stateBeginString | stateEndValue | stateEndTop
| stateInString | stateInStringEsc | stateInStringEscU | stateInStringEscU1
| stateInStringEscU12 | stateInStringEscU123
| stateNeg | state1 | state0 | stateDot | stateDot0 | stateE | stateESign | stateE0
| stateT | stateTr | stateTru | stateF | stateFa | stateFal | stateFals
| stateN | stateNu | stateNul | stateError.

(** The scanner's state: the step function to run on the next byte and the
    stack of enclosing objects and arrays, innermost first.  The scanner's
    [err] is set exactly when [step] is [stateError], and its [endTop]
    flag, while there is no error, exactly when [step] is [stateEndTop]. *)
Record scanner : Type := mkScanner { step : stepfn; parseState : list pstate }.

Definition reset : scanner := mkScanner stateBeginValue [].

Definition maxNestingDepth : Z := 10000.

Definition isSpace (c : byte) : bool :=
  (c =? 32) || (c =? 9) || (c =? 13) || (c =? 10).

Definition isHex (c : byte) : bool :=
  isDigit c || ((97 <=? c) && (c <=? 102)) || ((65 <=? c) && (c <=? 70)).

Definition goto (s : scanner) (f : stepfn) (op : opcode) : scanner * opcode :=
  (mkScanner f (parseState s), op).

Definition fail (s : scanner) : scanner * opcode := goto s stateError scanError.

Section Scanner.

(** The nesting limit, [maxNestingDepth] in every use by the package. *)
Variable limit : Z.

Definition pushParseState (s : scanner) (f : stepfn) (p : pstate) (op : opcode)
  : scanner * opcode :=
  let st := p :: parseState s in
  if Z.of_nat (List.length st) <=? limit then (mkScanner f st, op)
  else (mkScanner stateError st, scanError).

Definition popParseState (s : scanner) (op : opcode) : scanner * opcode :=
  match parseState s with
  | _ :: [] => (mkScanner stateEndTop [], op)
  | _ :: st => (mkScanner stateEndValue st, op)
  | [] => fail s
  end.

Definition runEndTop (s : scanner) (c : byte) : scanner * opcode :=
  if isSpace c then goto s stateEndTop scanEnd else goto s stateError scanEnd.

Definition runEndValue (s : scanner) (c : byte) : scanner * opcode :=
  match parseState s with
  | [] => runEndTop s c
  | ps :: st =>
      if isSpace c then goto s stateEndValue scanSkipSpace
      else
        match ps with
        | parseObjectKey =>
            if c =? ch ":" then
              (mkScanner stateBeginValue (parseObjectValue :: st), scanObjectKey)
            else fail s
        | parseObjectValue =>
            if c =? ch "," then
              (mkScanner stateBeginString (parseObjectKey :: st), scanObjectValue)
            else if c =? ch "}" then popParseState s scanEndObject
            else fail s
        | parseArrayValue =>
            if c =? ch "," then goto s stateBeginValue scanArrayValue
            else if c =? ch "]" then popParseState s scanEndArray
            else fail s
        end
  end.

Definition runBeginValue (s : scanner) (c : byte) : scanner * opcode :=
  if isSpace c then (s, scanSkipSpace)
  else if c =? ch "{" then pushParseState s stateBeginStringOrEmpty parseObjectKey scanBeginObject
  else if c =? ch "[" then pushParseState s stateBeginValueOrEmpty parseArrayValue scanBeginArray
  else if c =? dquote then goto s stateInString scanBeginLiteral
  else if c =? ch "-" then goto s stateNeg scanBeginLiteral
  else if c =? ch "0" then goto s state0 scanBeginLiteral
  else if c =? ch "t" then goto s stateT scanBeginLiteral
  else if c =? ch "f" then goto s stateF scanBeginLiteral
  else if c =? ch "n" then goto s stateN scanBeginLiteral
  else if (ch "1" <=? c) && (c <=? ch "9") then goto s state1 scanBeginLiteral
  else fail s.

Definition runBeginString (s : scanner) (c : byte) : scanner * opcode :=
  if isSpace c then (s, scanSkipSpace)
  else if c =? dquote then goto s stateInString scanBeginLiteral
  else fail s.

Definition run0 (s : scanner) (c : byte) : scanner * opcode :=
  if c =? ch "." then goto s stateDot scanContinue
  else if (c =? ch "e") || (c =? ch "E") then goto s stateE scanContinue
  else runEndValue s c.

Definition runESign (s : scanner) (c : byte) : scanner * opcode :=
  if isDigit c then goto s stateE0 scanContinue else fail s.

Definition expect (s : scanner) (c want : byte) (next : stepfn) : scanner * opcode :=
  if c =? want then goto s next scanContinue else fail s.

(** [s.step(s, c)] *)
Definition stepScanner (s : scanner) (c : byte) : scanner * opcode :=
  match step s with
  | stateBeginValueOrEmpty =>
      if isSpace c then (s, scanSkipSpace)
      else if c =? ch "]" then runEndValue s c
      else runBeginValue s c
  | stateBeginValue => runBeginValue s c
  | stateBeginStringOrEmpty =>
      if isSpace c then (s, scanSkipSpace)
      else if c =? ch "}" then
        runEndValue (mkScanner (step s) (parseObjectValue :: tl (parseState s))) c
      else runBeginString s c
  | stateBeginString => runBeginString s c
  | stateEndValue => runEndValue s c
  | stateEndTop => runEndTop s c
  | stateInString =>
      if c =? dquote then goto s stateEndValue scanContinue
      else if c =? ch "\" then goto s stateInStringEsc scanContinue
      else if c <? 32 then fail s
      else (s, scanContinue)
  | stateInStringEsc =>
      if (c =? ch "b") || (c =? ch "f") || (c =? ch "n") || (c =? ch "r")
         || (c =? ch "t") || (c =? ch "\") || (c =? ch "/") || (c =? dquote)
      then goto s stateInString scanContinue
      else if c =? ch "u" then goto s stateInStringEscU scanContinue
      else fail s
  | stateInStringEscU => if isHex c then goto s stateInStringEscU1 scanContinue else fail s
  | stateInStringEscU1 => if isHex c then goto s stateInStringEscU12 scanContinue else fail s
  | stateInStringEscU12 => if isHex c then goto s stateInStringEscU123 scanContinue else fail s
  | stateInStringEscU123 => if isHex c then goto s stateInString scanContinue else fail s
  | stateNeg =>
      if c =? ch "0" then goto s state0 scanContinue
      else if (ch "1" <=? c) && (c <=? ch "9") then goto s state1 scanContinue
      else fail s
  | state1 => if isDigit c then goto s state1 scanContinue else run0 s c
  | state0 => run0 s c
  | stateDot => if isDigit c then goto s stateDot0 scanContinue else fail s
  | stateDot0 =>
      if isDigit c then (s, scanContinue)
      else if (c =? ch "e") || (c =? ch "E") then goto s stateE scanContinue
      else runEndValue s c
  | stateE =>
      if (c =? ch "+") || (c =? ch "-") then goto s stateESign scanContinue
      else runESign s c
  | stateESign => runESign s c
  | stateE0 => if isDigit c then (s, scanContinue) else runEndValue s c
  | stateT => expect s c (ch "r") stateTr
  | stateTr => expect s c (ch "u") stateTru
  | stateTru => expect s c (ch "e") stateEndValue
  | stateF => expect s c (ch "a") stateFa
  | stateFa => expect s c (ch "l") stateFal
  | stateFal => expect s c (ch "s") stateFals
  | stateFals => expect s c (ch "e") stateEndValue
  | stateN => expect s c (ch "u") stateNu
  | stateNu => expect s c (ch "l") stateNul
  | stateNul => expect s c (ch "l") stateEndValue
  | stateError => (s, scanError)
  end.

(** [s.eof()] *)
Definition eof (s : scanner) : opcode :=
  match step s with
  | stateError => scanError
  | stateEndTop => scanEnd
  | _ =>
      match step (fst (stepScanner s 32)) with
      | stateEndTop => scanEnd
      | _ => scanError
      end
  end.

Fixpoint checkValid_from (s : scanner) (data : bytes) : option error :=
  match data with
  | c :: r =>
      let '(s', op) := stepScanner s c in
      match op with
      | scanError => Some SyntaxError
      | _ => checkValid_from s' r
      end
  | [] => match eof s with scanError => Some SyntaxError | _ => None end
  end.

Definition checkValid (data : bytes) : option error := checkValid_from reset data.

(** *** Compaction (indent.go) *)

Definition hex (n : Z) : byte := nth (Z.to_nat n) (bs "0123456789abcdef") 0.

(** [compact] as a stream: each byte is stepped through the scanner and
    copied unless it is insignificant space or is replaced by an escape.
    [hold] counts the bytes still covered by the escape written for
    U+2028 or U+2029.  [None] stands for the scanner's error. *)
Fixpoint compact_from (escape : bool) (s : scanner) (hold : nat) (src : bytes)
  : option bytes :=
  match src with
  | [] => match eof s with scanError => None | _ => Some [] end
  | c :: r =>
      let html := escape && ((c =? ch "<") || (c =? ch ">") || (c =? ch "&")) in
      let sep :=
        escape && (c =? 226) &&
        match r with
        | c1 :: c2 :: _ => (c1 =? 128) && (Z.land c2 (Z.lnot 1) =? 168)
        | _ => false
        end in
      let '(s', v) := stepScanner s c in
      match v with
      | scanError => None
      | _ =>
          let esc :=
            if html then bs "\u00" ++ [hex (Z.shiftr c 4); hex (Z.land c 15)]
            else if sep then bs "\u202" ++ [hex (Z.land (nth 1 r 0) 15)]
            else [] in
          let keep := negb html && negb sep && (hold =? 0)%nat && negb (atLeastSkipSpace v) in
          let hold' := if sep then 2%nat else Nat.pred hold in
          match compact_from escape s' hold' r with
          | Some out => Some (esc ++ (if keep then [c] else []) ++ out)
          | None => None
          end
      end
  end.

Definition compact (escape : bool) (src : bytes) : option bytes :=
  compact_from escape reset 0 src.

(** *** The decoder's scanning helpers (decode.go) *)

(** [d.scanWhile(scanSkipSpace)]: the scanner after the first byte that
    is not skipped, its opcode, that byte and the data after it. *)
Fixpoint scanWhile (s : scanner) (data : bytes) : scanner * opcode * option byte * bytes :=
  match data with
  | [] => (s, eof s, None, [])
  | c :: r =>
      let '(s', op) := stepScanner s c in
      match op with
      | scanSkipSpace => scanWhile s' r
      | _ => (s', op, Some c, r)
      end
  end.

(** [d.scanNext()] *)
Definition scanNext (s : scanner) (data : bytes) : scanner * opcode * bytes :=
  match data with
  | [] => (s, eof s, [])
  | c :: r => let '(s', op) := stepScanner s c in (s', op, r)
  end.

(** [d.skip()]: step to the byte that closes the value opened at [depth];
    returns the bytes consumed and the data after them. *)
Fixpoint skip (depth : nat) (s : scanner) (data : bytes)
  : option (scanner * opcode * bytes * bytes) :=
  match data with
  | [] => None
  | c :: r =>
      let '(s', op) := stepScanner s c in
      if (List.length (parseState s') <? depth)%nat then Some (s', op, [c], r)
      else
        match skip depth s' r with
        | Some (s2, op2, item, rest) => Some (s2, op2, c :: item, rest)
        | None => None
        end
  end.

End Scanner.

(** [d.rescanLiteral()], for the literal whose first byte [c] was just
    scanned: the rest of the literal and the data after it. *)
Fixpoint rescanString (data : bytes) : bytes * bytes :=
  match data with
  | [] => ([], [])
  | c :: r =>
      if c =? ch "\" then
        match r with
        | [] => ([c], [])
        | e :: r' => let '(item, rest) := rescanString r' in (c :: e :: item, rest)
        end
      else if c =? dquote then ([c], r)
      else let '(item, rest) := rescanString r in (c :: item, rest)
  end.

Definition isNumberByte (c : byte) : bool :=
  isDigit c || (c =? ch ".") || (c =? ch "e") || (c =? ch "E") || (c =? ch "+") || (c =? ch "-").

Fixpoint rescanNumber (data : bytes) : bytes * bytes :=
  match data with
  | [] => ([], [])
  | c :: r =>
      if isNumberByte c then let '(item, rest) := rescanNumber r in (c :: item, rest)
      else ([], data)
  end.

Definition rescanLiteral (c : byte) (data : bytes) : bytes * bytes :=
  if c =? dquote then rescanString data
  else if isDigit c || (c =? ch "-") then rescanNumber data
  else if c =? ch "t" then (firstn 3 data, skipn 3 data)
  else if c =? ch "f" then (firstn 4 data, skipn 4 data)
  else if c =? ch "n" then (firstn 3 data, skipn 3 data)
  else ([], data).

(** The scanner state and opcode that [rescanLiteral] leaves. *)
Definition afterLiteral (s : scanner) (data : bytes)
  : scanner * opcode * bytes :=
  match data with
  | [] => (s, scanEnd, [])
  | c :: r => let '(s', op) := runEndValue s c in (s', op, r)
  end.

(** *** UTF-8 (unicode/utf8) and string literals *)

Definition RuneError : Z := 65533.

Definition DecodeRune (p : bytes) : Z * nat :=
  match p with
  | [] => (RuneError, 0%nat)
  | p0 :: t =>
      if p0 <? 128 then (p0, 1%nat)
      else if (p0 <? 194) || (244 <? p0) then (RuneError, 1%nat)
      else
        let sz := if p0 <? 224 then 2%nat else if p0 <? 240 then 3%nat else 4%nat in
        let lo := if p0 =? 224 then 160 else if p0 =? 240 then 144 else 128 in
        let hi := if p0 =? 237 then 159 else if p0 =? 244 then 143 else 191 in
        if (List.length p <? sz)%nat then (RuneError, 1%nat)
        else
          let b1 := nth 0 t 0 in
          let b2 := nth 1 t 0 in
          let b3 := nth 2 t 0 in
          if (b1 <? lo) || (hi <? b1) then (RuneError, 1%nat)
          else if (sz <=? 2)%nat then
            (Z.lor (Z.shiftl (Z.land p0 31) 6) (Z.land b1 63), 2%nat)
          else if (b2 <? 128) || (191 <? b2) then (RuneError, 1%nat)
          else if (sz <=? 3)%nat then
            (Z.lor (Z.lor (Z.shiftl (Z.land p0 15) 12) (Z.shiftl (Z.land b1 63) 6))
                   (Z.land b2 63), 3%nat)
          else if (b3 <? 128) || (191 <? b3) then (RuneError, 1%nat)
          else
            (Z.lor (Z.lor (Z.lor (Z.shiftl (Z.land p0 7) 18) (Z.shiftl (Z.land b1 63) 12))
                          (Z.shiftl (Z.land b2 63) 6))
                   (Z.land b3 63), 4%nat)
  end.

Definition isSurrogate (r : Z) : bool := (55296 <=? r) && (r <? 57344).

Definition EncodeRune (r : Z) : bytes :=
  if (0 <=? r) && (r <=? 127) then [r]
  else if (0 <=? r) && (r <=? 2047) then
    [Z.lor 192 (Z.shiftr r 6); Z.lor 128 (Z.land r 63)]
  else if (r <? 0) || (1114111 <? r) || isSurrogate r then [239; 191; 189]
  else if r <=? 65535 then
    [Z.lor 224 (Z.shiftr r 12); Z.lor 128 (Z.land (Z.shiftr r 6) 63);
     Z.lor 128 (Z.land r 63)]
  else
    [Z.lor 240 (Z.shiftr r 18); Z.lor 128 (Z.land (Z.shiftr r 12) 63);
     Z.lor 128 (Z.land (Z.shiftr r 6) 63); Z.lor 128 (Z.land r 63)].

Definition hexVal (c : byte) : Z :=
  if isDigit c then c - 48
  else if (97 <=? c) && (c <=? 102) then c - 97 + 10
  else c - 65 + 10.

(** [getu4]: the code unit of a leading [\uXXXX], or [None] (Go's -1). *)
Definition getu4 (s : bytes) : option Z :=
  match s with
  | b :: u :: h1 :: h2 :: h3 :: h4 :: _ =>
      if (b =? ch "\") && (u =? ch "u") && isHex h1 && isHex h2 && isHex h3 && isHex h4
      then Some (((hexVal h1 * 16 + hexVal h2) * 16 + hexVal h3) * 16 + hexVal h4)
      else None
  | _ => None
  end.

(** [utf16.DecodeRune] *)
Definition utf16DecodeRune (r1 : Z) (r2 : option Z) : Z :=
  match r2 with
  | Some r2 =>
      if (55296 <=? r1) && (r1 <? 56320) && (56320 <=? r2) && (r2 <? 57344)
      then Z.lor (Z.shiftl (r1 - 55296) 10) (r2 - 56320) + 65536
      else RuneError
  | None => RuneError
  end.

Definition prepend (b : bytes) (r : option bytes) : option bytes :=
  match r with Some out => Some (b ++ out) | None => None end.

Fixpoint unquote_loop (fuel : nat) (s : bytes) : option bytes :=
  match fuel with
  | O => None
  | S fuel =>
      match s with
      | [] => Some []
      | c :: r =>
          if c =? ch "\" then
            match r with
            | [] => None
            | e :: r2 =>
                if (e =? dquote) || (e =? ch "\") || (e =? ch "/") || (e =? 39)
                then prepend [e] (unquote_loop fuel r2)
                else if e =? ch "b" then prepend [8] (unquote_loop fuel r2)
                else if e =? ch "f" then prepend [12] (unquote_loop fuel r2)
                else if e =? ch "n" then prepend [10] (unquote_loop fuel r2)
                else if e =? ch "r" then prepend [13] (unquote_loop fuel r2)
                else if e =? ch "t" then prepend [9] (unquote_loop fuel r2)
                else if e =? ch "u" then
                  match getu4 s with
                  | None => None
                  | Some rr =>
                      let r6 := skipn 6 s in
                      if isSurrogate rr then
                        let dec := utf16DecodeRune rr (getu4 r6) in
                        if dec =? RuneError
                        then prepend (EncodeRune RuneError) (unquote_loop fuel r6)
                        else prepend (EncodeRune dec) (unquote_loop fuel (skipn 6 r6))
                      else prepend (EncodeRune rr) (unquote_loop fuel r6)
                  end
                else None
            end
          else if (c =? dquote) || (c <? 32) then None
          else if c <? 128 then prepend [c] (unquote_loop fuel r)
          else
            let '(rr, size) := DecodeRune s in
            prepend (EncodeRune rr) (unquote_loop fuel (skipn size s))
      end
  end.

(** [unquoteBytes]: the contents of a quoted JSON string literal. *)
Definition unquoteBytes (s : bytes) : option bytes :=
  match s with
  | q :: r =>
      match rev r with
      | q' :: inner =>
          if (q =? dquote) && (q' =? dquote)
          then unquote_loop (S (List.length r)) (rev inner)
          else None
      | [] => None
      end
  | [] => None
  end.

(** [htmlSafeSet] *)
Definition htmlSafe (b : byte) : bool :=
  (32 <=? b) && negb ((b =? dquote) || (b =? ch "\") || (b =? ch "<")
                      || (b =? ch ">") || (b =? ch "&")).

Fixpoint encodeString_loop (fuel : nat) (s : bytes) : bytes :=
  match fuel with
  | O => []
  | S fuel =>
      match s with
      | [] => []
      | b :: r =>
          if b <? 128 then
            if htmlSafe b then b :: encodeString_loop fuel r
            else
              (ch "\" ::
               (if (b =? ch "\") || (b =? dquote) then [b]
                else if b =? 10 then [ch "n"]
                else if b =? 13 then [ch "r"]
                else if b =? 9 then [ch "t"]
                else bs "u00" ++ [hex (Z.shiftr b 4); hex (Z.land b 15)]))
              ++ encodeString_loop fuel r
          else
            let '(c, size) := DecodeRune s in
            if (c =? RuneError) && (size =? 1)%nat then
              (ch "\" :: bs "ufffd") ++ encodeString_loop fuel r
            else if (c =? 8232) || (c =? 8233) then
              bs "\u202" ++ [hex (Z.land c 15)] ++ encodeString_loop fuel (skipn size s)
            else firstn size s ++ encodeString_loop fuel (skipn size s)
      end
  end.

(** [e.string(s, true)]: a Go string as a JSON string literal. *)
Definition encodeString (s : bytes) : bytes :=
  dquote :: encodeString_loop (S (List.length s)) s ++ [dquote].

(** [simpleLetterEqualFold]: equality of letters up to ASCII case. *)
Fixpoint equalFold (s t : bytes) : bool :=
  match s, t with
  | [], [] => true
  | a :: s', b :: t' => (Z.land a 223 =? Z.land b 223) && equalFold s' t'
  | _, _ => false
  end.

(** [marshalerEncoder]: the output of a [MarshalJSON] method is checked
    and compacted into the encoder's buffer, by a scanner of its own: the
    nesting is counted from the start of that output, not from the value
    it is a part of. *)
Definition marshalerEncoder (r : error + bytes) : error + bytes :=
  match r with
  | inl e => inl (MarshalerError e)
  | inr b =>
      match compact maxNestingDepth true b with
      | Some out => inr out
      | None => inl (MarshalerError SyntaxError)
      end
  end.

(** [RawMessage.MarshalJSON] *)
Definition RawMessage_MarshalJSON (m : RawMessage) : error + bytes :=
  match m with None => inr (bs "null") | Some b => inr b end.

(** [json.Unmarshal] into a [*json.RawMessage]: the text of the value,
    without the space around it. *)
Definition Unmarshal_RawMessage (data : bytes) (m : RawMessage) : RawMessage * option error :=
  match checkValid maxNestingDepth data with
  | Some e => (m, Some e)
  | None =>
      match scanWhile maxNestingDepth reset data with
      | (s, scanBeginLiteral, Some b, rest) => (Some (b :: fst (rescanLiteral b rest)), None)
      | (s, _, Some b, rest) =>
          match skip maxNestingDepth (List.length (parseState s)) s rest with
          | Some (_, _, item, _) => (Some (b :: item), None)
          | None => (m, Some errPhase)
          end
      | _ => (m, Some errPhase)
      end
  end.

#[global] Instance RawMessage_Codec : Codec RawMessage :=
  {| Marshal := fun m => marshalerEncoder (RawMessage_MarshalJSON m);
     Unmarshal := Unmarshal_RawMessage |}.

End json.

(** ** Package context *)

Module context.

(** A context is the chain of derivations that built it.  The key type
    [metadataKey] of package jctx is unexported, so a value stored under it
    is always a [json.RawMessage] put there by that package: such nodes are
    [metaCtx]; [valueCtx] stands for a value under any other key. *)
Inductive Context : Type :=
| emptyCtx                                             (* Background(), TODO() *)
| metaCtx (parent : Context) (msg : json.RawMessage)   (* WithValue(parent, metadataKey{}, msg) *)
| valueCtx (parent : Context) (key val : nat)          (* WithValue(parent, key, val) *)
| timerCtx (parent : Context) (deadline : time.Time)   (* WithDeadline(parent, deadline) *)
| cancelCtx (parent : Context).                        (* WithCancel(parent) *)

Definition Background : Context := emptyCtx.

(** [ctx.Value(metadataKey{})]: [None] is the nil interface, [Some m] the
    interface holding the raw message [m], which may itself be nil. *)
Fixpoint Value_metadataKey (ctx : Context) : option json.RawMessage :=
  match ctx with
  | emptyCtx => None
  | metaCtx _ msg => Some msg
  | valueCtx p _ _ => Value_metadataKey p
  | timerCtx p _ => Value_metadataKey p
  | cancelCtx p => Value_metadataKey p
  end.

(** [ctx.Deadline()] *)
Fixpoint Deadline (ctx : Context) : option time.Time :=
  match ctx with
  | emptyCtx => None
  | metaCtx p _ => Deadline p
  | valueCtx p _ _ => Deadline p
  | timerCtx _ d => Some d
  | cancelCtx p => Deadline p
  end.

Definition WithValue_metadataKey (parent : Context) (msg : json.RawMessage) : Context :=
  metaCtx parent msg.

(** [context.WithDeadline]; the cancel function is not part of the model. *)
Definition WithDeadline (parent : Context) (d : time.Time) : Context :=
  match Deadline parent with
  | Some cur => if time.Before cur d then cancelCtx parent else timerCtx parent d
  | None => timerCtx parent d
  end.

End context.

(** ** Package jctx *)

Module jctx.

Import json.

Definition wireVersion : bytes := bs "1".

(** The encoded representation of a context value.  A nil pointer is
    [None]. *)
Record wireContext : Type := mkWire {
  V : option bytes;               (* *string         `json:"jctx"` *)
  Deadline : option time.Time;    (* *time.Time      `json:"deadline,omitempty"` *)
  Payload : RawMessage;           (* json.RawMessage `json:"payload,omitempty"` *)
  Metadata : RawMessage           (* json.RawMessage `json:"meta,omitempty"` *)
}.

Definition zeroWire : wireContext := mkWire None None None None.

(** *** What encoding/json does at the type wireContext *)

Inductive field : Type := fV | fDeadline | fPayload | fMetadata.

Definition fieldName (f : field) : bytes :=
  match f with
  | fV => bs "jctx"
  | fDeadline => bs "deadline"
  | fPayload => bs "payload"
  | fMetadata => bs "meta"
  end.

Definition fields : list field := [fV; fDeadline; fPayload; fMetadata].

(** The field an object key names: an exact match, else the first match
    up to case. *)
Definition lookupField (key : bytes) : option field :=
  match find (fun f => bytes_eqb (fieldName f) key) fields with
  | Some f => Some f
  | None => find (fun f => equalFold (fieldName f) key) fields
  end.

(** One struct field of the output, with its leading separator. *)
Definition member (first : bool) (f : field) (value : bytes) : bytes :=
  (if first then ch "{" else ch ",") :: encodeString (fieldName f) ++ ch ":" :: value.

Definition omittable (value : error + bytes) (empty : bool) (f : field)
  : error + bytes :=
  if empty then inr []
  else match value with inl e => inl e | inr b => inr (member false f b) end.

(** The struct encoder over the four fields, in declaration order. *)
Definition Marshal_wireContext (c : wireContext) : error + bytes :=
  let v := match V c with None => bs "null" | Some s => encodeString s end in
  match omittable (marshalerEncoder
                     (match Deadline c with
                      | Some t => time.MarshalJSON t
                      | None => inr (bs "null") end))
                  (match Deadline c with None => true | Some _ => false end)
                  fDeadline with
  | inl e => inl e
  | inr d =>
      match omittable (marshalerEncoder (RawMessage_MarshalJSON (Payload c)))
                      (len (Payload c) =? 0)%nat fPayload with
      | inl e => inl e
      | inr p =>
          match omittable (marshalerEncoder (RawMessage_MarshalJSON (Metadata c)))
                          (len (Metadata c) =? 0)%nat fMetadata with
          | inl e => inl e
          | inr m => inr (member true fV v ++ d ++ p ++ m ++ [ch "}"])
          end
      end
  end.

(** The decoder's state between two steps of [d.object]: the struct as
    filled so far, the first error saved, the scanner, the last opcode and
    the unread data. *)
Inductive dres : Type :=
| Abort (c : wireContext) (e : error)
| Cont (c : wireContext) (saved : option error) (s : scanner) (op : opcode) (rest : bytes).

Definition saveError (saved : option error) (e : error) : option error :=
  match saved with Some e0 => Some e0 | None => Some e end.

(** [indirect] allocates the string that a nil [V] points to. *)
Definition allocV (c : wireContext) : wireContext :=
  mkWire (match V c with Some s => Some s | None => Some [] end)
         (Deadline c) (Payload c) (Metadata c).

Definition storeTime (c : wireContext) (item : bytes) : wireContext * option error :=
  let t0 := match Deadline c with Some t => t | None => time.zero end in
  match time.UnmarshalJSON item t0 with
  | inr t => (mkWire (V c) (Some t) (Payload c) (Metadata c), None)
  | inl e => (mkWire (V c) (Some t0) (Payload c) (Metadata c), Some e)
  end.

(** [d.literalStore(item, v, false)] at the field [f]; the second component
    is an error that ends the decoding, the third one that is saved. *)
Definition literalStore (f : option field) (item : bytes) (c : wireContext)
  : wireContext * option error * option error :=
  let c0 := nth 0 item 0 in
  match f with
  | None => (c, None, None)
  | Some fPayload => (mkWire (V c) (Deadline c) (Some item) (Metadata c), None, None)
  | Some fMetadata => (mkWire (V c) (Deadline c) (Payload c) (Some item), None, None)
  | Some fDeadline =>
      if c0 =? ch "n" then (mkWire (V c) None (Payload c) (Metadata c), None, None)
      else let '(c', e) := storeTime c item in (c', e, None)
  | Some fV =>
      if c0 =? ch "n" then (mkWire None (Deadline c) (Payload c) (Metadata c), None, None)
      else if c0 =? dquote then
        match unquoteBytes item with
        | Some s => (mkWire (Some s) (Deadline c) (Payload c) (Metadata c), None, None)
        | None => (allocV c, Some errPhase, None)
        end
      else if (c0 =? ch "t") || (c0 =? ch "f") then
        (allocV c, None, Some (UnmarshalTypeError "bool"))
      else (allocV c, None, Some (UnmarshalTypeError "number"))
  end.

(** [d.object(v)] and [d.array(v)] at the field [f], once the value has
    been skipped. *)
Definition compositeStore (f : option field) (item : bytes) (op : opcode) (c : wireContext)
  : wireContext * option error * option error :=
  match f with
  | None => (c, None, None)
  | Some fPayload => (mkWire (V c) (Deadline c) (Some item) (Metadata c), None, None)
  | Some fMetadata => (mkWire (V c) (Deadline c) (Payload c) (Some item), None, None)
  | Some fDeadline => let '(c', e) := storeTime c item in (c', e, None)
  | Some fV =>
      (allocV c, None,
       Some (UnmarshalTypeError
               (match op with scanBeginObject => "object" | _ => "array" end)))
  end.

Definition continue (r : wireContext * option error * option error)
  (saved : option error) (s : scanner) (op : opcode) (rest : bytes) : dres :=
  match r with
  | (c, Some e, _) => Abort c e
  | (c, None, Some e) => Cont c (saveError saved e) s op rest
  | (c, None, None) => Cont c saved s op rest
  end.

(** The reading half of [d.value(v)], entered with the opcode [op] of the
    value's first byte [b]: the text of the value and the scanner, opcode
    and unread data after it. *)
Definition readValue (s : scanner) (op : opcode) (b : byte) (rest : bytes)
  : option (bytes * (scanner * opcode * bytes)) :=
  match op with
  | scanBeginArray | scanBeginObject =>
      match skip maxNestingDepth (List.length (parseState s)) s rest with
      | None => None
      | Some (s1, _, item, rest1) => Some (b :: item, scanNext maxNestingDepth s1 rest1)
      end
  | scanBeginLiteral =>
      let '(item, after) := rescanLiteral b rest in
      Some (b :: item, afterLiteral s after)
  | _ => None
  end.

Definition store (f : option field) (op : opcode) (item : bytes) (c : wireContext)
  : wireContext * option error * option error :=
  match op with
  | scanBeginLiteral => literalStore f item c
  | _ => compositeStore f item op c
  end.

(** [d.value(v)] at the field [f]. *)
Definition value (f : option field) (c : wireContext) (saved : option error)
  (s : scanner) (op : opcode) (b : byte) (rest : bytes) : dres :=
  match readValue s op b rest with
  | None => Abort c errPhase
  | Some (item, (s', op', rest')) => continue (store f op item c) saved s' op' rest'
  end.

Definition skipSpace (s : scanner) (op : opcode) (rest : bytes)
  : scanner * opcode * bytes :=
  match op with
  | scanSkipSpace =>
      let '(s', op', _, rest') := scanWhile maxNestingDepth s rest in (s', op', rest')
  | _ => (s, op, rest)
  end.

(** The loop of [d.object] over the members of the top-level object.  Each
    round consumes input, so fuel beyond the length of the data is never
    used up. *)
Fixpoint object (fuel : nat) (c : wireContext) (saved : option error)
  (s : scanner) (rest : bytes) : dres :=
  match fuel with
  | O => Abort c errPhase
  | S fuel =>
      match scanWhile maxNestingDepth s rest with
      | (s, scanEndObject, _, rest) => Cont c saved s scanEndObject rest
      | (s, scanBeginLiteral, Some b, rest) =>
          let '(item, after) := rescanLiteral b rest in
          let '(s, op, rest) := afterLiteral s after in
          match unquoteBytes (b :: item) with
          | None => Abort c errPhase
          | Some key =>
              let f := lookupField key in
              match skipSpace s op rest with
              | (s, scanObjectKey, rest) =>
                  match scanWhile maxNestingDepth s rest with
                  | (s, op, Some b, rest) =>
                      match value f c saved s op b rest with
                      | Abort c e => Abort c e
                      | Cont c saved s op rest =>
                          match skipSpace s op rest with
                          | (s, scanEndObject, rest) => Cont c saved s scanEndObject rest
                          | (s, scanObjectValue, rest) => object fuel c saved s rest
                          | _ => Abort c errPhase
                          end
                      end
                  | _ => Abort c errPhase
                  end
              | _ => Abort c errPhase
              end
          end
      | _ => Abort c errPhase
      end
  end.

(** [json.Unmarshal(data, &c)] *)
Definition Unmarshal_wireContext (data : bytes) (c : wireContext)
  : wireContext * option error :=
  match checkValid maxNestingDepth data with
  | Some e => (c, Some e)
  | None =>
      match scanWhile maxNestingDepth reset data with
      | (s, scanBeginObject, _, rest) =>
          match object (S (List.length data)) c None s rest with
          | Abort c e => (c, Some e)
          | Cont c saved _ _ _ => (c, saved)
          end
      | (_, scanBeginArray, _, _) => (c, Some (UnmarshalTypeError "array"))
      | (_, scanBeginLiteral, Some b, _) =>
          if b =? ch "n" then (c, None)
          else if b =? dquote then (c, Some (UnmarshalTypeError "string"))
          else if (b =? ch "t") || (b =? ch "f") then (c, Some (UnmarshalTypeError "bool"))
          else (c, Some (UnmarshalTypeError "number"))
      | _ => (c, Some errPhase)
      end
  end.

#[global] Instance wireContext_Codec : Codec wireContext :=
  {| Marshal := Marshal_wireContext; Unmarshal := Unmarshal_wireContext |}.

(** The members of the top-level object as the loop of [d.object] reads
    them: each key, unquoted, with the text of its value. *)
Fixpoint members (fuel : nat) (s : scanner) (rest : bytes) : list (bytes * bytes) :=
  match fuel with
  | O => []
  | S fuel =>
      match scanWhile maxNestingDepth s rest with
      | (s, scanBeginLiteral, Some b, rest) =>
          let '(item, after) := rescanLiteral b rest in
          let '(s, op, rest) := afterLiteral s after in
          match unquoteBytes (b :: item) with
          | None => []
          | Some key =>
              match skipSpace s op rest with
              | (s, scanObjectKey, rest) =>
                  match scanWhile maxNestingDepth s rest with
                  | (s, op, Some b, rest) =>
                      match readValue s op b rest with
                      | None => []
                      | Some (item, (s, op, rest)) =>
                          (key, item) ::
                          match skipSpace s op rest with
                          | (s, scanObjectValue, rest) => members fuel s rest
                          | _ => []
                          end
                      end
                  | _ => []
                  end
              | _ => []
              end
          end
      | _ => []
      end
  end.

Definition membersOf (data : bytes) : list (bytes * bytes) :=
  match scanWhile maxNestingDepth reset data with
  | (s, scanBeginObject, _, rest) => members (S (List.length data)) s rest
  | _ => []
  end.

Definition field_eqb (f g : field) : bool :=
  match f, g with
  | fV, fV | fDeadline, fDeadline | fPayload, fPayload | fMetadata, fMetadata => true
  | _, _ => false
  end.

Definition names (f : field) (key : bytes) : bool :=
  match lookupField key with Some g => field_eqb g f | None => false end.

(** The member that decides the field [f]: the last one whose key names
    it. *)
Definition fieldMember (f : field) (ms : list (bytes * bytes)) : option bytes :=
  fold_left (fun acc m => if names f (fst m) then Some (snd m) else acc) ms None.

(** *** jctx.go *)

(** [Encode] encodes the specified context and request parameters for
    transmission. *)
Definition Encode (ctx : context.Context) (method : string) (params : RawMessage)
  : RawMessage * option error :=
  let v := wireVersion in
  let c := mkWire (Some v) None params None in
  let c :=
    match context.Deadline ctx with
    | Some dl => let utcdl := time.UTC dl in mkWire (V c) (Some utcdl) (Payload c) (Metadata c)
    | None => c
    end in
  let c :=
    match context.Value_metadataKey ctx with
    | Some v => mkWire (V c) (Deadline c) (Payload c) v
    | None => c
    end in
  match Marshal c with
  | inr out => (Some out, None)
  | inl e => (None, Some e)
  end.

(** [Decode] decodes the specified request message as a context-wrapped
    request; a nil context in the result is [None]. *)
Definition Decode (ctx : context.Context) (method : string) (req : RawMessage)
  : option context.Context * RawMessage * option error :=
  if (len req =? 0)%nat || negb (nth 0 (raw req) 0 =? ch "{") then (Some ctx, req, None)
  else
    let '(c, err) := Unmarshal (raw req) zeroWire in
    match err, V c with
    | Some _, _ | None, None => (Some ctx, req, None)
    | None, Some v =>
        if negb (bytes_eqb v wireVersion) then (None, None, Some (ErrInvalidVersion v))
        else
          let ctx :=
            match Metadata c with
            | Some m => context.WithValue_metadataKey ctx (Some m)
            | None => ctx
            end in
          let ctx :=
            match Deadline c with
            | Some d =>
                if negb (time.IsZero d) then context.WithDeadline ctx (time.UTC d) else ctx
            | None => ctx
            end in
          (Some ctx, Payload c, None)
    end.

(** [WithMetadata] attaches the specified metadata value to the context;
    the nil interface is [None]. *)
Definition WithMetadata {T : Type} `{Codec T} (ctx : context.Context) (meta : option T)
  : context.Context * option error :=
  match meta with
  | None => (context.WithValue_metadataKey ctx None, None)
  | Some m =>
      match Marshal m with
      | inl err => (ctx, Some err)
      | inr bits => (context.WithValue_metadataKey ctx (Some bits), None)
      end
  end.

(** [UnmarshalMetadata] decodes the metadata value attached to [ctx] into
    [meta]; the result is the target after the call and the error. *)
Definition UnmarshalMetadata {T : Type} `{Codec T} (ctx : context.Context) (meta : T)
  : T * option error :=
  match context.Value_metadataKey ctx with
  | Some (Some msg) => Unmarshal msg meta
  | _ => (meta, Some ErrNoMetadata)
  end.

End jctx.

(** ** Notions used by the statements *)

(** No metadata was ever attached along the chain of [ctx], not even the
    masking nil value. *)
Fixpoint neverAttached (ctx : context.Context) : bool :=
  match ctx with
  | context.emptyCtx => true
  | context.metaCtx _ _ => false
  | context.valueCtx p _ _ => neverAttached p
  | context.timerCtx p _ => neverAttached p
  | context.cancelCtx p => neverAttached p
  end.

(** [Decode] gets to parse [req] as the envelope [c]: the message begins
    with the object marker and [json.Unmarshal] accepts it. *)
Definition parsesAsEnvelope (req : json.RawMessage) (c : jctx.wireContext) : Prop :=
  json.len req <> 0%nat /\ nth 0 (json.raw req) 0 = ch "{" /\
  json.Unmarshal (json.raw req) jctx.zeroWire = (c, None).

(** ** The text of a timestamp *)

Module timeText.

Import time.

Fixpoint digitsK (k : nat) (x : Z) : bytes :=
  match k with
  | O => []
  | S k' => digitsK k' (x / 10) ++ [48 + x mod 10]
  end.

Definition decval (x : Z) (ds : bytes) : Z :=
  fold_left (fun a c => a * 10 + (c - 48)) ds x.

Definition nanoText (ds : bytes) : bytes :=
  match ds with [] => [] | _ => ch "." :: ds end.

Definition plainByte (c : byte) : bool := json.htmlSafe c && (c <? 128).

End timeText.

(** ** The text of an envelope *)

Module wire.

Import json timeText.

Fixpoint quietRun (limit : Z) (s : scanner) (data : bytes) : option scanner :=
  match data with
  | [] => Some s
  | c :: r =>
      let '(s', op) := stepScanner limit s c in
      if atLeastSkipSpace op then None else quietRun limit s' r
  end.

Definition complete (s : scanner) : bool :=
  match parseState s, step s with
  | [], stateEndValue | [], stateEndTop => true
  | _, _ => false
  end.

Definition coherent (s : scanner) : bool :=
  match step s, parseState s with
  | stateBeginStringOrEmpty, [] => false
  | stateEndTop, _ :: _ => false
  | stateError, _ => false
  | _, _ => true
  end.

Definition lift (base : list pstate) (s : scanner) : scanner :=
  mkScanner (match step s with stateEndTop => stateEndValue | f => f end)
            (parseState s ++ base).

Definition spacey (s : scanner) : bool :=
  match step s with
  | stateBeginValueOrEmpty | stateBeginValue | stateBeginStringOrEmpty
  | stateBeginString | stateEndValue | stateEndTop => true
  | _ => false
  end.

Definition inString (f : stepfn) : bool :=
  match f with
  | stateInString | stateInStringEsc | stateInStringEscU | stateInStringEscU1
  | stateInStringEscU12 | stateInStringEscU123 => true
  | _ => false
  end.

Definition inNumber (f : stepfn) : bool :=
  match f with
  | stateNeg | state1 | state0 | stateDot | stateDot0 | stateE | stateESign | stateE0 => true
  | _ => false
  end.

Definition storeValue (f : option jctx.field) (v : bytes) (c : jctx.wireContext)
  : jctx.wireContext * option error * option error :=
  match v with
  | b :: _ =>
      if b =? ch "{" then jctx.compositeStore f v scanBeginObject c
      else if b =? ch "[" then jctx.compositeStore f v scanBeginArray c
      else jctx.literalStore f v c
  | [] => jctx.literalStore f v c
  end.

Definition good (n : Z) (v : bytes) : Prop :=
  exists s', quietRun n reset v = Some s' /\ eof n s' <> scanError.

Definition objBase : list pstate := [parseObjectValue].

Definition memberText (f : jctx.field) (v : bytes) : bytes :=
  encodeString (jctx.fieldName f) ++ ch ":" :: v.

Fixpoint body (ms : list (jctx.field * bytes)) : bytes :=
  match ms with
  | [] => [ch "}"]
  | (f, v) :: ms' => ch "," :: memberText f v ++ body ms'
  end.

Definition envelope (f : jctx.field) (v : bytes) (ms : list (jctx.field * bytes)) : bytes :=
  ch "{" :: memberText f v ++ body ms.

Fixpoint runStores (ms : list (jctx.field * bytes)) (c : jctx.wireContext)
  (saved : option error) : jctx.wireContext * option error :=
  match ms with
  | [] => (c, saved)
  | (f, v) :: ms' =>
      match storeValue (Some f) v c with
      | (c', Some e, _) => (c', Some e)
      | (c', None, Some e) => runStores ms' c' (jctx.saveError saved e)
      | (c', None, None) => runStores ms' c' saved
      end
  end.

Definition dresult (r : jctx.dres) : jctx.wireContext * option error :=
  match r with
  | jctx.Abort c e => (c, Some e)
  | jctx.Cont c saved _ _ _ => (c, saved)
  end.

Definition keyStart (s : scanner) : Prop :=
  s = mkScanner stateBeginStringOrEmpty [parseObjectKey] \/
  s = mkScanner stateBeginString [parseObjectKey].

Definition okBytes (v : bytes) : Prop :=
  compact (maxNestingDepth - 1) true v = Some v.

Definition present (f : jctx.field) (v : bytes) : list (jctx.field * bytes) :=
  match v with [] => [] | _ => [(f, v)] end.

Definition attachedBytes (ctx : context.Context) : bytes :=
  match context.Value_metadataKey ctx with Some m => raw m | None => [] end.

(** The context that [Decode] derives from [base] for an envelope encoded
    from [ctx]. *)
Definition derived (base ctx : context.Context) : context.Context :=
  let b1 :=
    match attachedBytes ctx with
    | [] => base
    | m => context.metaCtx base (Some m)
    end in
  match context.Deadline ctx with
  | Some d => if time.IsZero d then b1 else context.WithDeadline b1 (time.UTC d)
  | None => b1
  end.

Definition decodedPayload (p : RawMessage) : RawMessage :=
  match raw p with [] => None | b => Some b end.

Definition okTime (d : time.Time) : Prop :=
  0 <= time.nsec d < 10 ^ 9 /\ 0 <= time.Year (time.UTC d) < 10000.

End wire.

(** ** The version pointer, and example values *)

(** Whether a [*string] is nil. *)
Definition isNil (v : option bytes) : bool :=
  match v with None => true | Some _ => false end.

(** Whether the version pointer is nil after the stores of the members
    [ms], when [b] tells whether it was nil before them. *)
Definition nilAfter (b : bool) (ms : list (bytes * bytes)) : bool :=
  fold_left (fun acc m => if jctx.names jctx.fV (fst m) then nth 0 (snd m) 0 =? ch "n" else acc)
            ms b.

(** 2009-11-10T23:00:00Z seen at offset +05:00, and a context that carries
    it as deadline together with metadata. *)
Definition plus5 : time.Time := time.mkTime 63393490800 0 (time.FixedZone 18000).

Definition ctxExample : context.Context :=
  context.metaCtx
    (context.timerCtx context.Background (time.mkTime 63393490800 150 (time.FixedZone 18000)))
    (Some (js "{'a':1,'b':'x'}")).

(** The zero time seen at offset +05:00. *)
Definition zeroPlus5 : time.Time := time.mkTime 0 0 (time.FixedZone 18000).

(** A context with a deadline and one with metadata, for the examples. *)
Definition ctxTimer : context.Context := context.timerCtx context.Background time.zero.
Definition ctxOld : context.Context := context.metaCtx context.Background (Some (js "'old'")).

(** ** The members of an envelope, as the decoder stores them *)

Module decoding.

Import json wire.

(** The last member of [ms] whose key names the field [f], or [init] when
    there is none; [jctx.fieldMember f ms] is [lastOr f ms None]. *)
Definition lastOr (f : jctx.field) (ms : list (bytes * bytes)) (init : option bytes)
  : option bytes :=
  fold_left (fun acc m => if jctx.names f (fst m) then Some (snd m) else acc) ms init.

(** The stores of the members [ms], in order, as the loop of [d.object]
    performs them: the struct and the saved error after the last one, or
    [None] when a store ends the decoding with an error. *)
Fixpoint runMembers (ms : list (bytes * bytes)) (c : jctx.wireContext) (saved : option error)
  : option (jctx.wireContext * option error) :=
  match ms with
  | [] => Some (c, saved)
  | (key, item) :: ms' =>
      match storeValue (jctx.lookupField key) item c with
      | (_, Some _, _) => None
      | (c', None, Some e) => runMembers ms' c' (jctx.saveError saved e)
      | (c', None, None) => runMembers ms' c' saved
      end
  end.

(** The text of a value that is neither a string nor [null]. *)
Definition notStringOrNull (item : bytes) : bool :=
  negb (nth 0 item 0 =? ch "n") && negb (nth 0 item 0 =? dquote).

(** The text of a value that is not [null] and that [Time.UnmarshalJSON]
    rejects. *)
Definition badTime (item : bytes) : bool :=
  negb (nth 0 item 0 =? ch "n") &&
  match time.parseRFC3339 item with inl _ => true | inr _ => false end.

(** The deadline that a deadline member sets: none for [null], else the
    time that its text parses to. *)
Definition memberTime (item : bytes) : option time.Time :=
  if nth 0 item 0 =? ch "n" then None
  else match time.parseRFC3339 item with inr t => Some t | inl _ => None end.

(** The deadline of the context that [Decode] returns on a base context
    with deadline [cur], for an envelope that carries the deadline [wd]: a
    zero deadline is skipped, and [context.WithDeadline] keeps an earlier
    deadline of the base. *)
Definition decodedDeadline (cur wd : option time.Time) : option time.Time :=
  match wd with
  | None => cur
  | Some d =>
      if time.IsZero d then cur
      else
        match cur with
        | Some c => if time.Before c (time.UTC d) then Some c else Some (time.UTC d)
        | None => Some (time.UTC d)
        end
  end.

End decoding.

(** ** Compaction seen by the scanner *)

Module compaction.

Import json.

(** The states in which a number may end. *)
Definition numEnd (f : stepfn) : bool :=
  match f with state1 | state0 | stateDot0 | stateE0 => true | _ => false end.

(** The scanner [s] that read a text and the scanner [t] that read its
    compacted form so far: they agree, except that [s] may already have
    stepped over space that ended a number or followed the top-level
    value. *)
Definition sim (s t : scanner) : Prop :=
  parseState s = parseState t /\
  (step s = step t \/
   (step s = stateEndValue /\ numEnd (step t) = true) \/
   (step s = stateEndTop /\ parseState s = [] /\
    (step t = stateEndValue \/ numEnd (step t) = true))).

(** The bytes at which [compact] may write an escape. *)
Definition escaped (c : byte) : bool :=
  (c =? ch "<") || (c =? ch ">") || (c =? ch "&") || (c =? 226).

End compaction.


(** * Properties *)

(** ** Timestamps *)

Module timeFacts.

Import time timeText.

Lemma shiftr2 (n : Z) : Z.shiftr n 2 = n / 4.
Proof. rewrite Z.shiftr_div_pow2 by lia. reflexivity. Qed.

Lemma absDate_inverse (D : Z) :
  daysSinceEpoch (fst (absDate D)) + snd (absDate D) = D.
Proof.
  unfold absDate, daysSinceEpoch, daysPer400Years, daysPer100Years, daysPer4Years.
  cbv zeta. cbn [fst snd]. rewrite !shiftr2.
  Z.div_mod_to_equations; lia.
Qed.

Lemma absDate_yday (D : Z) :
  0 <= snd (absDate D) < (if isLeap (fst (absDate D)) then 366 else 365).
Proof.
  unfold absDate, isLeap, daysPer400Years, daysPer100Years, daysPer4Years.
  cbv zeta. cbn [fst snd]. rewrite !shiftr2.
  match goal with |- context [if ?b then _ else _] => destruct b eqn:E end.
  - Z.div_mod_to_equations; lia.
  - apply andb_false_iff in E.
    destruct E as [E|E].
    + apply Z.eqb_neq in E. Z.div_mod_to_equations; lia.
    + apply orb_false_iff in E as [E1 E2].
      apply negb_false_iff in E1. apply Z.eqb_eq in E1. apply Z.eqb_neq in E2.
      Z.div_mod_to_equations; lia.
Qed.

Ltac eval_daysBefore :=
  repeat match goal with
  | |- context [daysBefore ?k] =>
      let v := eval vm_compute in (daysBefore k) in
      change (daysBefore k) with v
  end.

Ltac month_cases day :=
  let Hc := fresh "Hc" in
  let Hd := fresh "Hd" in
  let E := fresh "E" in
  assert (Hd : 31 * (day / 31) <= day < 31 * (day / 31) + 31)
    by (Z.div_mod_to_equations; lia);
  assert (Hc : day / 31 = 0 \/ day / 31 = 1 \/ day / 31 = 2 \/ day / 31 = 3 \/
               day / 31 = 4 \/ day / 31 = 5 \/ day / 31 = 6 \/ day / 31 = 7 \/
               day / 31 = 8 \/ day / 31 = 9 \/ day / 31 = 10 \/ day / 31 = 11)
    by (Z.div_mod_to_equations; lia);
  repeat (destruct Hc as [Hc|Hc]); rewrite Hc in *; eval_daysBefore;
  match goal with |- context [if ?b then _ else _] => destruct b eqn:E end;
  try (apply Z.leb_le in E); try (apply Z.leb_gt in E);
  cbn [Z.eqb Z.leb Z.add Z.sub Z.opp Z.compare Pos.compare Pos.compare_cont Pos.eqb
       Pos.add Pos.succ Z.pos_sub Pos.pred_double Z.double Z.succ_double Z.pred_double
       andb orb negb CompOpp];
  eval_daysBefore; lia.

Lemma monthDay_spec (year yday : Z) :
  0 <= yday < (if isLeap year then 366 else 365) ->
  let '(month, day) := monthDay year yday in
  1 <= month <= 12 /\ 1 <= day <= daysIn month year /\
  daysBefore (month - 1) + (if isLeap year && (3 <=? month) then 1 else 0) + (day - 1) = yday.
Proof.
  intros Hy. unfold monthDay, daysIn.
  destruct (isLeap year) eqn:El; cbn [andb].
  - destruct (yday =? 31 + 29 - 1) eqn:E59.
    + apply Z.eqb_eq in E59. subst. vm_compute. intuition congruence.
    + apply Z.eqb_neq in E59.
      destruct (31 + 29 - 1 <? yday) eqn:Elt.
      * apply Z.ltb_lt in Elt. month_cases (yday - 1).
      * apply Z.ltb_ge in Elt. month_cases yday.
  - month_cases yday.
Qed.

Lemma digitsK_zero (k : nat) : digitsK k 0 = repeat 48 k.
Proof.
  induction k as [|k IH]; [reflexivity|].
  cbn [digitsK]. change (0 / 10) with 0. rewrite IH.
  change (48 + 0 mod 10) with 48.
  change [48] with (repeat 48 1). rewrite <- repeat_app.
  f_equal. lia.
Qed.

Lemma digitsK_length (k : nat) (x : Z) : List.length (digitsK k x) = k.
Proof.
  revert x. induction k as [|k IH]; intros x; [reflexivity|].
  cbn [digitsK]. rewrite length_app, IH. simpl. lia.
Qed.

Lemma utoa_length (fuel : nat) (x : Z) (k : nat) :
  (k <= fuel)%nat -> 0 <= x < 10 ^ Z.of_nat k -> (1 <= k)%nat ->
  (List.length (utoa fuel x) <= k)%nat.
Proof.
  revert fuel x. induction k as [|k IH]; intros fuel x Hf Hx Hk; [lia|].
  destruct fuel as [|fuel]; [lia|].
  cbn [utoa]. destruct (x <? 10) eqn:E.
  - simpl. lia.
  - apply Z.ltb_ge in E. rewrite length_app. simpl.
    rewrite Nat2Z.inj_succ, Z.pow_succ_r in Hx by lia.
    assert (k <> 0%nat) by (intros ->; simpl in Hx; lia).
    specialize (IH fuel (x / 10) ltac:(lia)
                  ltac:(split; [apply Z.div_pos; lia
                               |apply Z.div_lt_upper_bound; lia]) ltac:(lia)).
    lia.
Qed.

Lemma utoa_pad (k : nat) :
  forall fuel x,
    (k <= fuel)%nat -> 0 <= x < 10 ^ Z.of_nat k -> (1 <= k)%nat ->
    repeat 48 (k - List.length (utoa fuel x)) ++ utoa fuel x = digitsK k x.
Proof.
  induction k as [|k IH]; intros fuel x Hf Hx Hk; [lia|].
  destruct fuel as [|fuel]; [lia|].
  cbn [utoa digitsK]. destruct (x <? 10) eqn:E.
  - apply Z.ltb_lt in E. cbn [List.length].
    rewrite Z.div_small, Z.mod_small, digitsK_zero by lia.
    replace (S k - 1)%nat with k by lia. reflexivity.
  - apply Z.ltb_ge in E.
    rewrite Nat2Z.inj_succ, Z.pow_succ_r in Hx by lia.
    assert (k <> 0%nat) by (intros ->; simpl in Hx; lia).
    rewrite length_app. cbn [List.length].
    replace (S k - (List.length (utoa fuel (x / 10)) + 1))%nat
      with (k - List.length (utoa fuel (x / 10)))%nat by lia.
    rewrite app_assoc. f_equal.
    apply IH; try lia.
    split; [apply Z.div_pos; lia | apply Z.div_lt_upper_bound; lia].
Qed.

Lemma appendInt_digits (k : nat) (x : Z) :
  (1 <= k <= 20)%nat -> 0 <= x < 10 ^ Z.of_nat k -> appendInt x k = digitsK k x.
Proof.
  intros Hk Hx. unfold appendInt.
  replace (x <? 0) with false by (symmetry; apply Z.ltb_ge; lia).
  rewrite Z.abs_eq by lia. cbn [app].
  apply utoa_pad; lia.
Qed.

Lemma decval_app (x : Z) (a b : bytes) : decval x (a ++ b) = decval (decval x a) b.
Proof. unfold decval. apply fold_left_app. Qed.

Lemma decval_digitsK (k : nat) :
  forall a x, 0 <= x < 10 ^ Z.of_nat k -> decval a (digitsK k x) = a * 10 ^ Z.of_nat k + x.
Proof.
  induction k as [|k IH]; intros a x Hx.
  - simpl in *. lia.
  - rewrite Nat2Z.inj_succ, Z.pow_succ_r in * by lia.
    cbn [digitsK]. rewrite decval_app, IH.
    + cbn [decval fold_left]. Z.div_mod_to_equations. lia.
    + split; [apply Z.div_pos; lia | apply Z.div_lt_upper_bound; lia].
Qed.

Lemma digitsK_isDigit (k : nat) (x : Z) :
  Forall (fun c => isDigit c = true) (digitsK k x).
Proof.
  revert x. induction k as [|k IH]; intros x; [constructor|].
  cbn [digitsK]. apply Forall_app. split; [apply IH|].
  constructor; [|constructor]. unfold isDigit.
  apply andb_true_iff. split; apply Z.leb_le; Z.div_mod_to_equations; lia.
Qed.

Lemma leadingInt_digits (ds : bytes) :
  forall x rest,
    Forall (fun c => isDigit c = true) ds ->
    match rest with [] => True | c :: _ => isDigit c = false end ->
    0 <= x -> (x + 1) * 10 ^ Z.of_nat (List.length ds) <= 10 ^ 18 ->
    leadingInt x (ds ++ rest) = Some (decval x ds, rest).
Proof.
  induction ds as [|c r IH]; intros x rest Hd Hr Hx Hb.
  - cbn [app]. destruct rest as [|c rest]; [reflexivity|].
    cbn [leadingInt]. rewrite Hr. reflexivity.
  - inversion Hd as [|? ? Hc Hd']; subst.
    cbn [app leadingInt]. rewrite Hc.
    cbn [List.length] in Hb. rewrite Nat2Z.inj_succ, Z.pow_succ_r in Hb by lia.
    assert (Hp : 0 < 10 ^ Z.of_nat (List.length r)) by (apply Z.pow_pos_nonneg; lia).
    unfold isDigit in Hc. apply andb_true_iff in Hc as [H1 H2].
    apply Z.leb_le in H1, H2.
    replace ((2 ^ 63 - 1) / 10 <? x) with false
      by (symmetry; apply Z.ltb_ge; change ((2 ^ 63 - 1) / 10) with 922337203685477580; nia).
    replace (2 ^ 63 <=? x * 10 + c - 48) with false
      by (symmetry; apply Z.leb_gt; change (2 ^ 63) with 9223372036854775808; nia).
    replace (x * 10 + c - 48) with (x * 10 + (c - 48)) by lia.
    rewrite IH; auto; try lia; try nia.
Qed.

Lemma trimZeros_spec (l : bytes) :
  exists m, l = repeat 48 m ++ trimZeros l.
Proof.
  induction l as [|c r [m IH]]; [exists 0%nat; reflexivity|].
  cbn [trimZeros]. destruct (c =? 48) eqn:E.
  - apply Z.eqb_eq in E. subst c. exists (S m). cbn [repeat app]. f_equal. exact IH.
  - exists 0%nat. reflexivity.
Qed.

Lemma rev_repeat48 (m : nat) : rev (repeat 48 m) = repeat 48 m.
Proof.
  induction m as [|m IH]; [reflexivity|].
  cbn [repeat rev]. rewrite IH.
  change [48] with (repeat 48 1). rewrite <- repeat_app.
  replace (m + 1)%nat with (S m) by lia. reflexivity.
Qed.

Lemma decval_zeros (m : nat) (a : Z) : decval a (repeat 48 m) = a * 10 ^ Z.of_nat m.
Proof.
  revert a. induction m as [|m IH]; intros a.
  - simpl. lia.
  - cbn [repeat]. change (decval a (48 :: repeat 48 m)) with (decval (a * 10 + (48 - 48)) (repeat 48 m)).
    rewrite IH, Nat2Z.inj_succ, Z.pow_succ_r by lia. lia.
Qed.

Lemma decval_bound (ds : bytes) :
  forall a, Forall (fun c => isDigit c = true) ds -> 0 <= a ->
            a * 10 ^ Z.of_nat (List.length ds) <= decval a ds
            < (a + 1) * 10 ^ Z.of_nat (List.length ds).
Proof.
  induction ds as [|c r IH]; intros a Hd Ha.
  - simpl. lia.
  - inversion Hd as [|? ? Hc Hd']; subst.
    unfold isDigit in Hc. apply andb_true_iff in Hc as [H1 H2]. apply Z.leb_le in H1, H2.
    change (decval a (c :: r)) with (decval (a * 10 + (c - 48)) r).
    cbn [List.length]. rewrite Nat2Z.inj_succ, Z.pow_succ_r by lia.
    specialize (IH (a * 10 + (c - 48)) Hd' ltac:(lia)).
    assert (Hp : 0 < 10 ^ Z.of_nat (List.length r)) by (apply Z.pow_pos_nonneg; lia).
    nia.
Qed.

Lemma nano_digits (ns : Z) :
  0 <= ns < 10 ^ 9 ->
  exists ds m,
    rev (trimZeros (rev (digitsK 9 ns))) = ds /\
    Forall (fun c => isDigit c = true) ds /\
    (List.length ds + m = 9)%nat /\
    decval 0 ds * 10 ^ Z.of_nat m = ns.
Proof.
  intros Hns.
  destruct (trimZeros_spec (rev (digitsK 9 ns))) as [m Hm].
  exists (rev (trimZeros (rev (digitsK 9 ns)))), m.
  assert (Hd : digitsK 9 ns = rev (trimZeros (rev (digitsK 9 ns))) ++ repeat 48 m).
  { rewrite <- (rev_involutive (digitsK 9 ns)) at 1. rewrite Hm at 1.
    rewrite rev_app_distr, rev_repeat48. reflexivity. }
  set (ds := rev (trimZeros (rev (digitsK 9 ns)))) in *.
  split; [reflexivity|].
  assert (Hf : Forall (fun c => isDigit c = true) ds).
  { pose proof (digitsK_isDigit 9 ns) as H. rewrite Hd in H.
    apply Forall_app in H. tauto. }
  split; [exact Hf|]. split.
  - pose proof (digitsK_length 9 ns) as H. rewrite Hd, length_app, repeat_length in H. exact H.
  - pose proof (decval_digitsK 9 0 ns Hns) as H.
    rewrite Hd, decval_app, decval_zeros in H. lia.
Qed.

Lemma spanDigits_app (ds rest : bytes) :
  Forall (fun c => isDigit c = true) ds ->
  match rest with [] => True | c :: _ => isDigit c = false end ->
  spanDigits (ds ++ rest) = (ds, rest).
Proof.
  intros Hd Hr. induction Hd as [|c r Hc Hd IH].
  - cbn [app]. destruct rest as [|c rest]; [reflexivity|].
    cbn [spanDigits]. rewrite Hr. reflexivity.
  - cbn [app spanDigits]. rewrite Hc, IH. reflexivity.
Qed.

Lemma parseNanoseconds_digits (ds : bytes) :
  Forall (fun c => isDigit c = true) ds -> ds <> [] -> (List.length ds <= 9)%nat ->
  parseNanoseconds ds = inr (decval 0 ds * 10 ^ (9 - Z.of_nat (List.length ds))).
Proof.
  intros Hd Hne Hl. unfold parseNanoseconds. cbv zeta.
  rewrite firstn_all2 by lia. unfold atoi.
  destruct ds as [|c r]; [contradiction|].
  inversion Hd as [|? ? Hc Hd']; subst.
  assert (Hs : (c =? ch "-") || (c =? ch "+") = false).
  { unfold isDigit in Hc. apply andb_true_iff in Hc as [H1 H2]. apply Z.leb_le in H1, H2.
    apply orb_false_iff. split; apply Z.eqb_neq; unfold ch; simpl; lia. }
  rewrite Hs.
  pose proof (decval_bound (c :: r) 0 Hd ltac:(lia)) as Hb.
  assert (Hp : 10 ^ Z.of_nat (List.length (c :: r)) <= 10 ^ 9)
    by (apply Z.pow_le_mono_r; lia).
  pose proof (leadingInt_digits (c :: r) 0 [] Hd I ltac:(lia)) as Hl0.
  rewrite app_nil_r in Hl0. rewrite Hl0.
  2:{ change (10 ^ 18) with (10 ^ 9 * 10 ^ 9). nia. }
  replace (decval 0 (c :: r) <? 0) with false.
  - reflexivity.
  - symmetry. apply Z.ltb_ge. lia.
Qed.

Lemma atoi_digitsK (k : nat) (x : Z) :
  (1 <= k <= 17)%nat -> 0 <= x < 10 ^ Z.of_nat k -> atoi (digitsK k x) = Some x.
Proof.
  intros Hk Hx. unfold atoi.
  pose proof (digitsK_isDigit k x) as Hd.
  pose proof (digitsK_length k x) as Hl.
  destruct (digitsK k x) as [|c r] eqn:E; [simpl in Hl; lia|].
  inversion Hd as [|? ? Hc Hd']; subst.
  assert (Hs : (c =? ch "-") || (c =? ch "+") = false).
  { unfold isDigit in Hc. apply andb_true_iff in Hc as [H1 H2]. apply Z.leb_le in H1, H2.
    apply orb_false_iff. split; apply Z.eqb_neq; unfold ch; simpl; lia. }
  rewrite Hs.
  pose proof (leadingInt_digits (c :: r) 0 [] Hd I ltac:(lia)) as Hl0.
  rewrite app_nil_r in Hl0. rewrite Hl0.
  - rewrite <- E, decval_digitsK by lia. reflexivity.
  - change (10 ^ 18) with (10 * 10 ^ 17).
    assert (10 ^ Z.of_nat (List.length (c :: r)) <= 10 ^ 17)
      by (apply Z.pow_le_mono_r; lia).
    lia.
Qed.

Lemma digits4 (y : Z) :
  0 <= y < 10000 ->
  exists a b c d, digitsK 4 y = [a; b; c; d] /\ isDigit a = true /\
                  atoi [a; b; c; d] = Some y.
Proof.
  intros Hy.
  pose proof (atoi_digitsK 4 y ltac:(lia) Hy) as Ha.
  pose proof (digitsK_isDigit 4 y) as Hd.
  cbn [digitsK app] in *.
  do 4 eexists. split; [reflexivity|]. split; [|exact Ha].
  exact (Forall_inv Hd).
Qed.

Lemma getnum_digits (x : Z) (rest : bytes) (fixed : bool) :
  0 <= x < 100 -> getnum (digitsK 2 x ++ rest) fixed = Some (x, rest).
Proof.
  intros Hx. pose proof (digitsK_isDigit 2 x) as Hd.
  cbn [digitsK app] in *.
  assert (E : (48 + (x / 10) mod 10 - 48) * 10 + (48 + x mod 10 - 48) = x)
    by (Z.div_mod_to_equations; lia).
  revert Hd E. generalize (48 + (x / 10) mod 10), (48 + x mod 10). intros a b Hd E.
  pose proof (Forall_inv Hd) as H0. pose proof (Forall_inv (Forall_inv_tail Hd)) as H1.
  cbn beta in H0, H1.
  cbn [getnum]. rewrite H0, H1, E. reflexivity.
Qed.

Lemma daysIn_le (m y : Z) : 1 <= m <= 12 -> daysIn m y <= 31.
Proof.
  intros Hm. unfold daysIn.
  assert (Hc : m = 1 \/ m = 2 \/ m = 3 \/ m = 4 \/ m = 5 \/ m = 6 \/ m = 7 \/ m = 8 \/
               m = 9 \/ m = 10 \/ m = 11 \/ m = 12) by lia.
  repeat (destruct Hc as [Hc|Hc]); subst m;
    destruct (isLeap y); vm_compute; discriminate.
Qed.

Ltac stp := cbv beta iota zeta delta [bind need check skip]; cbn [app].

Lemma parse_fields (year month day hour min s ns : Z) (ds : bytes) (m : nat) :
  0 <= year < 10000 -> 1 <= month <= 12 -> 1 <= day <= daysIn month year ->
  0 <= hour < 24 -> 0 <= min < 60 -> 0 <= s < 60 ->
  Forall (fun c => isDigit c = true) ds -> (List.length ds + m = 9)%nat ->
  decval 0 ds * 10 ^ Z.of_nat m = ns ->
  parseRFC3339
    (dquote :: digitsK 4 year ++ ch "-" :: digitsK 2 month ++ ch "-" :: digitsK 2 day
       ++ ch "T" :: digitsK 2 hour ++ ch ":" :: digitsK 2 min ++ ch ":" :: digitsK 2 s
       ++ nanoText ds ++ [ch "Z"; dquote])
  = inr (Date year month day hour min s ns).
Proof.
  intros Hy Hmo Hda Hh Hmi Hs Hds Hlen Hns.
  pose proof (daysIn_le month year Hmo) as Hdi.
  destruct (digits4 year Hy) as (a & b & c & d & E4 & Ha & Hat).
  unfold parseRFC3339. rewrite E4.
  stp. change (dquote =? dquote) with true. stp.
  rewrite Ha, Hat. stp. change (ch "-" =? ch "-") with true. stp.
  rewrite getnum_digits by lia. stp.
  replace ((0 <? month) && (month <=? 12)) with true
    by (symmetry; apply andb_true_iff; split; [apply Z.ltb_lt|apply Z.leb_le]; lia).
  stp. change (ch "-" =? ch "-") with true. stp.
  rewrite getnum_digits by lia. stp.
  change (ch "T" =? ch "T") with true. stp.
  rewrite getnum_digits by lia. stp.
  replace (hour <? 24) with true by (symmetry; apply Z.ltb_lt; lia).
  stp. change (ch ":" =? ch ":") with true. stp.
  rewrite getnum_digits by lia. stp.
  replace (min <? 60) with true by (symmetry; apply Z.ltb_lt; lia).
  stp. change (ch ":" =? ch ":") with true. stp.
  rewrite getnum_digits by lia. stp.
  replace (s <? 60) with true by (symmetry; apply Z.ltb_lt; lia).
  stp.
  assert (Hday : (1 <=? day) && (day <=? daysIn month year) = true)
    by (apply andb_true_iff; split; apply Z.leb_le; lia).
  destruct ds as [|d1 ds'].
  - cbn [nanoText app]. change (commaOrPeriod (ch "Z")) with false. cbn [andb].
    cbv beta iota delta [parseZone]. change (ch "Z" =? ch "Z") with true.
    cbv beta iota. change (dquote =? dquote) with true. cbv beta iota.
    rewrite Hday. simpl in Hns. subst ns. reflexivity.
  - cbn [nanoText app]. change (commaOrPeriod (ch ".")) with true.
    rewrite (Forall_inv Hds). cbn [andb].
    change (d1 :: ds' ++ [ch "Z"; dquote]) with ((d1 :: ds') ++ [ch "Z"; dquote]).
    rewrite (spanDigits_app (d1 :: ds') [ch "Z"; dquote] Hds eq_refl).
    rewrite parseNanoseconds_digits by (auto; try discriminate; lia).
    cbv beta iota delta [parseZone]. change (ch "Z" =? ch "Z") with true.
    cbv beta iota. change (dquote =? dquote) with true. cbv beta iota.
    rewrite Hday.
    replace (9 - Z.of_nat (List.length (d1 :: ds'))) with (Z.of_nat m) by lia.
    rewrite Hns. reflexivity.
Qed.

Lemma formatNano_digits (ns : Z) :
  0 <= ns < 10 ^ 9 ->
  exists ds m,
    formatNano ns = nanoText ds /\
    Forall (fun c => isDigit c = true) ds /\
    (List.length ds + m = 9)%nat /\
    decval 0 ds * 10 ^ Z.of_nat m = ns.
Proof.
  intros Hns. destruct (nano_digits ns Hns) as (ds & m & E & Hd & Hl & Hv).
  exists ds, m. repeat split; auto.
  unfold formatNano. rewrite appendInt_digits by (simpl; lia).
  cbv zeta. rewrite E. destruct ds; reflexivity.
Qed.

Lemma digit_plain (c : byte) : isDigit c = true -> plainByte c = true.
Proof.
  unfold isDigit, plainByte, json.htmlSafe. intros H.
  apply andb_true_iff in H as [H1 H2]. apply Z.leb_le in H1, H2.
  repeat (apply andb_true_iff; split); try (apply Z.leb_le; lia); try (apply Z.ltb_lt; lia).
  apply negb_true_iff. repeat (apply orb_false_iff; split);
    apply Z.eqb_neq; unfold dquote, ch; simpl; lia.
Qed.

Lemma digits_plain (ds : bytes) :
  Forall (fun c => isDigit c = true) ds -> Forall (fun c => plainByte c = true) ds.
Proof.
  intros H. eapply Forall_impl; [|exact H]. intros c. apply digit_plain.
Qed.

Lemma plain_mod10 (z : Z) : plainByte (48 + z mod 10) = true.
Proof.
  apply digit_plain. unfold isDigit.
  apply andb_true_iff. split; apply Z.leb_le; Z.div_mod_to_equations; lia.
Qed.

(** The wire form of a UTC time within the years that [MarshalJSON]
    accepts is a string literal of plain bytes and parses back to the same
    time. *)
Lemma time_roundtrip (t t0 : Time) :
  loc t = utcLoc -> 0 <= nsec t < 10 ^ 9 -> 0 <= Year t < 10000 ->
  exists ds,
    MarshalJSON t = inr (dquote :: ds ++ [dquote]) /\
    Forall (fun c => plainByte c = true) ds /\
    UnmarshalJSON (dquote :: ds ++ [dquote]) t0 = inr t.
Proof.
  intros Hloc Hns Hy. destruct t as [a ns l]. cbn [loc nsec] in *. subst l.
  exists (formatRFC3339Nano (mkTime a ns utcLoc)). split.
  { unfold MarshalJSON.
    replace ((Year (mkTime a ns utcLoc) <? 0) || (10000 <=? Year (mkTime a ns utcLoc)))
      with false; [reflexivity|].
    symmetry. apply orb_false_iff. split; [apply Z.ltb_ge|apply Z.leb_gt]; lia. }
  unfold UnmarshalJSON.
  change (bs "null") with [ch "n"; ch "u"; ch "l"; ch "l"].
  cbn [bytes_eqb]. change (dquote =? ch "n") with false. cbn [andb].
  unfold Year, abs in Hy. cbn [sec loc offset] in Hy. rewrite Z.add_0_r in Hy.
  unfold formatRFC3339Nano, abs. cbn [sec loc offset nsec]. rewrite Z.add_0_r.
  pose proof (absDate_inverse (a / secondsPerDay)) as Hinv.
  pose proof (absDate_yday (a / secondsPerDay)) as Hyd.
  destruct (absDate (a / secondsPerDay)) as [year yday] eqn:Eabs.
  cbn [fst snd] in *.
  pose proof (monthDay_spec year yday Hyd) as Hmd.
  destruct (monthDay year yday) as [month day] eqn:Emd.
  destruct Hmd as (Hmo & Hda & Hsum).
  pose proof (daysIn_le month year Hmo) as Hdi.
  destruct (formatNano_digits ns Hns) as (ds & m & En & Hd & Hl & Hv).
  set (s := a mod secondsPerDay).
  assert (Hs : 0 <= s < 86400) by (subst s; unfold secondsPerDay; Z.div_mod_to_equations; lia).
  rewrite !appendInt_digits, En;
    try (simpl; lia);
    try (change (10 ^ Z.of_nat 2) with 100; Z.div_mod_to_equations; lia).
  unfold formatZone. cbn [Z.eqb].
  split.
  { repeat (apply Forall_app; split); repeat apply Forall_cons;
      try apply Forall_nil; try reflexivity;
      repeat (apply Forall_app; split); repeat apply Forall_cons;
      try apply Forall_nil; try reflexivity;
      try (apply digits_plain, digitsK_isDigit).
    all: repeat (apply Forall_app; split); repeat apply Forall_cons;
      try apply Forall_nil; try reflexivity;
      try (apply digits_plain, digitsK_isDigit).
    all: try (destruct ds; [apply Forall_nil|];
              cbn [nanoText]; apply Forall_cons; [reflexivity|apply digits_plain; exact Hd]).
    all: apply plain_mod10. }
  repeat (rewrite <- app_assoc; cbn [app]).
  rewrite (parse_fields year month day (s / 3600) (s mod 3600 / 60) (s mod 60) ns ds m);
    auto; try (Z.div_mod_to_equations; lia).
  f_equal. unfold Date. f_equal.
  assert (E : (if isLeap year && (3 <=? month)
               then daysSinceEpoch year + daysBefore (month - 1) + 1
               else daysSinceEpoch year + daysBefore (month - 1)) + (day - 1)
              = a / secondsPerDay).
  { destruct (isLeap year && (3 <=? month)); lia. }
  rewrite E. subst s. unfold secondsPerDay. Z.div_mod_to_equations. lia.
Qed.

End timeFacts.

(** ** Scanning and decoding an envelope *)

Module wireFacts.

Import json timeText wire.

Ltac break_if :=
  match goal with
  | |- context [if ?b then _ else _] => destruct b eqn:?
  | H : context [if ?b then _ else _] |- _ => destruct b eqn:?
  end.

Ltac break_hyp H :=
  repeat match type of H with
  | context [if ?b then _ else _] => destruct b eqn:?
  | context [match ?x with [] => _ | _ :: _ => _ end] => destruct x
  | context [match ?x with parseObjectKey => _ | _ => _ end] => destruct x
  end.

Lemma step_lift (n : Z) (base : list pstate) (s s' : scanner) (c : byte) (op : opcode) :
  base <> [] ->
  coherent s = true -> complete s = false ->
  stepScanner n s c = (s', op) ->
  atLeastSkipSpace op = false ->
  stepScanner (n + Z.of_nat (List.length base)) (lift base s) c = (lift base s', op)
  /\ coherent s' = true.
Proof.
  intros Hb Hc Hi Hs Hq.
  destruct s as [f st].
  destruct f; destruct st as [|p st]; try discriminate;
  unfold stepScanner, lift in *; cbn [step parseState] in *;
  unfold runBeginValue, runBeginString, run0, runESign, expect, runEndValue, runEndTop,
    pushParseState, popParseState, goto, fail in *; cbn [step parseState tl app] in *.
  all: break_hyp Hs; try discriminate.
  all: injection Hs as <- <-; try discriminate Hq.
  all: cbn [step parseState app tl List.length] in *; try discriminate.
  all: try (split; reflexivity).
  all: try (destruct base; [contradiction|]; split; reflexivity).
  all: match goal with
       | H : (Z.of_nat _ <=? _) = true |- context [if ?b then _ else _] =>
           apply Z.leb_le in H;
           assert (E : b = true) by (apply Z.leb_le; rewrite ?length_app; cbn [List.length] in *; lia);
           rewrite E; split; reflexivity
       end.
Qed.

Ltac unfold_step :=
  unfold stepScanner, runBeginValue, runBeginString, run0, runESign, expect,
    runEndValue, runEndTop, pushParseState, popParseState, goto, fail in *;
  cbn [step parseState tl app] in *.

Lemma complete_not_quiet (n : Z) (s s' : scanner) (c : byte) (op : opcode) :
  complete s = true -> stepScanner n s c = (s', op) -> atLeastSkipSpace op = true.
Proof.
  intros Hc Hs. destruct s as [f [|p st]]; destruct f; try discriminate;
    unfold_step; break_hyp Hs; injection Hs as <- <-; reflexivity.
Qed.

Lemma quietRun_lift (n : Z) (base : list pstate) (data : bytes) :
  base <> [] ->
  forall s s',
    coherent s = true ->
    complete s = false \/ data = [] ->
    quietRun n s data = Some s' ->
    quietRun (n + Z.of_nat (List.length base)) (lift base s) data = Some (lift base s')
    /\ coherent s' = true.
Proof.
  intros Hb. induction data as [|c r IH]; intros s s' Hc Hi Hq.
  - simpl in *. injection Hq as <-. auto.
  - destruct Hi as [Hi|]; [|discriminate].
    simpl in Hq. destruct (stepScanner n s c) as [s1 op] eqn:Es.
    destruct (atLeastSkipSpace op) eqn:Eo; [discriminate|].
    destruct (step_lift n base s s1 c op Hb Hc Hi Es Eo) as [El Hc1].
    simpl. rewrite El, Eo.
    apply IH; auto.
    destruct r as [|c2 r2]; [now right|left].
    destruct (complete s1) eqn:Ec; [|reflexivity].
    simpl in Hq. destruct (stepScanner n s1 c2) as [s2 op2] eqn:Es2.
    rewrite (complete_not_quiet n s1 s2 c2 op2 Ec Es2) in Hq. discriminate.
Qed.

Lemma step_mono (n n' : Z) (s s' : scanner) (c : byte) (op : opcode) :
  n <= n' -> stepScanner n s c = (s', op) -> op <> scanError ->
  stepScanner n' s c = (s', op).
Proof.
  intros Hn Hs Ho. destruct s as [f st]; destruct f; unfold_step.
  all: break_hyp Hs; try (injection Hs as <- <-; congruence).
  all: try match goal with
       | H : (Z.of_nat _ <=? _) = true |- context [if ?b then _ else _] =>
           apply Z.leb_le in H;
           assert (E : b = true) by (apply Z.leb_le; lia);
           rewrite E; assumption
       end.
Qed.

Lemma eof_limit (n n' : Z) (s : scanner) : eof n s = eof n' s.
Proof.
  destruct s as [f st]; destruct f; reflexivity.
Qed.

Lemma compact_mono (n n' : Z) (e : bool) (src : bytes) :
  n <= n' ->
  forall s hold out,
    compact_from n e s hold src = Some out -> compact_from n' e s hold src = Some out.
Proof.
  intros Hn. induction src as [|c r IH]; intros s hold out H.
  - simpl in *. rewrite (eof_limit n' n). exact H.
  - cbn [compact_from] in *.
    destruct (stepScanner n s c) as [s1 v] eqn:Es.
    assert (Hv : v <> scanError) by (destruct v; congruence).
    rewrite (step_mono n n' s s1 c v Hn Es Hv).
    destruct v; try congruence;
    match type of H with
    | context [compact_from n e s1 ?h r] =>
        destruct (compact_from n e s1 h r) as [o|] eqn:Ec; [|discriminate];
        rewrite (IH _ _ _ Ec); exact H
    end.
Qed.

Lemma skipped_spacey (n : Z) (s s' : scanner) (c : byte) (op : opcode) :
  stepScanner n s c = (s', op) -> atLeastSkipSpace op = true -> op <> scanError ->
  step s' = stateError \/ (isSpace c = true /\ spacey s' = true).
Proof.
  intros Hs Ho He. destruct s as [f st]; destruct f; unfold_step.
  all: break_hyp Hs; injection Hs as <- <-; try discriminate; try congruence; auto.
Qed.

Lemma spacey_skips (n : Z) (s s' : scanner) (c : byte) (op : opcode) :
  spacey s = true -> isSpace c = true -> stepScanner n s c = (s', op) ->
  atLeastSkipSpace op = true.
Proof.
  intros Hsp Hc Hs. destruct s as [f st]; destruct f; try discriminate; unfold_step.
  all: rewrite Hc in Hs; break_hyp Hs; injection Hs as <- <-; reflexivity.
Qed.

Lemma compact_error (n : Z) (e : bool) (s : scanner) (hold : nat) (src : bytes) :
  step s = stateError -> compact_from n e s hold src = None.
Proof.
  intros Hs. destruct s as [f st]. simpl in Hs. subst f.
  destruct src; reflexivity.
Qed.

Lemma isSpace_esc : isSpace (ch "\") = false.
Proof. reflexivity. Qed.

Lemma compact_cons (n : Z) (s : scanner) (hold : nat) (c : byte) (r out : bytes) :
  compact_from n true s hold (c :: r) = Some out ->
  exists s1 v o,
    stepScanner n s c = (s1, v) /\ v <> scanError /\
    let html := (c =? ch "<") || (c =? ch ">") || (c =? ch "&") in
    let sep := (c =? 226) &&
               match r with
               | c1 :: c2 :: _ => (c1 =? 128) && (Z.land c2 (Z.lnot 1) =? 168)
               | _ => false
               end in
    compact_from n true s1 (if sep then 2%nat else Nat.pred hold) r = Some o /\
    out = (if html then bs "\u00" ++ [hex (Z.shiftr c 4); hex (Z.land c 15)]
           else if sep then bs "\u202" ++ [hex (Z.land (nth 1 r 0) 15)] else [])
          ++ (if negb html && negb sep && (hold =? 0)%nat && negb (atLeastSkipSpace v)
              then [c] else []) ++ o.
Proof.
  intros H. cbn [compact_from] in H.
  destruct (stepScanner n s c) as [s1 v] eqn:Es.
  exists s1, v. cbn [andb] in H.
  destruct v; try discriminate;
  match type of H with
  | context [compact_from n true s1 ?h r] =>
      destruct (compact_from n true s1 h r) as [o|] eqn:Ec; [|discriminate];
      exists o; injection H as <-; cbv zeta; repeat split;
      try discriminate; try reflexivity; try exact Ec
  end.
Qed.

Lemma compact_spacey_head (n : Z) (src : bytes) :
  forall s out,
    spacey s = true ->
    compact_from n true s 0 src = Some out ->
    match out with [] => True | x :: _ => isSpace x = false end.
Proof.
  induction src as [|c r IH]; intros s out Hsp H.
  - simpl in H. destruct (eof n s); try discriminate; injection H as <-; exact I.
  - apply compact_cons in H as (s1 & v & o & Es & Hv & Ho & ->).
    cbv zeta in *.
    destruct ((c =? ch "<") || (c =? ch ">") || (c =? ch "&")); [reflexivity|].
    match goal with |- context [if ?b then _ else _] => destruct b end; [reflexivity|].
    cbn [negb andb Nat.eqb app Nat.pred] in *.
    destruct (atLeastSkipSpace v) eqn:Ev; cbn [negb app].
    + destruct (skipped_spacey n s s1 c v Es Ev Hv) as [He|[_ Hs1]].
      * rewrite compact_error in Ho by exact He. discriminate.
      * eapply IH; eauto.
    + cbn [app]. destruct (isSpace c) eqn:Ec; [|reflexivity].
      rewrite (spacey_skips n s s1 c v Hsp Ec Es) in Ev. discriminate.
Qed.

(** A text that compaction leaves unchanged is scanned without a skipped
    byte and ends a value. *)
Lemma compact_fixed_quiet (n : Z) (data : bytes) :
  forall s,
    compact_from n true s 0 data = Some data ->
    exists s', quietRun n s data = Some s' /\ eof n s' <> scanError.
Proof.
  induction data as [|c r IH]; intros s H.
  - exists s. split; [reflexivity|]. simpl in H. destruct (eof n s); congruence.
  - apply compact_cons in H as (s1 & v & o & Es & Hv & Ho & Hout).
    cbv zeta in *.
    destruct ((c =? ch "<") || (c =? ch ">") || (c =? ch "&")) eqn:Eh.
    { exfalso. injection Hout as Hc _. subst c. discriminate Eh. }
    match type of Hout with context [if ?b then _ else _] => destruct b eqn:Esep end.
    { exfalso. injection Hout as Hc _. subst c. discriminate Esep. }
    cbn [negb andb Nat.eqb app Nat.pred] in *.
    destruct (atLeastSkipSpace v) eqn:Ev; cbn [negb app] in Hout.
    + exfalso. subst o.
      destruct (skipped_spacey n s s1 c v Es Ev Hv) as [He|[Hc Hs1]].
      * rewrite compact_error in Ho by exact He. discriminate.
      * pose proof (compact_spacey_head n r s1 _ Hs1 Ho) as Hh. simpl in Hh. congruence.
    + injection Hout as Hout. subst o.
      destruct (IH s1 Ho) as (s' & Hq & He).
      exists s'. split; [|exact He]. simpl. rewrite Es, Ev. exact Hq.
Qed.

Lemma quietRun_app (n : Z) (a b : bytes) :
  forall s, quietRun n s (a ++ b) =
            match quietRun n s a with Some s' => quietRun n s' b | None => None end.
Proof.
  induction a as [|c r IH]; intros s; [reflexivity|].
  simpl. destruct (stepScanner n s c) as [s1 op].
  destruct (atLeastSkipSpace op); [reflexivity|apply IH].
Qed.

Lemma checkValid_quiet (n : Z) (a : bytes) :
  forall s s', quietRun n s a = Some s' -> eof n s' <> scanError ->
               checkValid_from n s a = None.
Proof.
  induction a as [|c r IH]; intros s s' Hq He.
  - simpl in *. injection Hq as <-. destruct (eof n s); congruence.
  - simpl in *. destruct (stepScanner n s c) as [s1 op].
    destruct op; try discriminate; eapply IH; eauto.
Qed.

Lemma runEndValue_stack (s t : scanner) (c : byte) :
  parseState s = parseState t -> runEndValue s c = runEndValue t c.
Proof.
  destruct s as [f st], t as [g st']. simpl. intros <-.
  unfold runEndValue, runEndTop, popParseState, goto, fail. simpl. reflexivity.
Qed.

(** After a finished value inside an object, the delimiter is handled by
    [stateEndValue]. *)
Lemma finished_delimiter (n m : Z) (s' : scanner) (base : list pstate) (d : byte) :
  coherent s' = true -> eof n s' <> scanError ->
  d = ch "," \/ d = ch "}" -> base <> [] ->
  stepScanner m (lift base s') d = runEndValue (mkScanner stateEndValue base) d.
Proof.
  intros Hc He Hd Hb.
  destruct s' as [f [|p st]]; destruct f; try discriminate; try (exfalso; apply He; reflexivity).
  all: destruct Hd; subst d; try reflexivity.
  all: try (exfalso; apply He; destruct p; reflexivity).
Qed.

Lemma skip_lift (n : Z) (base : list pstate) (more : bytes) (data : bytes) :
  base <> [] ->
  forall s s',
    coherent s = true -> parseState s <> [] ->
    quietRun n s data = Some s' -> parseState s' = [] ->
    exists op,
      skip (n + Z.of_nat (List.length base)) (S (List.length base)) (lift base s) (data ++ more)
      = Some (lift base s', op, data, more) /\ coherent s' = true.
Proof.
  intros Hb. induction data as [|c r IH]; intros s s' Hc Hne Hq He.
  - simpl in Hq. injection Hq as <-. contradiction.
  - simpl in Hq. destruct (stepScanner n s c) as [s1 op] eqn:Es.
    destruct (atLeastSkipSpace op) eqn:Eo; [discriminate|].
    assert (Hi : complete s = false).
    { destruct s as [f [|p st]]; [contradiction|]. destruct f; reflexivity. }
    destruct (step_lift n base s s1 c op Hb Hc Hi Es Eo) as [El Hc1].
    cbn [app skip]. rewrite El.
    destruct (parseState s1) as [|p1 st1] eqn:E1.
    + assert (Hcomp : complete s1 = true).
      { clear - Es E1 Hne Eo. destruct s as [f [|p st]]; [contradiction|].
        destruct f; unfold_step; break_hyp Es; injection Es as <- <-;
          try discriminate; reflexivity. }
      destruct r as [|c2 r2].
      * simpl in Hq. injection Hq as <-.
        exists op. split; [|exact Hc1].
        unfold lift at 1. cbn [parseState]. rewrite E1. cbn [app].
        replace (List.length base <? S (List.length base))%nat with true
          by (symmetry; apply Nat.ltb_lt; lia).
        reflexivity.
      * simpl in Hq. destruct (stepScanner n s1 c2) as [s2 op2] eqn:Es2.
        rewrite (complete_not_quiet n s1 s2 c2 op2 Hcomp Es2) in Hq. discriminate.
    + destruct (IH s1 s' Hc1 ltac:(rewrite E1; discriminate) Hq He) as (op' & Hk & Hc').
      exists op'. split; [|exact Hc'].
      unfold lift at 1. cbn [parseState]. rewrite E1.
      replace (List.length ((p1 :: st1) ++ base) <? S (List.length base))%nat with false
        by (symmetry; apply Nat.ltb_ge; rewrite length_app; simpl; lia).
      unfold lift in Hk at 1. cbn [parseState] in Hk. rewrite E1 in Hk.
      unfold lift in Hk. unfold lift.
      rewrite E1. cbn [parseState step] in *. 
      replace (mkScanner (match step s1 with stateEndTop => stateEndValue | f => f end) ((p1 :: st1) ++ base)) with (lift base s1) in * by (unfold lift; rewrite E1; reflexivity).
      rewrite Hk. reflexivity.
Qed.

Lemma isHex_plain (c : byte) : isHex c = true -> (c =? ch "\") = false /\ (c =? dquote) = false.
Proof.
  unfold isHex, isDigit. intros H.
  split; apply Z.eqb_neq; intros ->; discriminate H.
Qed.

Lemma quietRun_complete (n : Z) (s s' : scanner) (data : bytes) :
  complete s = true -> quietRun n s data = Some s' -> data = [].
Proof.
  intros Hc Hq. destruct data as [|c r]; [reflexivity|].
  simpl in Hq. destruct (stepScanner n s c) as [s1 op] eqn:Es.
  rewrite (complete_not_quiet n s s1 c op Hc Es) in Hq. discriminate.
Qed.

Lemma rescanString_quiet (n : Z) (more : bytes) (p : bytes) :
  forall f s',
    inString f = true ->
    quietRun n (mkScanner f []) p = Some s' -> eof n s' <> scanError ->
    match f with
    | stateInStringEsc =>
        match p with
        | e :: p' => rescanString (p' ++ more) = (p', more)
        | [] => False
        end
    | _ => rescanString (p ++ more) = (p, more)
    end.
Proof.
  induction p as [|c r IH]; intros f s' Hf Hq He.
  - simpl in Hq. injection Hq as <-.
    destruct f; try discriminate; exfalso; apply He; reflexivity.
  - simpl in Hq. destruct (stepScanner n (mkScanner f []) c) as [s1 op] eqn:Es.
    destruct (atLeastSkipSpace op) eqn:Eo; [discriminate|].
    destruct f; try discriminate; unfold_step.
    + (* stateInString *)
      destruct (c =? dquote) eqn:Eq.
      * injection Es as <- <-.
        rewrite (quietRun_complete n (mkScanner stateEndValue []) s' r eq_refl Hq).
        apply Z.eqb_eq in Eq. subst c. reflexivity.
      * destruct (c =? ch "\") eqn:Eb.
        -- injection Es as <- <-.
           match type of Hq with quietRun _ (mkScanner ?g _) _ = _ => specialize (IH g s' eq_refl Hq He) end. cbn [app rescanString].
           rewrite Eb. destruct r as [|e r']; [contradiction|].
           cbn [app]. rewrite IH. reflexivity.
        -- destruct (c <? 32); injection Es as <- <-; [discriminate|].
           match type of Hq with quietRun _ (mkScanner ?g _) _ = _ => specialize (IH g s' eq_refl Hq He) end. cbn [app rescanString].
           rewrite Eb, Eq. cbn beta iota in IH. rewrite IH. reflexivity.
    + (* stateInStringEsc *)
      break_hyp Es; injection Es as <- <-; try discriminate;
        match type of Hq with quietRun _ (mkScanner ?g _) _ = _ => exact (IH g s' eq_refl Hq He) end.
    + destruct (isHex c) eqn:Eh; injection Es as <- <-; [|discriminate].
      destruct (isHex_plain c Eh) as [Eb Eq].
      match type of Hq with quietRun _ (mkScanner ?g _) _ = _ => specialize (IH g s' eq_refl Hq He) end. cbn [app rescanString].
      rewrite Eb, Eq. cbn beta iota in IH. rewrite IH. reflexivity.
    + destruct (isHex c) eqn:Eh; injection Es as <- <-; [|discriminate].
      destruct (isHex_plain c Eh) as [Eb Eq].
      match type of Hq with quietRun _ (mkScanner ?g _) _ = _ => specialize (IH g s' eq_refl Hq He) end. cbn [app rescanString].
      rewrite Eb, Eq. cbn beta iota in IH. rewrite IH. reflexivity.
    + destruct (isHex c) eqn:Eh; injection Es as <- <-; [|discriminate].
      destruct (isHex_plain c Eh) as [Eb Eq].
      match type of Hq with quietRun _ (mkScanner ?g _) _ = _ => specialize (IH g s' eq_refl Hq He) end. cbn [app rescanString].
      rewrite Eb, Eq. cbn beta iota in IH. rewrite IH. reflexivity.
    + destruct (isHex c) eqn:Eh; injection Es as <- <-; [|discriminate].
      destruct (isHex_plain c Eh) as [Eb Eq].
      match type of Hq with quietRun _ (mkScanner ?g _) _ = _ => specialize (IH g s' eq_refl Hq He) end. cbn [app rescanString].
      rewrite Eb, Eq. cbn beta iota in IH. rewrite IH. reflexivity.
Qed.

Lemma number_step (n : Z) (f : stepfn) (c : byte) (s1 : scanner) (op : opcode) :
  inNumber f = true ->
  stepScanner n (mkScanner f []) c = (s1, op) -> atLeastSkipSpace op = false ->
  isNumberByte c = true /\ inNumber (step s1) = true /\ parseState s1 = [].
Proof.
  intros Hf Es Eo. unfold isNumberByte.
  destruct f; try discriminate; unfold_step; break_hyp Es; injection Es as <- <-;
    try discriminate; repeat split; cbn [step];
    repeat match goal with
    | H : (_ || _) = true |- _ => apply orb_true_iff in H as [H|H]
    | H : (_ && _) = true |- _ => apply andb_true_iff in H as [? ?]
    | H : (_ =? _) = true |- _ => apply Z.eqb_eq in H; subst
    end; try reflexivity.
  all: unfold isDigit, ch in *; simpl in *;
    repeat match goal with
    | H : (_ <=? _) = true |- _ => apply Z.leb_le in H
    end;
    try (replace (48 <=? c) with true by (symmetry; apply Z.leb_le; lia));
    try (replace (c <=? 57) with true by (symmetry; apply Z.leb_le; lia));
    try reflexivity.
  all: repeat match goal with H : (_ <=? _) = true |- _ => rewrite H end; reflexivity.
Qed.

Lemma rescanNumber_quiet (n : Z) (d : byte) (more : bytes) (p : bytes) :
  isNumberByte d = false ->
  forall f s',
    inNumber f = true ->
    quietRun n (mkScanner f []) p = Some s' ->
    rescanNumber (p ++ d :: more) = (p, d :: more).
Proof.
  intros Hd. induction p as [|c r IH]; intros f s' Hf Hq.
  - simpl. rewrite Hd. reflexivity.
  - simpl in Hq. destruct (stepScanner n (mkScanner f []) c) as [s1 op] eqn:Es.
    destruct (atLeastSkipSpace op) eqn:Eo; [discriminate|].
    destruct (number_step n f c s1 op Hf Es Eo) as (Hc & Hf1 & Hst).
    destruct s1 as [f1 st1]. simpl in Hst, Hf1. subst st1.
    cbn [app rescanNumber]. rewrite Hc, (IH _ _ Hf1 Hq). reflexivity.
Qed.

Ltac unfold_step_in H :=
  unfold stepScanner, runBeginValue, runBeginString, run0, runESign, expect,
    runEndValue, runEndTop, pushParseState, popParseState, goto, fail in H;
  cbn [step parseState tl app] in H.

Lemma keyword_quiet (n : Z) (f : stepfn) (p : bytes) (s' : scanner) :
  quietRun n (mkScanner f []) p = Some s' -> eof n s' <> scanError ->
  match f with
  | stateT => p = bs "rue"
  | stateF => p = bs "alse"
  | stateN => p = bs "ull"
  | _ => True
  end.
Proof.
  intros Hq He.
  destruct f; try exact I.
  all: repeat (destruct p as [|? p];
               [simpl in Hq; injection Hq as <-; exfalso; apply He; reflexivity|];
               cbn [quietRun] in Hq; unfold_step; break_hyp Hq; try discriminate;
               repeat match goal with
               | H : (_ =? _) = true |- _ => apply Z.eqb_eq in H; subst
               end;
               cbn [atLeastSkipSpace] in Hq).
  all: rewrite (quietRun_complete n (mkScanner stateEndValue []) s' p eq_refl Hq); reflexivity.
Qed.

Lemma eof_ok_stack (n : Z) (s : scanner) :
  coherent s = true -> eof n s <> scanError -> parseState s = [].
Proof.
  intros Hc He. destruct s as [f [|p st]]; [reflexivity|].
  exfalso. destruct f; try discriminate; apply He; try reflexivity; destruct p; reflexivity.
Qed.

Lemma good_nonempty (n : Z) (v : bytes) : good n v -> v <> [].
Proof.
  intros (s' & Hq & He) ->. simpl in Hq. injection Hq as <-. apply He. reflexivity.
Qed.

Lemma value_good (n : Z) (f : option jctx.field) (c : jctx.wireContext)
  (saved : option error) (b : byte) (v' : bytes) (d : byte) (more : bytes) :
  n + 1 = maxNestingDepth ->
  good n (b :: v') ->
  d = ch "," \/ d = ch "}" ->
  jctx.value f c saved
    (fst (stepScanner maxNestingDepth (mkScanner stateBeginValue objBase) b))
    (snd (stepScanner maxNestingDepth (mkScanner stateBeginValue objBase) b))
    b (v' ++ d :: more)
  = jctx.continue (storeValue f (b :: v') c) saved
      (fst (runEndValue (mkScanner stateEndValue objBase) d))
      (snd (runEndValue (mkScanner stateEndValue objBase) d)) more.
Proof.
  intros Hn (s' & Hq & He) Hd.
  cbn [quietRun] in Hq.
  destruct (stepScanner n reset b) as [s1 op] eqn:Es.
  destruct (atLeastSkipSpace op) eqn:Eo; [discriminate|].
  assert (Hb : objBase <> []) by discriminate.
  destruct (step_lift n objBase reset s1 b op Hb eq_refl eq_refl Es Eo) as [El Hc1].
  change (n + Z.of_nat (List.length objBase)) with (n + 1) in El. rewrite Hn in El.
  change (lift objBase reset) with (mkScanner stateBeginValue objBase) in El.
  rewrite El. cbn [fst snd].
  assert (Hnd : isNumberByte d = false) by (destruct Hd; subst d; reflexivity).
  unfold reset in Es. unfold_step_in Es.
  break_hyp Es; injection Es as <- <-; try discriminate;
    repeat match goal with
    | H : (_ =? _) = true |- _ => apply Z.eqb_eq in H; subst
    end.
  - (* object *)
    destruct (skip_lift n objBase (d :: more) v' Hb _ s' Hc1 ltac:(discriminate) Hq)
      as (op' & Hk & Hc').
    { apply (eof_ok_stack n); auto.
      destruct (quietRun_lift n objBase v' Hb _ s' Hc1 (or_introl eq_refl) Hq); auto. }
    change (n + Z.of_nat (List.length objBase)) with (n + 1) in Hk. rewrite Hn in Hk.
    pose proof (finished_delimiter n maxNestingDepth s' objBase d Hc' He Hd Hb) as Hf.
    unfold jctx.value, jctx.readValue, jctx.store.
    change (List.length (parseState (lift objBase _))) with (S (List.length objBase)).
    rewrite Hk. cbn [scanNext]. rewrite Hf.
    try subst R; destruct (runEndValue _ d) as [s2 op2]; reflexivity.
  - (* array *)
    destruct (skip_lift n objBase (d :: more) v' Hb _ s' Hc1 ltac:(discriminate) Hq)
      as (op' & Hk & Hc').
    { apply (eof_ok_stack n); auto.
      destruct (quietRun_lift n objBase v' Hb _ s' Hc1 (or_introl eq_refl) Hq); auto. }
    change (n + Z.of_nat (List.length objBase)) with (n + 1) in Hk. rewrite Hn in Hk.
    pose proof (finished_delimiter n maxNestingDepth s' objBase d Hc' He Hd Hb) as Hf.
    unfold jctx.value, jctx.readValue, jctx.store.
    change (List.length (parseState (lift objBase _))) with (S (List.length objBase)).
    rewrite Hk. cbn [scanNext]. rewrite Hf.
    try subst R; destruct (runEndValue _ d) as [s2 op2]; reflexivity.
  - (* string *)
    pose proof (rescanString_quiet n (d :: more) v' stateInString s' eq_refl Hq He) as Hr.
    cbn beta iota in Hr.
    unfold jctx.value, jctx.readValue, jctx.store, rescanLiteral. cbn [lift step parseState app].
    change (dquote =? dquote) with true. cbn beta iota. rewrite Hr.
    unfold afterLiteral.
    set (R := runEndValue (mkScanner stateEndValue objBase) d);
    match goal with
    | |- context [runEndValue ?s d] =>
        rewrite (runEndValue_stack s (mkScanner stateEndValue objBase) d eq_refl)
    end; fold R.
    try subst R; destruct (runEndValue _ d) as [s2 op2]; reflexivity.
  - (* minus *)
    pose proof (rescanNumber_quiet n d more v' Hnd stateNeg s' eq_refl Hq) as Hr.
    unfold jctx.value, jctx.readValue, jctx.store, rescanLiteral. cbn [lift step parseState app].
    change (ch "-" =? dquote) with false. cbn beta iota.
    change (isDigit (ch "-") || (ch "-" =? ch "-")) with true. cbn beta iota.
    rewrite Hr. unfold afterLiteral.
    set (R := runEndValue (mkScanner stateEndValue objBase) d);
    match goal with
    | |- context [runEndValue ?s d] =>
        rewrite (runEndValue_stack s (mkScanner stateEndValue objBase) d eq_refl)
    end; fold R.
    try subst R; destruct (runEndValue _ d) as [s2 op2]; reflexivity.
  - (* zero *)
    pose proof (rescanNumber_quiet n d more v' Hnd state0 s' eq_refl Hq) as Hr.
    unfold jctx.value, jctx.readValue, jctx.store, rescanLiteral. cbn [lift step parseState app].
    change (ch "0" =? dquote) with false. cbn beta iota.
    change (isDigit (ch "0") || (ch "0" =? ch "-")) with true. cbn beta iota.
    rewrite Hr. unfold afterLiteral.
    set (R := runEndValue (mkScanner stateEndValue objBase) d);
    match goal with
    | |- context [runEndValue ?s d] =>
        rewrite (runEndValue_stack s (mkScanner stateEndValue objBase) d eq_refl)
    end; fold R.
    try subst R; destruct (runEndValue _ d) as [s2 op2]; reflexivity.
  - (* true *)
    pose proof (keyword_quiet n stateT v' s' Hq He) as Hr. cbn beta iota in Hr. subst v'.
    unfold jctx.value, jctx.readValue, jctx.store.
    change (rescanLiteral (ch "t") (bs "rue" ++ d :: more)) with (bs "rue", d :: more).
    cbn beta iota. unfold afterLiteral.
    set (R := runEndValue (mkScanner stateEndValue objBase) d);
    match goal with
    | |- context [runEndValue ?s d] =>
        rewrite (runEndValue_stack s (mkScanner stateEndValue objBase) d eq_refl)
    end; fold R.
    try subst R; destruct (runEndValue _ d) as [s2 op2]; reflexivity.
  - pose proof (keyword_quiet n stateF v' s' Hq He) as Hr. cbn beta iota in Hr. subst v'.
    unfold jctx.value, jctx.readValue, jctx.store.
    change (rescanLiteral (ch "f") (bs "alse" ++ d :: more)) with (bs "alse", d :: more).
    cbn beta iota. unfold afterLiteral.
    set (R := runEndValue (mkScanner stateEndValue objBase) d);
    match goal with
    | |- context [runEndValue ?s d] =>
        rewrite (runEndValue_stack s (mkScanner stateEndValue objBase) d eq_refl)
    end; fold R.
    try subst R; destruct (runEndValue _ d) as [s2 op2]; reflexivity.
  - pose proof (keyword_quiet n stateN v' s' Hq He) as Hr. cbn beta iota in Hr. subst v'.
    unfold jctx.value, jctx.readValue, jctx.store.
    change (rescanLiteral (ch "n") (bs "ull" ++ d :: more)) with (bs "ull", d :: more).
    cbn beta iota. unfold afterLiteral.
    set (R := runEndValue (mkScanner stateEndValue objBase) d);
    match goal with
    | |- context [runEndValue ?s d] =>
        rewrite (runEndValue_stack s (mkScanner stateEndValue objBase) d eq_refl)
    end; fold R.
    try subst R; destruct (runEndValue _ d) as [s2 op2]; reflexivity.
  - (* 1-9 *)
    pose proof (rescanNumber_quiet n d more v' Hnd state1 s' eq_refl Hq) as Hr.
    assert (Hdig : isDigit b = true).
    { match goal with
      | H : (_ && _) = true |- _ =>
          apply andb_true_iff in H as [H1 H2]; apply Z.leb_le in H1, H2;
          unfold ch in H1, H2; simpl in H1, H2; unfold isDigit;
          apply andb_true_iff; split; apply Z.leb_le; lia
      end. }
    unfold jctx.value, jctx.readValue, jctx.store, rescanLiteral, storeValue.
    repeat match goal with H : (b =? _) = false |- _ => rewrite H end.
    rewrite Hdig. cbn [orb]. cbn beta iota.
    rewrite Hr. unfold afterLiteral.
    set (R := runEndValue (mkScanner stateEndValue objBase) d);
    match goal with
    | |- context [runEndValue ?s d] =>
        rewrite (runEndValue_stack s (mkScanner stateEndValue objBase) d eq_refl)
    end; fold R.
    try subst R; destruct (runEndValue _ d) as [s2 op2]; reflexivity.
Qed.

Lemma scanWhile_quiet (n : Z) (s s' : scanner) (c : byte) (op : opcode) (r : bytes) :
  stepScanner n s c = (s', op) -> atLeastSkipSpace op = false ->
  scanWhile n s (c :: r) = (s', op, Some c, r).
Proof.
  intros Es Eo. cbn [scanWhile]. rewrite Es. destruct op; try discriminate; reflexivity.
Qed.

Lemma body_cons (ms : list (jctx.field * bytes)) :
  exists d more, body ms = d :: more /\ (d = ch "," \/ d = ch "}") /\
    match ms with
    | [] => d = ch "}" /\ more = []
    | (f, v) :: ms' => d = ch "," /\ more = memberText f v ++ body ms'
    end.
Proof.
  destruct ms as [|[f v] ms']; cbn [body]; eauto 10.
Qed.

Lemma key_scan (f : jctx.field) (s0 : scanner) (rest : bytes) :
  keyStart s0 ->
  scanWhile maxNestingDepth s0 (encodeString (jctx.fieldName f) ++ rest)
  = (mkScanner stateInString [parseObjectKey], scanBeginLiteral, Some dquote,
     jctx.fieldName f ++ dquote :: rest)
  /\ rescanLiteral dquote (jctx.fieldName f ++ dquote :: rest)
     = (jctx.fieldName f ++ [dquote], rest)
  /\ unquoteBytes (dquote :: jctx.fieldName f ++ [dquote]) = Some (jctx.fieldName f)
  /\ jctx.lookupField (jctx.fieldName f) = Some f.
Proof.
  intros [-> | ->]; destruct f; repeat split; reflexivity.
Qed.

Lemma object_member_step (n : Z) (fuel : nat) (c : jctx.wireContext) (saved : option error)
  (s0 : scanner) (f : jctx.field) (v : bytes) (d : byte) (more : bytes) :
  n + 1 = maxNestingDepth ->
  keyStart s0 -> good n v -> d = ch "," \/ d = ch "}" ->
  jctx.object (S fuel) c saved s0 (memberText f v ++ d :: more)
  = match storeValue (Some f) v c with
    | (c', Some e, _) => jctx.Abort c' e
    | (c', None, sv) =>
        let saved' := match sv with Some e => jctx.saveError saved e | None => saved end in
        if d =? ch "," then
          jctx.object fuel c' saved' (mkScanner stateBeginString [parseObjectKey]) more
        else jctx.Cont c' saved' (mkScanner stateEndTop []) scanEndObject more
    end.
Proof.
  intros Hn Hs0 Hv Hd.
  pose proof (good_nonempty n v Hv) as Hne.
  destruct v as [|b v']; [contradiction|].
  unfold memberText. rewrite <- app_assoc. cbn [app].
  destruct (key_scan f s0 (ch ":" :: b :: v' ++ d :: more) Hs0) as (E1 & E2 & E3 & E4).
  cbn [jctx.object]. rewrite E1, E2. cbn [afterLiteral].
  change (runEndValue (mkScanner stateInString [parseObjectKey]) (ch ":"))
    with (mkScanner stateBeginValue objBase, scanObjectKey).
  cbn beta iota. rewrite E3, E4. cbn [jctx.skipSpace].
  pose proof Hv as (s' & Hq & He).
  cbn [quietRun] in Hq.
  destruct (stepScanner n reset b) as [s1 op] eqn:Es.
  destruct (atLeastSkipSpace op) eqn:Eo; [discriminate|].
  assert (Hb : objBase <> []) by discriminate.
  destruct (step_lift n objBase reset s1 b op Hb eq_refl eq_refl Es Eo) as [El _].
  change (n + Z.of_nat (List.length objBase)) with (n + 1) in El. rewrite Hn in El.
  change (lift objBase reset) with (mkScanner stateBeginValue objBase) in El.
  rewrite (scanWhile_quiet _ _ _ _ _ _ El Eo).
  pose proof (value_good n (Some f) c saved b v' d more Hn Hv Hd) as Hval.
  rewrite El in Hval. cbn [fst snd] in Hval. rewrite Hval.
  destruct (storeValue (Some f) (b :: v') c) as [[c' [e|]] sv]; [reflexivity|].
  destruct Hd; subst d.
  - change (runEndValue (mkScanner stateEndValue objBase) (ch ","))
      with (mkScanner stateBeginString [parseObjectKey], scanObjectValue).
    destruct sv; reflexivity.
  - change (runEndValue (mkScanner stateEndValue objBase) (ch "}"))
      with (mkScanner stateEndTop [], scanEndObject).
    destruct sv; reflexivity.
Qed.

Lemma object_members (n : Z) :
  n + 1 = maxNestingDepth ->
  forall ms f v fuel c saved s0,
    (List.length ms < fuel)%nat ->
    keyStart s0 -> good n v -> Forall (fun m => good n (snd m)) ms ->
    dresult (jctx.object fuel c saved s0 (memberText f v ++ body ms))
    = runStores ((f, v) :: ms) c saved.
Proof.
  intros Hn. induction ms as [|[f2 v2] ms IH]; intros f v fuel c saved s0 Hfuel Hs0 Hv Hms.
  all: destruct fuel as [|fuel]; [simpl in Hfuel; lia|].
  - cbn [body]. rewrite (object_member_step n) by auto.
    cbn [runStores]. destruct (storeValue (Some f) v c) as [[c' [e|]] [sv|]]; reflexivity.
  - cbn [body]. rewrite (object_member_step n) by auto.
    cbn [runStores]. inversion Hms as [|? ? Hv2 Hms']; subst.
    destruct (storeValue (Some f) v c) as [[c' [e|]] [sv|]]; try reflexivity.
    + change (ch "," =? ch ",") with true. cbn beta iota.
      apply IH; auto; [simpl in Hfuel; lia | right; reflexivity].
    + change (ch "," =? ch ",") with true. cbn beta iota.
      apply IH; auto; [simpl in Hfuel; lia | right; reflexivity].
Qed.

Lemma key_quiet (f : jctx.field) (s0 : scanner) :
  keyStart s0 ->
  quietRun maxNestingDepth s0 (encodeString (jctx.fieldName f) ++ [ch ":"])
  = Some (mkScanner stateBeginValue objBase).
Proof.
  intros [-> | ->]; destruct f; reflexivity.
Qed.

Lemma quietRun_members (n : Z) :
  n + 1 = maxNestingDepth ->
  forall ms f v s0,
    keyStart s0 -> good n v -> Forall (fun m => good n (snd m)) ms ->
    quietRun maxNestingDepth s0 (memberText f v ++ body ms) = Some (mkScanner stateEndTop []).
Proof.
  intros Hn.
  assert (Hb : objBase <> []) by discriminate.
  assert (Hstep : forall f v s0 d,
             keyStart s0 -> good n v -> d = ch "," \/ d = ch "}" ->
             quietRun maxNestingDepth s0 (memberText f v ++ [d])
             = Some (if d =? ch "," then mkScanner stateBeginString [parseObjectKey]
                     else mkScanner stateEndTop [])).
  { intros f v s0 d Hs0 (s' & Hq & He) Hd.
    unfold memberText.
    change (ch ":" :: v) with ([ch ":"] ++ v).
    rewrite app_assoc, <- (app_assoc _ v), quietRun_app, (key_quiet f s0 Hs0).
    rewrite quietRun_app.
    destruct (quietRun_lift n objBase v Hb reset s' eq_refl (or_introl eq_refl) Hq) as [Hl Hc].
    change (n + Z.of_nat (List.length objBase)) with (n + 1) in Hl. rewrite Hn in Hl.
    change (lift objBase reset) with (mkScanner stateBeginValue objBase) in Hl.
    rewrite Hl. cbn [quietRun].
    rewrite (finished_delimiter n maxNestingDepth s' objBase d Hc He Hd Hb).
    destruct Hd; subst d; reflexivity. }
  induction ms as [|[f2 v2] ms IH]; intros f v s0 Hs0 Hv Hms.
  - cbn [body]. rewrite Hstep by auto. reflexivity.
  - cbn [body]. inversion Hms as [|? ? Hv2 Hms']; subst.
    change (ch "," :: memberText f2 v2 ++ body ms)
      with ([ch ","] ++ memberText f2 v2 ++ body ms).
    rewrite app_assoc, quietRun_app, Hstep by auto.
    change (ch "," =? ch ",") with true. cbn beta iota.
    apply IH; auto. right; reflexivity.
Qed.

Lemma body_length (ms : list (jctx.field * bytes)) :
  (List.length ms < List.length (body ms))%nat.
Proof.
  induction ms as [|[f v] ms IH]; cbn [body List.length]; [lia|].
  rewrite length_app. lia.
Qed.

(** Decoding an envelope text whose member values are compact performs the
    members' stores in order. *)
Lemma Unmarshal_envelope (n : Z) (f : jctx.field) (v : bytes)
  (ms : list (jctx.field * bytes)) (c0 : jctx.wireContext) :
  n + 1 = maxNestingDepth ->
  good n v -> Forall (fun m => good n (snd m)) ms ->
  jctx.Unmarshal_wireContext (envelope f v ms) c0 = runStores ((f, v) :: ms) c0 None.
Proof.
  intros Hn Hv Hms.
  assert (Hq : quietRun maxNestingDepth reset (envelope f v ms)
               = Some (mkScanner stateEndTop [])).
  { unfold envelope. cbn [quietRun].
    change (stepScanner maxNestingDepth reset (ch "{"))
      with (mkScanner stateBeginStringOrEmpty [parseObjectKey], scanBeginObject).
    cbn [atLeastSkipSpace].
    apply (quietRun_members n); auto. left; reflexivity. }
  unfold jctx.Unmarshal_wireContext, checkValid.
  rewrite (checkValid_quiet _ _ _ _ Hq) by discriminate.
  unfold envelope at 1. cbn [scanWhile].
  change (stepScanner maxNestingDepth reset (ch "{"))
    with (mkScanner stateBeginStringOrEmpty [parseObjectKey], scanBeginObject).
  cbn beta iota.
  assert (Hfuel : (List.length ms < S (List.length (envelope f v ms)))%nat).
  { unfold envelope. cbn [List.length]. rewrite length_app.
    pose proof (body_length ms). lia. }
  pose proof (object_members n Hn ms f v (S (List.length (envelope f v ms))) c0 None
                (mkScanner stateBeginStringOrEmpty [parseObjectKey])
                Hfuel (or_introl eq_refl) Hv Hms) as Ho.
  unfold dresult in Ho. rewrite <- Ho.
  unfold envelope at 1. cbn [List.length].
  destruct (jctx.object _ _ _ _ _); reflexivity.
Qed.

Lemma plain_step (n : Z) (st : list pstate) (c : byte) :
  plainByte c = true ->
  stepScanner n (mkScanner stateInString st) c = (mkScanner stateInString st, scanContinue)
  /\ ((c =? ch "<") || (c =? ch ">") || (c =? ch "&")) = false
  /\ (c =? 226) = false.
Proof.
  unfold plainByte, htmlSafe. intros H.
  apply andb_true_iff in H as [H H128]. apply andb_true_iff in H as [H32 H].
  apply negb_true_iff in H.
  apply orb_false_iff in H as [H Hamp]. apply orb_false_iff in H as [H Hgt].
  apply orb_false_iff in H as [H Hlt]. apply orb_false_iff in H as [Hdq Hbs].
  apply Z.leb_le in H32. apply Z.ltb_lt in H128.
  unfold stepScanner. cbn [step].
  rewrite Hdq, Hbs.
  replace (c <? 32) with false by (symmetry; apply Z.ltb_ge; lia).
  repeat split.
  - rewrite Hlt, Hgt, Hamp. reflexivity.
  - apply Z.eqb_neq. lia.
Qed.

Lemma plain_compact_from (n : Z) (body : bytes) :
  Forall (fun c => plainByte c = true) body ->
  compact_from n true (mkScanner stateInString []) 0 (body ++ [dquote])
  = Some (body ++ [dquote]).
Proof.
  induction 1 as [|c r Hc Hr IH].
  - reflexivity.
  - destruct (plain_step n [] c Hc) as (Es & Eh & E226).
    cbn [app compact_from]. rewrite Es, Eh, E226. cbn [andb negb atLeastSkipSpace Nat.eqb].
    cbn [Nat.pred]. rewrite IH. reflexivity.
Qed.

(** A string literal of plain bytes is in compact form. *)
Lemma plain_literal_compact (n : Z) (body : bytes) :
  Forall (fun c => plainByte c = true) body ->
  compact n true (dquote :: body ++ [dquote]) = Some (dquote :: body ++ [dquote]).
Proof.
  intros H. unfold compact. cbn [compact_from].
  change (stepScanner n reset dquote) with (mkScanner stateInString [], scanBeginLiteral).
  change (dquote =? 226) with false.
  change ((dquote =? ch "<") || (dquote =? ch ">") || (dquote =? ch "&")) with false.
  cbn [andb negb atLeastSkipSpace Nat.eqb Nat.pred].
  rewrite (plain_compact_from n body H). reflexivity.
Qed.

Lemma okBytes_good (v : bytes) : okBytes v -> good (maxNestingDepth - 1) v.
Proof.
  intros H. exact (compact_fixed_quiet _ v reset H).
Qed.

Lemma okBytes_marshal (v : bytes) :
  okBytes v -> compact maxNestingDepth true v = Some v.
Proof.
  intros H. apply (compact_mono (maxNestingDepth - 1)); [lia|exact H].
Qed.

Lemma Marshal_shape (vd : option time.Time) (p m : RawMessage) (tb : bytes) :
  match vd with
  | Some t => time.MarshalJSON t = inr tb /\ compact maxNestingDepth true tb = Some tb /\ tb <> []
  | None => tb = []
  end ->
  raw p = [] \/ compact maxNestingDepth true (raw p) = Some (raw p) ->
  raw m = [] \/ compact maxNestingDepth true (raw m) = Some (raw m) ->
  jctx.Marshal_wireContext (jctx.mkWire (Some jctx.wireVersion) vd p m)
  = inr (envelope jctx.fV (encodeString jctx.wireVersion)
           (present jctx.fDeadline tb ++ present jctx.fPayload (raw p)
              ++ present jctx.fMetadata (raw m))).
Proof.
  intros Hd Hp Hm.
  unfold jctx.Marshal_wireContext, jctx.omittable, marshalerEncoder, RawMessage_MarshalJSON, len.
  cbn [jctx.V jctx.Deadline jctx.Payload jctx.Metadata].
  destruct vd as [t|]; [destruct Hd as (Ht & Hc & Hne); rewrite Ht, Hc | subst tb].
  all: destruct p as [[|pb p']|]; cbn [raw List.length Nat.eqb] in *;
       try (destruct Hp as [Hp|Hp]; [discriminate|]; rewrite Hp).
  all: destruct m as [[|mb m']|]; cbn [raw List.length Nat.eqb] in *;
       try (destruct Hm as [Hm|Hm]; [discriminate|]; rewrite Hm).
  all: try (destruct tb; [contradiction|]).
  all: reflexivity.
Qed.

Lemma storeValue_payload (v : bytes) (c : jctx.wireContext) :
  storeValue (Some jctx.fPayload) v c
  = (jctx.mkWire (jctx.V c) (jctx.Deadline c) (Some v) (jctx.Metadata c), None, None).
Proof.
  unfold storeValue. destruct v as [|b v']; [reflexivity|].
  destruct (b =? ch "{"); [reflexivity|]. destruct (b =? ch "["); reflexivity.
Qed.

Lemma storeValue_meta (v : bytes) (c : jctx.wireContext) :
  storeValue (Some jctx.fMetadata) v c
  = (jctx.mkWire (jctx.V c) (jctx.Deadline c) (jctx.Payload c) (Some v), None, None).
Proof.
  unfold storeValue. destruct v as [|b v']; [reflexivity|].
  destruct (b =? ch "{"); [reflexivity|]. destruct (b =? ch "["); reflexivity.
Qed.

Lemma storeValue_deadline (ds : bytes) (t : time.Time) (c : jctx.wireContext) :
  (forall t0, time.UnmarshalJSON (dquote :: ds ++ [dquote]) t0 = inr t) ->
  storeValue (Some jctx.fDeadline) (dquote :: ds ++ [dquote]) c
  = (jctx.mkWire (jctx.V c) (Some t) (jctx.Payload c) (jctx.Metadata c), None, None).
Proof.
  intros H. unfold storeValue.
  change (dquote =? ch "{") with false. change (dquote =? ch "[") with false.
  cbn beta iota. unfold jctx.literalStore. cbn [nth].
  change (dquote =? ch "n") with false. cbn beta iota.
  unfold jctx.storeTime. rewrite H. reflexivity.
Qed.

Lemma roundtrip_general (ctx base : context.Context) (method method' : string)
  (P : RawMessage) :
  match context.Deadline ctx with Some d => okTime d | None => True end ->
  raw P = [] \/ okBytes (raw P) ->
  attachedBytes ctx = [] \/ okBytes (attachedBytes ctx) ->
  exists tb,
    match context.Deadline ctx with
    | Some d => time.MarshalJSON (time.UTC d) = inr tb /\ tb <> []
    | None => tb = []
    end /\
    let out := envelope jctx.fV (encodeString jctx.wireVersion)
                 (present jctx.fDeadline tb ++ present jctx.fPayload (raw P)
                    ++ present jctx.fMetadata (attachedBytes ctx)) in
    jctx.Encode ctx method P = (Some out, None) /\
    jctx.Decode base method' (Some out) = (Some (derived base ctx), decodedPayload P, None).
Proof.
  intros HD HP HM.
  set (n := maxNestingDepth - 1).
  assert (Hn : n + 1 = maxNestingDepth) by (subst n; lia).
  (* the deadline member *)
  assert (Htb : exists tb,
             match option_map time.UTC (context.Deadline ctx) with
             | Some t => time.MarshalJSON t = inr tb /\
                         compact maxNestingDepth true tb = Some tb /\ tb <> []
             | None => tb = []
             end /\
             (tb = [] \/ good n tb) /\
             forall c, tb <> [] ->
               storeValue (Some jctx.fDeadline) tb c
               = (jctx.mkWire (jctx.V c) (option_map time.UTC (context.Deadline ctx))
                    (jctx.Payload c) (jctx.Metadata c), None, None)).
  { destruct (context.Deadline ctx) as [d|]; cbn [option_map].
    - destruct HD as [Hns Hy].
      destruct (timeFacts.time_roundtrip (time.UTC d) time.zero eq_refl Hns Hy) as (ds & Hm & Hpl & _).
      exists (dquote :: ds ++ [dquote]). split; [|split].
      + split; [exact Hm|]. split; [apply plain_literal_compact; exact Hpl|discriminate].
      + right. apply (compact_fixed_quiet n _ reset).
        apply plain_literal_compact. exact Hpl.
      + intros c _. apply storeValue_deadline. intros t0.
        destruct (timeFacts.time_roundtrip (time.UTC d) t0 eq_refl Hns Hy) as (ds' & Hm' & _ & Hu).
        rewrite Hm in Hm'. injection Hm' as Hm'. apply app_inv_tail in Hm'. subst ds'.
        exact Hu.
    - exists []. split; [reflexivity|]. split; [now left|]. intros c Hc. contradiction. }
  destruct Htb as (tb & Htb & Hgt & Hst).
  set (M := match context.Value_metadataKey ctx with Some m => m | None => None end).
  assert (HrM : raw M = attachedBytes ctx).
  { unfold attachedBytes, M. destruct (context.Value_metadataKey ctx); reflexivity. }
  set (ms := present jctx.fDeadline tb ++ present jctx.fPayload (raw P)
             ++ present jctx.fMetadata (raw M)).
  exists tb. split.
  { destruct (context.Deadline ctx); cbn [option_map] in Htb; tauto. }
  cbv zeta. rewrite <- HrM. fold ms.
  assert (HE : jctx.Encode ctx method P
               = (Some (envelope jctx.fV (encodeString jctx.wireVersion) ms), None)).
  { unfold jctx.Encode. cbn [jctx.V jctx.Deadline jctx.Payload jctx.Metadata].
    assert (Hw : (match context.Value_metadataKey ctx with
                  | Some v =>
                      jctx.mkWire
                        (jctx.V match context.Deadline ctx with
                                | Some dl => jctx.mkWire (Some jctx.wireVersion) (Some (time.UTC dl)) P None
                                | None => jctx.mkWire (Some jctx.wireVersion) None P None
                                end)
                        (jctx.Deadline match context.Deadline ctx with
                                | Some dl => jctx.mkWire (Some jctx.wireVersion) (Some (time.UTC dl)) P None
                                | None => jctx.mkWire (Some jctx.wireVersion) None P None
                                end)
                        (jctx.Payload match context.Deadline ctx with
                                | Some dl => jctx.mkWire (Some jctx.wireVersion) (Some (time.UTC dl)) P None
                                | None => jctx.mkWire (Some jctx.wireVersion) None P None
                                end) v
                  | None => match context.Deadline ctx with
                                | Some dl => jctx.mkWire (Some jctx.wireVersion) (Some (time.UTC dl)) P None
                                | None => jctx.mkWire (Some jctx.wireVersion) None P None
                                end
                  end)
                 = jctx.mkWire (Some jctx.wireVersion)
                     (option_map time.UTC (context.Deadline ctx)) P M).
    { unfold M. destruct (context.Value_metadataKey ctx), (context.Deadline ctx); reflexivity. }
    rewrite Hw. unfold Marshal, jctx.wireContext_Codec.
    rewrite (Marshal_shape _ P M tb Htb).
    - reflexivity.
    - destruct HP as [HP|HP]; [now left|right; apply okBytes_marshal; exact HP].
    - rewrite HrM. destruct HM as [HM|HM]; [now left|right; apply okBytes_marshal; exact HM]. }
  split; [exact HE|].
  unfold jctx.Decode.
  change (len (Some (envelope jctx.fV (encodeString jctx.wireVersion) ms)) =? 0)%nat
    with false.
  change (nth 0 (raw (Some (envelope jctx.fV (encodeString jctx.wireVersion) ms))) 0)
    with (ch "{").
  change (ch "{" =? ch "{") with true. cbn [negb orb raw].
  unfold Unmarshal, jctx.wireContext_Codec.
  rewrite (Unmarshal_envelope n); auto.
  2:{ apply (compact_fixed_quiet n _ reset). reflexivity. }
  2:{ subst ms. repeat (apply Forall_app; split).
      - destruct Hgt as [->|Hg]; [constructor|].
        unfold present. destruct tb; [constructor|]. constructor; [exact Hg|constructor].
      - unfold present. destruct (raw P) eqn:EP; [constructor|].
        constructor; [|constructor]. cbn [snd].
        destruct HP as [HP|HP]; [discriminate|]. apply okBytes_good. exact HP.
      - unfold present. rewrite HrM. destruct (attachedBytes ctx) eqn:EM; [constructor|].
        constructor; [|constructor]. cbn [snd].
        destruct HM as [HM|HM]; [discriminate|]. apply okBytes_good. exact HM. }
  cbn [runStores].
  change (storeValue (Some jctx.fV) (encodeString jctx.wireVersion) jctx.zeroWire)
    with (jctx.mkWire (Some jctx.wireVersion) None None None, @None error, @None error).
  cbn beta iota.
  assert (Hrun : runStores ms (jctx.mkWire (Some jctx.wireVersion) None None None) None
                 = (jctx.mkWire (Some jctx.wireVersion)
                      (option_map time.UTC (context.Deadline ctx))
                      (decodedPayload P) (decodedPayload M), None)).
  { subst ms. unfold decodedPayload, present.
    destruct tb as [|t0 tb'] eqn:Etb.
    - assert (Hdl : context.Deadline ctx = None).
      { destruct (context.Deadline ctx); [|reflexivity].
        cbn [option_map] in Htb. destruct Htb as (_ & _ & Hne). contradiction. }
      rewrite Hdl. cbn [option_map app].
      destruct (raw P) as [|pb p']; destruct (raw M) as [|mb m']; cbn [app runStores];
        rewrite ?storeValue_payload, ?storeValue_meta; reflexivity.
    - specialize (fun c => Hst c ltac:(discriminate)).
      destruct (raw P) as [|pb p']; destruct (raw M) as [|mb m']; cbn [app runStores];
        rewrite Hst; cbn beta iota; cbn [runStores];
        rewrite ?storeValue_payload; cbn beta iota; cbn [runStores];
        rewrite ?storeValue_meta; reflexivity. }
  rewrite Hrun.
  cbn [jctx.V jctx.Deadline jctx.Payload jctx.Metadata].
  change (bytes_eqb jctx.wireVersion jctx.wireVersion) with true. cbn [negb].
  unfold derived, decodedPayload. rewrite HrM.
  destruct (attachedBytes ctx) as [|mb m']; destruct (context.Deadline ctx) as [d|];
    cbn [option_map]; try reflexivity.
  - change (time.IsZero (time.UTC d)) with (time.IsZero d).
    destruct (time.IsZero d); reflexivity.
  - change (time.IsZero (time.UTC d)) with (time.IsZero d).
    destruct (time.IsZero d); reflexivity.
Qed.

End wireFacts.

Import json wire wireFacts.

(** ** The metadata store *)

Lemma neverAttached_Value (ctx : context.Context) :
  neverAttached ctx = true -> context.Value_metadataKey ctx = None.
Proof.
  induction ctx; simpl; intros Hn; auto; discriminate.
Qed.

(** C5. Attaching the nil metadata value and then extracting always fails
    with [ErrNoMetadata], whatever the context carried before. *)
Theorem C5_masking (T U : Type) (cT : json.Codec T) (cU : json.Codec U)
  (ctx : context.Context) (target : U) :
  snd (jctx.WithMetadata ctx (@None T)) = None /\
  jctx.UnmarshalMetadata (fst (jctx.WithMetadata ctx (@None T))) target
    = (target, Some ErrNoMetadata).
Proof.
  split; reflexivity.
Qed.

(** C7. When serializing the value fails, [WithMetadata] returns the context
    it was given together with the serialization error, and the metadata
    of that context is what it was. *)
Theorem C7_attach_failure (T : Type) (cT : json.Codec T)
  (ctx : context.Context) (v : T) (err : error) :
  json.Marshal v = inl err ->
  jctx.WithMetadata ctx (Some v) = (ctx, Some err) /\
  context.Value_metadataKey (fst (jctx.WithMetadata ctx (Some v)))
  = context.Value_metadataKey ctx.
Proof.
  intros Hm. unfold jctx.WithMetadata. rewrite Hm. split; reflexivity.
Qed.

Lemma C7_attach_failure_witness :
  jctx.WithMetadata ctxOld (Some (Some (js "{bad") : json.RawMessage))
  = (ctxOld, Some (MarshalerError SyntaxError)) /\
  context.Value_metadataKey
    (fst (jctx.WithMetadata ctxOld (Some (Some (js "{bad") : json.RawMessage))))
  = context.Value_metadataKey ctxOld.
Proof.
  apply (C7_attach_failure json.RawMessage json.RawMessage_Codec ctxOld
           (Some (js "{bad")) (MarshalerError SyntaxError)).
  vm_compute. reflexivity.
Defined.

(** C9. On a context to which no metadata was ever attached,
    [UnmarshalMetadata] fails with [ErrNoMetadata]. *)
Theorem C9_absent_metadata (T : Type) (cT : json.Codec T)
  (ctx : context.Context) (target : T) :
  neverAttached ctx = true ->
  jctx.UnmarshalMetadata ctx target = (target, Some ErrNoMetadata).
Proof.
  intros Hn. unfold jctx.UnmarshalMetadata.
  rewrite (neverAttached_Value ctx Hn). reflexivity.
Qed.

Lemma C9_absent_metadata_witness :
  jctx.UnmarshalMetadata
    (context.valueCtx (context.timerCtx context.Background time.zero) 1 2)
    (None : json.RawMessage)
  = (None, Some ErrNoMetadata).
Proof.
  apply (C9_absent_metadata json.RawMessage json.RawMessage_Codec
           (context.valueCtx (context.timerCtx context.Background time.zero) 1 2) None).
  reflexivity.
Defined.

(** ** Decode: fallback and version check *)

(** C2. A message that is empty, does not begin with the object marker,
    fails to parse, or parses without a version comes back unchanged, with
    the context given and no error. *)
Theorem C2_fallback (ctx : context.Context) (method : string) (req : json.RawMessage) :
  json.len req = 0%nat \/
  nth 0 (json.raw req) 0 <> ch "{" \/
  snd (json.Unmarshal (json.raw req) jctx.zeroWire) <> None \/
  jctx.V (fst (json.Unmarshal (json.raw req) jctx.zeroWire)) = None ->
  jctx.Decode ctx method req = (Some ctx, req, None).
Proof.
  intros H. unfold jctx.Decode.
  remember (json.Unmarshal (json.raw req) jctx.zeroWire) as u eqn:Eu.
  destruct (Nat.eqb_spec (json.len req) 0) as [|Hlen]; [reflexivity|].
  destruct (Z.eqb_spec (nth 0 (json.raw req) 0) (ch "{")) as [Hb|]; [|reflexivity].
  destruct u as [c [e|]]; simpl in *; [reflexivity|].
  destruct H as [H | [H | [H | H]]]; try contradiction.
  rewrite H. reflexivity.
Qed.

Lemma C2_fallback_witness :
  jctx.Decode ctxTimer "m" (Some []) = (Some ctxTimer, Some [], None) /\
  jctx.Decode ctxTimer "m" (Some (js "[1,2,3]")) = (Some ctxTimer, Some (js "[1,2,3]"), None) /\
  jctx.Decode ctxTimer "m" (Some (js "{'jctx':")) = (Some ctxTimer, Some (js "{'jctx':"), None) /\
  jctx.Decode ctxTimer "m" (Some (js "{'x':1}")) = (Some ctxTimer, Some (js "{'x':1}"), None).
Proof.
  split; [|split; [|split]].
  - apply C2_fallback. left. reflexivity.
  - apply C2_fallback. right; left. vm_compute. discriminate.
  - apply C2_fallback. right; right; left. vm_compute. discriminate.
  - apply C2_fallback. right; right; right. vm_compute. reflexivity.
Defined.

(** C3. A message that parses as an envelope whose version is present and
    differs from the supported one yields an error, with a nil context and
    nil parameters. *)
Theorem C3_version_mismatch (ctx : context.Context) (method : string)
  (req : json.RawMessage) (c : jctx.wireContext) (v : bytes) :
  parsesAsEnvelope req c ->
  jctx.V c = Some v ->
  v <> jctx.wireVersion ->
  jctx.Decode ctx method req = (None, None, Some (ErrInvalidVersion v)).
Proof.
  intros (Hlen & Hb & Hu) Hv Hne. unfold jctx.Decode.
  destruct (Nat.eqb_spec (json.len req) 0) as [|_]; [contradiction|].
  rewrite Hb, Z.eqb_refl, Hu, Hv. cbv beta iota. simpl negb at 1. simpl orb.
  cbv beta iota.
  destruct (bytes_eqb v jctx.wireVersion) eqn:E; [|reflexivity].
  exfalso. apply Hne. clear - E.
  revert E. generalize jctx.wireVersion as w.
  induction v as [|x v IH]; intros [|y w]; simpl; try discriminate; auto.
  intros E. apply andb_true_iff in E as [E1 E2].
  apply Z.eqb_eq in E1. subst. f_equal. auto.
Qed.

Lemma C3_version_mismatch_witness :
  jctx.Decode context.Background "m" (Some (js "{'jctx':'99'}"))
    = (None, None, Some (ErrInvalidVersion (bs "99"))).
Proof.
  apply (C3_version_mismatch context.Background "m" (Some (js "{'jctx':'99'}"))
           (jctx.mkWire (Some (bs "99")) None None None) (bs "99")).
  - split; [|split]; vm_compute; try reflexivity; discriminate.
  - reflexivity.
  - vm_compute. discriminate.
Defined.

(** *** An explicitly null version *)

Lemma scanWhile_step (n : Z) (data : bytes) :
  forall s s' op b rest,
    scanWhile n s data = (s', op, Some b, rest) ->
    exists s0, stepScanner n s0 b = (s', op).
Proof.
  induction data as [|c r IH]; intros s s' op b rest H.
  - simpl in H. discriminate.
  - cbn [scanWhile] in H. destruct (stepScanner n s c) as [s1 op1] eqn:Es.
    destruct op1; try (injection H as <- <- <- <-; exists s; exact Es).
    eapply IH; eauto.
Qed.

Lemma begin_byte (n : Z) (s s' : scanner) (b : byte) (op : opcode) :
  stepScanner n s b = (s', op) ->
  match op with
  | scanBeginObject => b = ch "{"
  | scanBeginArray => b = ch "["
  | _ => True
  end.
Proof.
  intros Es. destruct s as [f st]; destruct f; unfold_step_in Es;
    break_hyp Es; injection Es as <- <-; try exact I;
    repeat match goal with H : (_ =? _) = true |- _ => apply Z.eqb_eq in H end;
    try assumption; try (subst; reflexivity).
Qed.

Lemma readValue_head (s : scanner) (op : opcode) (b : byte) (rest item : bytes) st :
  jctx.readValue s op b rest = Some (item, st) -> nth 0 item 0 = b.
Proof.
  unfold jctx.readValue. intros H.
  destruct op; try discriminate.
  - destruct (rescanLiteral b rest). injection H as <- _. reflexivity.
  - destruct (skip _ _ _ _) as [[[[? ?] ?] ?]|]; [|discriminate].
    injection H as <- _. reflexivity.
  - destruct (skip _ _ _ _) as [[[[? ?] ?] ?]|]; [|discriminate].
    injection H as <- _. reflexivity.
Qed.

Lemma store_V (f : option jctx.field) (op : opcode) (item : bytes)
  (c c1 : jctx.wireContext) (sv : option error) :
  match op with
  | scanBeginLiteral => True
  | scanBeginObject => nth 0 item 0 = ch "{"
  | scanBeginArray => nth 0 item 0 = ch "["
  | _ => False
  end ->
  jctx.store f op item c = (c1, None, sv) ->
  isNil (jctx.V c1)
  = match f with
    | Some jctx.fV => nth 0 item 0 =? ch "n"
    | _ => isNil (jctx.V c)
    end.
Proof.
  intros Hop H. unfold jctx.store in H.
  destruct op; try contradiction.
  - unfold jctx.literalStore in H.
    destruct f as [[]|].
    + destruct (nth 0 item 0 =? ch "n"); [injection H as <- _; reflexivity|].
      destruct (nth 0 item 0 =? dquote).
      * destruct (unquoteBytes item); [injection H as <- _; reflexivity|discriminate].
      * destruct ((nth 0 item 0 =? ch "t") || (nth 0 item 0 =? ch "f"));
          injection H as <- _; unfold jctx.allocV; cbn; destruct (jctx.V c); reflexivity.
    + destruct (nth 0 item 0 =? ch "n"); [injection H as <- _; reflexivity|].
      unfold jctx.storeTime in H. destruct (time.UnmarshalJSON _ _);
        injection H as <- _; reflexivity.
    + injection H as <- _. reflexivity.
    + injection H as <- _. reflexivity.
    + injection H as <- _. reflexivity.
  - unfold jctx.compositeStore in H. rewrite Hop.
    destruct f as [[]|]; try (injection H as <- _; reflexivity).
    + injection H as <- _. unfold jctx.allocV. cbn. destruct (jctx.V c); reflexivity.
    + unfold jctx.storeTime in H. destruct (time.UnmarshalJSON _ _);
        injection H as <- _; reflexivity.
  - unfold jctx.compositeStore in H. rewrite Hop.
    destruct f as [[]|]; try (injection H as <- _; reflexivity).
    + injection H as <- _. unfold jctx.allocV. cbn. destruct (jctx.V c); reflexivity.
    + unfold jctx.storeTime in H. destruct (time.UnmarshalJSON _ _);
        injection H as <- _; reflexivity.
Qed.

Lemma names_lookup (key : bytes) :
  (match jctx.lookupField key with Some jctx.fV => true | _ => false end)
  = jctx.names jctx.fV key.
Proof.
  unfold jctx.names. destruct (jctx.lookupField key) as [[]|]; reflexivity.
Qed.

(** When the loop of [d.object] runs to its end, the version pointer is
    nil exactly when the last member that names the version is [null]. *)
Lemma object_V (fuel : nat) :
  forall c saved s rest,
    match jctx.object fuel c saved s rest with
    | jctx.Abort _ _ => True
    | jctx.Cont c' _ _ _ _ =>
        isNil (jctx.V c') = nilAfter (isNil (jctx.V c)) (jctx.members fuel s rest)
    end.
Proof.
  induction fuel as [|fuel IH]; intros c saved s rest; [exact I|].
  cbn [jctx.object jctx.members].
  destruct (scanWhile maxNestingDepth s rest) as [[[s1 op1] ob1] rest1].
  destruct op1; try exact I; [|reflexivity].
  destruct ob1 as [b|]; [|exact I].
  destruct (rescanLiteral b rest1) as [item after].
  destruct (afterLiteral s1 after) as [[s2 op2] rest2].
  destruct (unquoteBytes (b :: item)) as [key|]; [|exact I].
  destruct (jctx.skipSpace s2 op2 rest2) as [[s3 op3] rest3].
  destruct op3; try exact I.
  destruct (scanWhile maxNestingDepth s3 rest3) as [[[s4 op4] ob4] rest4] eqn:Esw.
  destruct ob4 as [b4|]; [|exact I].
  unfold jctx.value.
  destruct (jctx.readValue s4 op4 b4 rest4) as [[item4 [[s5 op5] rest5]]|] eqn:Er; [|exact I].
  destruct (jctx.store (jctx.lookupField key) op4 item4 c) as [[c1 [e|]] sv] eqn:Est;
    [exact I|].
  assert (HV : isNil (jctx.V c1)
               = if jctx.names jctx.fV key then nth 0 item4 0 =? ch "n"
                 else isNil (jctx.V c)).
  { assert (Hop : match op4 with
                  | scanBeginLiteral => True
                  | scanBeginObject => nth 0 item4 0 = ch "{"
                  | scanBeginArray => nth 0 item4 0 = ch "["
                  | _ => False
                  end).
    { destruct (scanWhile_step _ _ _ _ _ _ _ Esw) as [s0 Es0].
      pose proof (begin_byte _ _ _ _ _ Es0) as Hb.
      rewrite (readValue_head _ _ _ _ _ _ Er).
      unfold jctx.readValue in Er. destruct op4; try discriminate; try exact I; exact Hb. }
    rewrite <- names_lookup.
    rewrite (store_V (jctx.lookupField key) op4 item4 c c1 sv Hop Est).
    destruct (jctx.lookupField key) as [[]|]; reflexivity. }
  assert (Hc : forall s' op' rest',
             match (match sv with
                    | Some e => jctx.Cont c1 (jctx.saveError saved e) s' op' rest'
                    | None => jctx.Cont c1 saved s' op' rest'
                    end) with
             | jctx.Abort c0 e0 => jctx.Abort c0 e0
             | jctx.Cont c0 saved0 s0 op0 rest0 =>
                 match jctx.skipSpace s0 op0 rest0 with
                 | (s6, scanEndObject, rest6) => jctx.Cont c0 saved0 s6 scanEndObject rest6
                 | (s6, scanObjectValue, rest6) => jctx.object fuel c0 saved0 s6 rest6
                 | _ => jctx.Abort c0 errPhase
                 end
             end
             = match jctx.skipSpace s' op' rest' with
               | (s6, scanEndObject, rest6) =>
                   jctx.Cont c1 (match sv with Some e => jctx.saveError saved e | None => saved end)
                     s6 scanEndObject rest6
               | (s6, scanObjectValue, rest6) =>
                   jctx.object fuel c1
                     (match sv with Some e => jctx.saveError saved e | None => saved end) s6 rest6
               | _ => jctx.Abort c1 errPhase
               end).
  { intros. destruct sv; reflexivity. }
  unfold jctx.continue. rewrite Hc.
  destruct (jctx.skipSpace s5 op5 rest5) as [[s6 op6] rest6].
  destruct op6; try exact I.
  - specialize (IH c1 (match sv with Some e => jctx.saveError saved e | None => saved end)
                  s6 rest6).
    destruct (jctx.object fuel c1 _ s6 rest6); [exact I|].
    rewrite IH. unfold nilAfter. cbn [fold_left fst snd]. rewrite HV. reflexivity.
  - unfold nilAfter. cbn [fold_left fst snd]. exact HV.
Qed.

Lemma fieldMember_nilAfter (ms : list (bytes * bytes)) :
  forall acc b,
    match acc with Some it => b = (nth 0 it 0 =? ch "n") | None => True end ->
    match fold_left (fun acc m => if jctx.names jctx.fV (fst m) then Some (snd m) else acc)
                    ms acc with
    | Some it => nilAfter b ms = (nth 0 it 0 =? ch "n")
    | None => True
    end.
Proof.
  induction ms as [|[k item] ms IH]; intros acc b H.
  - cbn. destruct acc; auto.
  - unfold nilAfter. cbn [fold_left fst snd].
    apply IH. destruct (jctx.names jctx.fV k); [reflexivity|exact H].
Qed.

Lemma fieldMember_null (ms : list (bytes * bytes)) (b : bool) :
  jctx.fieldMember jctx.fV ms = Some (bs "null") -> nilAfter b ms = true.
Proof.
  intros H. pose proof (fieldMember_nilAfter ms None b I) as Hn.
  change (match jctx.fieldMember jctx.fV ms with
          | Some it => nilAfter b ms = (nth 0 it 0 =? ch "n")
          | None => True
          end) in Hn.
  rewrite H in Hn. exact Hn.
Qed.

Lemma null_version_fallback (data : bytes) :
  jctx.fieldMember jctx.fV (jctx.membersOf data) = Some (bs "null") ->
  let r := jctx.Unmarshal_wireContext data jctx.zeroWire in
  snd r <> None \/ jctx.V (fst r) = None.
Proof.
  intros H. cbv zeta.
  unfold jctx.Unmarshal_wireContext.
  destruct (checkValid maxNestingDepth data) as [e|]; [left; discriminate|].
  unfold jctx.membersOf in H.
  destruct (scanWhile maxNestingDepth reset data) as [[[s op] ob] rest].
  destruct op; try discriminate H.
  pose proof (object_V (S (List.length data)) jctx.zeroWire None s rest) as HV.
  destruct (jctx.object (S (List.length data)) jctx.zeroWire None s rest) as [c e|c saved s' op' rest'].
  - left. discriminate.
  - right. cbn [fst].
    rewrite (fieldMember_null _ _ H) in HV.
    destruct (jctx.V c); [discriminate|reflexivity].
Qed.

Lemma Decode_fallback (ctx : context.Context) (method : string) (req : json.RawMessage) :
  json.len req = 0%nat \/
  nth 0 (json.raw req) 0 <> ch "{" \/
  snd (json.Unmarshal (json.raw req) jctx.zeroWire) <> None \/
  jctx.V (fst (json.Unmarshal (json.raw req) jctx.zeroWire)) = None ->
  jctx.Decode ctx method req = (Some ctx, req, None).
Proof.
  intros H. unfold jctx.Decode.
  remember (json.Unmarshal (json.raw req) jctx.zeroWire) as u eqn:Eu.
  destruct (Nat.eqb_spec (json.len req) 0) as [|Hlen]; [reflexivity|].
  destruct (Z.eqb_spec (nth 0 (json.raw req) 0) (ch "{")) as [Hb|]; [|reflexivity].
  destruct u as [c [e|]]; simpl in *; [reflexivity|].
  destruct H as [H | [H | [H | H]]]; try contradiction.
  rewrite H. reflexivity.
Qed.

(** C10. A message whose version member, as the decoder reads the
    object, is the literal [null] takes the fallback: it comes back
    unchanged with the context given and no error. *)
Theorem C10_null_version (ctx : context.Context) (method : string) (req : json.RawMessage) :
  jctx.fieldMember jctx.fV (jctx.membersOf (json.raw req)) = Some (bs "null") ->
  jctx.Decode ctx method req = (Some ctx, req, None).
Proof.
  intros H. apply Decode_fallback. right; right.
  destruct (null_version_fallback (json.raw req) H) as [Hn|Hn]; [left|right]; exact Hn.
Qed.

Lemma C10_null_version_witness :
  jctx.Decode context.Background "m" (Some (js "{'jctx': null, 'payload': [1]}"))
  = (Some context.Background, Some (js "{'jctx': null, 'payload': [1]}"), None).
Proof.
  apply (C10_null_version context.Background "m" (Some (js "{'jctx': null, 'payload': [1]}"))).
  vm_compute. reflexivity.
Defined.

(** ** Encode: the metadata field *)

Lemma Encode_wire (ctx : context.Context) (method : string) (P : json.RawMessage) :
  jctx.Encode ctx method P
  = match jctx.Marshal_wireContext
            (jctx.mkWire (Some jctx.wireVersion)
               (option_map time.UTC (context.Deadline ctx)) P
               (match context.Value_metadataKey ctx with Some m => m | None => None end)) with
    | inr out => (Some out, None)
    | inl e => (None, Some e)
    end.
Proof.
  unfold jctx.Encode, json.Marshal, jctx.wireContext_Codec.
  destruct (context.Value_metadataKey ctx), (context.Deadline ctx); reflexivity.
Qed.

(** C4 (amended). [Encode] writes the metadata field exactly when the
    context carries a raw metadata value that is not empty, and writes that
    value as [json.Marshal] compacts it; when the attached value is nil or
    empty the envelope is the one of a context that never had metadata. *)
Theorem C4_metadata_field (ctx ctx0 : context.Context) (method : string)
  (P : json.RawMessage) :
  context.Deadline ctx0 = context.Deadline ctx ->
  context.Value_metadataKey ctx0 = None ->
  match attachedBytes ctx with
  | [] => jctx.Encode ctx method P = jctx.Encode ctx0 method P
  | m =>
      forall out,
        jctx.Encode ctx method P = (Some out, None) ->
        exists pre m',
          json.compact json.maxNestingDepth true m = Some m' /\
          out = pre ++ jctx.member false jctx.fMetadata m' ++ [ch "}"] /\
          jctx.Encode ctx0 method P = (Some (pre ++ [ch "}"]), None)
  end.
Proof.
  intros Hd Hv. rewrite !Encode_wire, Hd, Hv.
  unfold attachedBytes.
  destruct (context.Value_metadataKey ctx) as [[[|mb m]|]|]; cbn [json.raw].
  - unfold jctx.Marshal_wireContext. cbn [jctx.Metadata jctx.Payload jctx.Deadline jctx.V].
    reflexivity.
  - intros out. unfold jctx.Marshal_wireContext.
    cbn [jctx.Metadata jctx.Payload jctx.Deadline jctx.V].
    destruct (jctx.omittable _ _ jctx.fDeadline) as [e|dm]; [discriminate|].
    destruct (jctx.omittable _ _ jctx.fPayload) as [e|pm]; [discriminate|].
    unfold jctx.omittable at 1, json.marshalerEncoder, json.RawMessage_MarshalJSON, json.len.
    cbn [json.raw List.length Nat.eqb].
    destruct (json.compact json.maxNestingDepth true (mb :: m)) as [m'|]; [|discriminate].
    intros H. injection H as <-.
    exists (jctx.member true jctx.fV (json.encodeString jctx.wireVersion) ++ dm ++ pm), m'.
    split; [reflexivity|]. split.
    + rewrite <- !app_assoc. reflexivity.
    + cbn [jctx.omittable json.len json.raw List.length Nat.eqb].
      rewrite <- !app_assoc. reflexivity.
  - reflexivity.
  - reflexivity.
Qed.

Lemma C4_metadata_field_witness :
  exists pre m',
    json.compact json.maxNestingDepth true (js "{'a':1}") = Some m' /\
    js "{'jctx':'1','payload':[1],'meta':{'a':1}}"
    = pre ++ jctx.member false jctx.fMetadata m' ++ [ch "}"] /\
    jctx.Encode context.Background "m" (Some (js "[1]")) = (Some (pre ++ [ch "}"]), None).
Proof.
  apply (C4_metadata_field (context.metaCtx context.Background (Some (js "{'a':1}")))
           context.Background "m" (Some (js "[1]")) eq_refl eq_refl).
  vm_compute. reflexivity.
Defined.

(** C4, as stated, fails: after [WithMetadata(ctx, nil)] the context holds
    the nil raw value, and the envelope has no metadata member. *)
Lemma C4_counterexample :
  context.Value_metadataKey
    (fst (jctx.WithMetadata (T := json.RawMessage) context.Background None)) = Some None /\
  ~ (exists out m,
       jctx.Encode (fst (jctx.WithMetadata (T := json.RawMessage) context.Background None))
         "m" (Some (js "[1]")) = (Some out, None) /\
       jctx.fieldMember jctx.fMetadata (jctx.membersOf out) = Some m).
Proof.
  split; [reflexivity|].
  intros (out & m & HE & Hm).
  assert (E : jctx.Encode (fst (jctx.WithMetadata (T := json.RawMessage) context.Background None))
                "m" (Some (js "[1]"))
              = (Some (js "{'jctx':'1','payload':[1]}"), None))
    by (vm_compute; reflexivity).
  rewrite E in HE. injection HE as <-.
  vm_compute in Hm. discriminate Hm.
Qed.

(** ** Round trip *)





(** * Further properties *)

Import decoding compaction.

(** ** Decode: errors and the base context *)

Lemma bytes_eqb_eq (a b : bytes) : bytes_eqb a b = true <-> a = b.
Proof.
  revert b. induction a as [|x a IH]; intros [|y b]; simpl; split; intros H;
    try discriminate; try reflexivity.
  - apply andb_true_iff in H as [H1 H2]. apply Z.eqb_eq in H1. apply IH in H2.
    subst. reflexivity.
  - injection H as -> ->. rewrite Z.eqb_refl. apply IH. reflexivity.
Qed.

(** X1. Whatever the message, an error of [Decode] is the version error of
    an envelope that parsed with a version other than the supported one,
    and it comes with a nil context and nil parameters. *)
Theorem X1_Decode_error_is_version (ctx : context.Context) (method : string)
  (req : json.RawMessage) (e : error) :
  snd (jctx.Decode ctx method req) = Some e ->
  jctx.Decode ctx method req = (None, None, Some e) /\
  exists c v, parsesAsEnvelope req c /\ jctx.V c = Some v /\
              v <> jctx.wireVersion /\ e = ErrInvalidVersion v.
Proof.
  unfold jctx.Decode, parsesAsEnvelope.
  destruct (Nat.eqb_spec (json.len req) 0) as [|Hlen]; [discriminate|].
  destruct (Z.eqb_spec (nth 0 (json.raw req) 0) (ch "{")) as [Hb|]; [|discriminate].
  cbn [negb orb].
  remember (json.Unmarshal (json.raw req) jctx.zeroWire) as u eqn:Eu.
  destruct u as [c [e0|]]; [discriminate|].
  destruct (jctx.V c) as [v|] eqn:Ev; [|discriminate].
  destruct (bytes_eqb v jctx.wireVersion) eqn:Eb; cbn [negb snd].
  - destruct (jctx.Deadline c) as [d|]; [destruct (negb (time.IsZero d))|]; discriminate.
  - intros H. injection H as <-. split; [reflexivity|].
    exists c, v. repeat split; auto.
    intros ->. apply not_true_iff_false in Eb. apply Eb. apply bytes_eqb_eq. reflexivity.
Qed.

Lemma X1_Decode_error_is_version_witness :
  jctx.Decode ctxTimer "m" (Some (js "{'jctx':'2','payload':[1]}"))
  = (None, None, Some (ErrInvalidVersion (bs "2"))) /\
  exists c v, parsesAsEnvelope (Some (js "{'jctx':'2','payload':[1]}")) c /\
              jctx.V c = Some v /\ v <> jctx.wireVersion /\
              ErrInvalidVersion (bs "2") = ErrInvalidVersion v.
Proof.
  apply (X1_Decode_error_is_version ctxTimer "m" (Some (js "{'jctx':'2','payload':[1]}"))).
  vm_compute. reflexivity.
Defined.

Lemma Before_irrefl (t : time.Time) : time.Before t t = false.
Proof.
  unfold time.Before. rewrite !Z.ltb_irrefl, andb_false_r. reflexivity.
Qed.

(** X2. [Decode] never moves the deadline of the base context to a later
    time: when the base context has a deadline, the context returned has
    one that is not after it. *)
Theorem X2_Decode_deadline_not_later (ctx ctx' : context.Context) (method : string)
  (req p : json.RawMessage) (cur : time.Time) :
  jctx.Decode ctx method req = (Some ctx', p, None) ->
  context.Deadline ctx = Some cur ->
  exists d, context.Deadline ctx' = Some d /\ time.Before cur d = false.
Proof.
  unfold jctx.Decode. intros H Hc.
  assert (Hsame : exists d, context.Deadline ctx = Some d /\ time.Before cur d = false).
  { exists cur. split; [exact Hc|apply Before_irrefl]. }
  destruct ((json.len req =? 0)%nat || negb (nth 0 (json.raw req) 0 =? ch "{"));
    [injection H as <- _; exact Hsame|].
  destruct (json.Unmarshal (json.raw req) jctx.zeroWire) as [c [e0|]];
    [injection H as <- _; exact Hsame|].
  destruct (jctx.V c) as [v|]; [|injection H as <- _; exact Hsame].
  destruct (negb (bytes_eqb v jctx.wireVersion)); [discriminate H|].
  injection H as <- _.
  set (b1 := match jctx.Metadata c with
             | Some m => context.WithValue_metadataKey ctx (Some m)
             | None => ctx
             end).
  assert (H1 : context.Deadline b1 = Some cur).
  { unfold b1. destruct (jctx.Metadata c); exact Hc. }
  destruct (jctx.Deadline c) as [d|]; [|exists cur; split; [exact H1|apply Before_irrefl]].
  destruct (negb (time.IsZero d)); [|exists cur; split; [exact H1|apply Before_irrefl]].
  unfold context.WithDeadline. rewrite H1.
  destruct (time.Before cur (time.UTC d)) eqn:Eb.
  - exists cur. split; [exact H1|apply Before_irrefl].
  - exists (time.UTC d). split; [reflexivity|exact Eb].
Qed.

Lemma X2_Decode_deadline_not_later_witness :
  exists d,
    context.Deadline
      (context.cancelCtx (context.timerCtx context.Background time.zero)) = Some d /\
    time.Before time.zero d = false.
Proof.
  apply (X2_Decode_deadline_not_later ctxTimer _ "m"
           (Some (js "{'jctx':'1','deadline':'2009-11-10T23:00:00Z'}")) None time.zero).
  - vm_compute. reflexivity.
  - reflexivity.
Defined.

(** ** Decode: the members of the envelope *)

Lemma literal_byte (n : Z) (s s' : scanner) (b : byte) :
  stepScanner n s b = (s', scanBeginLiteral) -> (b =? ch "{") = false /\ (b =? ch "[") = false.
Proof.
  intros Es. destruct s as [f st]; destruct f; unfold_step_in Es;
    break_hyp Es; try discriminate Es;
    repeat match goal with H : (_ =? _) = true |- _ => apply Z.eqb_eq in H end;
    repeat match goal with H : (_ && _) = true |- _ => apply andb_true_iff in H as [? ?] end;
    repeat match goal with H : (_ <=? _) = true |- _ => apply Z.leb_le in H end;
    subst; split; try reflexivity; try (apply Z.eqb_neq; vm_compute in *; lia).
Qed.

Lemma store_storeValue (n : Z) (s0 s : scanner) (op : opcode) (b : byte) (rest item : bytes)
  (st : scanner * opcode * bytes) (f : option jctx.field) (c : jctx.wireContext) :
  stepScanner n s0 b = (s, op) ->
  jctx.readValue s op b rest = Some (item, st) ->
  jctx.store f op item c = storeValue f item c.
Proof.
  intros Es Hr.
  pose proof (readValue_head _ _ _ _ _ _ Hr) as Hh.
  assert (Hi : exists t, item = b :: t).
  { unfold jctx.readValue in Hr. destruct op; try discriminate.
    - destruct (rescanLiteral b rest). injection Hr as <- _. eauto.
    - destruct (skip _ _ _ _) as [[[[? ?] ?] ?]|]; [|discriminate]. injection Hr as <- _. eauto.
    - destruct (skip _ _ _ _) as [[[[? ?] ?] ?]|]; [|discriminate]. injection Hr as <- _. eauto. }
  destruct Hi as [t ->].
  unfold jctx.store, storeValue.
  unfold jctx.readValue in Hr.
  destruct op; try discriminate.
  - destruct (literal_byte _ _ _ _ Es) as [-> ->]. reflexivity.
  - pose proof (begin_byte _ _ _ _ _ Es) as Hb. cbv beta iota in Hb. subst b.
    reflexivity.
  - pose proof (begin_byte _ _ _ _ _ Es) as Hb. cbv beta iota in Hb. subst b.
    reflexivity.
Qed.

(** When the loop of [d.object] runs to its end, the struct and the saved
    error are those of the stores of the members read, in order. *)
Lemma object_run (fuel : nat) :
  forall c saved s rest,
    match jctx.object fuel c saved s rest with
    | jctx.Abort _ _ => True
    | jctx.Cont c' saved' _ _ _ =>
        runMembers (jctx.members fuel s rest) c saved = Some (c', saved')
    end.
Proof.
  induction fuel as [|fuel IH]; intros c saved s rest; [exact I|].
  cbn [jctx.object jctx.members].
  destruct (scanWhile maxNestingDepth s rest) as [[[s1 op1] ob1] rest1].
  destruct op1; try exact I; [|reflexivity].
  destruct ob1 as [b|]; [|exact I].
  destruct (rescanLiteral b rest1) as [item after].
  destruct (afterLiteral s1 after) as [[s2 op2] rest2].
  destruct (unquoteBytes (b :: item)) as [key|]; [|exact I].
  destruct (jctx.skipSpace s2 op2 rest2) as [[s3 op3] rest3].
  destruct op3; try exact I.
  destruct (scanWhile maxNestingDepth s3 rest3) as [[[s4 op4] ob4] rest4] eqn:Esw.
  destruct ob4 as [b4|]; [|exact I].
  unfold jctx.value.
  destruct (jctx.readValue s4 op4 b4 rest4) as [[item4 [[s5 op5] rest5]]|] eqn:Er; [|exact I].
  destruct (scanWhile_step _ _ _ _ _ _ _ Esw) as [s0 Es0].
  rewrite (store_storeValue _ _ _ _ _ _ _ _ (jctx.lookupField key) c Es0 Er).
  cbn [runMembers].
  destruct (storeValue (jctx.lookupField key) item4 c) as [[c1 [e|]] sv]; [exact I|].
  unfold jctx.continue.
  destruct sv as [e|].
  - destruct (jctx.skipSpace s5 op5 rest5) as [[s6 op6] rest6].
    destruct op6; try exact I.
    + apply IH.
    + reflexivity.
  - destruct (jctx.skipSpace s5 op5 rest5) as [[s6 op6] rest6].
    destruct op6; try exact I.
    + apply IH.
    + reflexivity.
Qed.

Lemma Unmarshal_members (req : json.RawMessage) (c : jctx.wireContext) :
  parsesAsEnvelope req c ->
  runMembers (jctx.membersOf (json.raw req)) jctx.zeroWire None = Some (c, None).
Proof.
  intros (Hlen & Hb & Hu).
  change (jctx.Unmarshal_wireContext (json.raw req) jctx.zeroWire = (c, None)) in Hu.
  unfold jctx.Unmarshal_wireContext in Hu. unfold jctx.membersOf.
  destruct (checkValid maxNestingDepth (json.raw req)); [discriminate|].
  destruct (json.raw req) as [|b r] eqn:Er.
  { unfold json.len in Hlen. rewrite Er in Hlen. contradiction Hlen. reflexivity. }
  cbn [nth] in Hb. subst b.
  assert (Hs : scanWhile maxNestingDepth reset (ch "{" :: r)
               = (mkScanner stateBeginStringOrEmpty [parseObjectKey], scanBeginObject,
                  Some (ch "{"), r)) by reflexivity.
  rewrite Hs in *.
  pose proof (object_run (S (List.length (ch "{" :: r))) jctx.zeroWire None
                (mkScanner stateBeginStringOrEmpty [parseObjectKey]) r) as Ho.
  destruct (jctx.object _ _ _ _ _) as [c1 e|c1 saved1 s1 op1 rest1]; [discriminate|].
  injection Hu as -> ->. exact Ho.
Qed.

Lemma storeValue_raw (f : option jctx.field) (item : bytes) (c c' : jctx.wireContext)
  (sv : option error) :
  storeValue f item c = (c', None, sv) ->
  jctx.Payload c' = (match f with Some jctx.fPayload => Some item | _ => jctx.Payload c end) /\
  jctx.Metadata c' = (match f with Some jctx.fMetadata => Some item | _ => jctx.Metadata c end).
Proof.
  unfold storeValue, jctx.literalStore, jctx.compositeStore, jctx.storeTime, jctx.allocV.
  intros H.
  destruct f as [[]|]; destruct item as [|b t]; cbn [nth] in H;
    repeat match type of H with
           | context [if ?x then _ else _] => destruct x
           | context [match unquoteBytes ?x with _ => _ end] => destruct (unquoteBytes x)
           | context [match time.UnmarshalJSON ?x ?y with _ => _ end] =>
               destruct (time.UnmarshalJSON x y)
           end;
    try discriminate H; injection H as <- _; split; reflexivity.
Qed.

Lemma names_some (f : jctx.field) (key : bytes) :
  jctx.names f key = true -> jctx.lookupField key = Some f.
Proof.
  unfold jctx.names. destruct (jctx.lookupField key) as [g|]; [|discriminate].
  destruct g, f; simpl; intros; try discriminate; reflexivity.
Qed.

Lemma runMembers_raw (ms : list (bytes * bytes)) :
  forall c saved c' saved',
    runMembers ms c saved = Some (c', saved') ->
    jctx.Payload c' = lastOr jctx.fPayload ms (jctx.Payload c) /\
    jctx.Metadata c' = lastOr jctx.fMetadata ms (jctx.Metadata c).
Proof.
  induction ms as [|[key item] ms IH]; intros c saved c' saved' H.
  - injection H as <- _. split; reflexivity.
  - cbn [runMembers] in H.
    destruct (storeValue (jctx.lookupField key) item c) as [[c1 [e|]] sv] eqn:Es;
      [discriminate|].
    destruct (storeValue_raw _ _ _ _ _ Es) as [Hp Hm].
    assert (H1 : exists saved1, runMembers ms c1 saved1 = Some (c', saved')).
    { destruct sv; eauto. }
    destruct H1 as [saved1 H1]. destruct (IH _ _ _ _ H1) as [IHp IHm].
    unfold lastOr in *. cbn [fold_left fst snd].
    rewrite IHp, IHm, Hp, Hm. unfold jctx.names.
    destruct (jctx.lookupField key) as [[]|]; split; reflexivity.
Qed.

Lemma Decode_accept (ctx : context.Context) (method : string) (req : json.RawMessage)
  (c : jctx.wireContext) :
  parsesAsEnvelope req c ->
  jctx.V c = Some jctx.wireVersion ->
  jctx.Decode ctx method req
  = (Some (let ctx1 := match jctx.Metadata c with
                       | Some m => context.WithValue_metadataKey ctx (Some m)
                       | None => ctx
                       end in
           match jctx.Deadline c with
           | Some d => if negb (time.IsZero d) then context.WithDeadline ctx1 (time.UTC d)
                       else ctx1
           | None => ctx1
           end),
     jctx.Payload c, None).
Proof.
  intros (Hlen & Hb & Hu) Hv. unfold jctx.Decode.
  destruct (Nat.eqb_spec (json.len req) 0) as [|_]; [contradiction|].
  rewrite Hb, Z.eqb_refl, Hu, Hv. reflexivity.
Qed.

Lemma Value_WithDeadline (ctx : context.Context) (d : time.Time) :
  context.Value_metadataKey (context.WithDeadline ctx d) = context.Value_metadataKey ctx.
Proof.
  unfold context.WithDeadline. destruct (context.Deadline ctx) as [cur|]; [|reflexivity].
  destruct (time.Before cur d); reflexivity.
Qed.

(** X3. The parameters that [Decode] returns for an accepted envelope are
    the text, byte for byte, of the last member whose key names the
    payload, and nil when there is none. *)
Theorem X3_Decode_params_last_member (ctx : context.Context) (method : string)
  (req : json.RawMessage) (c : jctx.wireContext) :
  parsesAsEnvelope req c ->
  jctx.V c = Some jctx.wireVersion ->
  exists ctx',
    jctx.Decode ctx method req
    = (Some ctx', jctx.fieldMember jctx.fPayload (jctx.membersOf (json.raw req)), None).
Proof.
  intros Hp Hv. rewrite (Decode_accept ctx method req c Hp Hv).
  destruct (runMembers_raw _ _ _ _ _ (Unmarshal_members req c Hp)) as [-> _].
  eexists. reflexivity.
Qed.

Lemma X3_Decode_params_last_member_witness :
  exists ctx',
    jctx.Decode ctxTimer "m" (Some (js "{'Payload':[1], 'jctx':'1', 'PAYLOAD': {'k': [2, 3]} }"))
    = (Some ctx',
       jctx.fieldMember jctx.fPayload
         (jctx.membersOf (js "{'Payload':[1], 'jctx':'1', 'PAYLOAD': {'k': [2, 3]} }")),
       None).
Proof.
  apply (X3_Decode_params_last_member ctxTimer "m"
           (Some (js "{'Payload':[1], 'jctx':'1', 'PAYLOAD': {'k': [2, 3]} }"))
           (jctx.mkWire (Some (bs "1")) None (Some (js "{'k': [2, 3]}")) None)).
  - split; [|split]; vm_compute; try reflexivity; discriminate.
  - reflexivity.
Defined.

(** X4. The metadata of the context that [Decode] returns for an accepted
    envelope is the text of the last member whose key names the metadata;
    when there is none, the metadata of the base context stays. *)
Theorem X4_Decode_metadata_last_member (ctx : context.Context) (method : string)
  (req : json.RawMessage) (c : jctx.wireContext) :
  parsesAsEnvelope req c ->
  jctx.V c = Some jctx.wireVersion ->
  exists ctx' p,
    jctx.Decode ctx method req = (Some ctx', p, None) /\
    context.Value_metadataKey ctx'
    = match jctx.fieldMember jctx.fMetadata (jctx.membersOf (json.raw req)) with
      | Some m => Some (Some m)
      | None => context.Value_metadataKey ctx
      end.
Proof.
  intros Hp Hv. rewrite (Decode_accept ctx method req c Hp Hv).
  destruct (runMembers_raw _ _ _ _ _ (Unmarshal_members req c Hp)) as [_ Hm].
  eexists _, _. split; [reflexivity|].
  change (jctx.Metadata c
          = jctx.fieldMember jctx.fMetadata (jctx.membersOf (json.raw req))) in Hm.
  rewrite <- Hm. cbv zeta.
  destruct (jctx.Deadline c) as [d|]; [destruct (negb (time.IsZero d))|];
    rewrite ?Value_WithDeadline; destruct (jctx.Metadata c); reflexivity.
Qed.

Lemma X4_Decode_metadata_last_member_witness :
  exists ctx' p,
    jctx.Decode ctxOld "m" (Some (js "{'jctx':'1','meta':null,'deadline':'2009-11-10T23:00:00Z'}"))
    = (Some ctx', p, None) /\
    context.Value_metadataKey ctx'
    = match jctx.fieldMember jctx.fMetadata
              (jctx.membersOf (js "{'jctx':'1','meta':null,'deadline':'2009-11-10T23:00:00Z'}")) with
      | Some m => Some (Some m)
      | None => context.Value_metadataKey ctxOld
      end.
Proof.
  apply (X4_Decode_metadata_last_member ctxOld "m"
           (Some (js "{'jctx':'1','meta':null,'deadline':'2009-11-10T23:00:00Z'}"))
           (jctx.mkWire (Some (bs "1")) (Some (time.mkTime 63393490800 0 time.utcLoc))
              None (Some (bs "null")))).
  - split; [|split]; vm_compute; try reflexivity; discriminate.
  - reflexivity.
Defined.

Lemma null_head (item : bytes) : bytes_eqb item (bs "null") = true -> nth 0 item 0 = ch "n".
Proof.
  intros H. apply bytes_eqb_eq in H. subst. reflexivity.
Qed.

Lemma storeValue_time (f : option jctx.field) (item : bytes) (c c' : jctx.wireContext)
  (sv : option error) :
  storeValue f item c = (c', None, sv) ->
  jctx.Deadline c'
  = match f with Some jctx.fDeadline => memberTime item | _ => jctx.Deadline c end.
Proof.
  unfold storeValue, jctx.literalStore, jctx.compositeStore, jctx.storeTime, jctx.allocV,
    memberTime.
  intros H.
  assert (Hu : forall t0 t, (nth 0 item 0 =? ch "n") = false ->
                 time.UnmarshalJSON item t0 = inr t -> time.parseRFC3339 item = inr t).
  { intros t0 t Hn Hu. unfold time.UnmarshalJSON in Hu.
    destruct (bytes_eqb item (bs "null")) eqn:En; [|exact Hu].
    apply null_head in En. apply Z.eqb_neq in Hn. contradiction. }
  destruct f as [[]|]; destruct item as [|b t]; cbn [nth] in *;
    repeat match type of H with
           | context [if ?x then _ else _] => destruct x eqn:?
           | context [match unquoteBytes ?x with _ => _ end] => destruct (unquoteBytes x)
           | context [match time.UnmarshalJSON ?x ?y with _ => _ end] =>
               destruct (time.UnmarshalJSON x y) eqn:?
           end;
    try discriminate H; injection H as <- _; try reflexivity; cbn [jctx.Deadline];
    repeat match goal with
           | E : (?b =? ch "{") = true |- _ => apply Z.eqb_eq in E; subst b
           | E : (?b =? ch "[") = true |- _ => apply Z.eqb_eq in E; subst b
           end;
    try change (ch "{" =? ch "n") with false; try change (ch "[" =? ch "n") with false;
    try match goal with
        | E : time.UnmarshalJSON ?it ?t0 = inr ?t |- _ =>
            rewrite (Hu t0 t ltac:(first [assumption | reflexivity]) E)
        end;
    try reflexivity.
Qed.

Lemma runMembers_time (ms : list (bytes * bytes)) :
  forall c saved c' saved' acc,
    runMembers ms c saved = Some (c', saved') ->
    jctx.Deadline c = match acc with Some item => memberTime item | None => jctx.Deadline c end ->
    jctx.Deadline c'
    = match lastOr jctx.fDeadline ms acc with
      | Some item => memberTime item
      | None => jctx.Deadline c
      end.
Proof.
  induction ms as [|[key item] ms IH]; intros c saved c' saved' acc H Hacc.
  - injection H as <- _. exact Hacc.
  - cbn [runMembers] in H.
    destruct (storeValue (jctx.lookupField key) item c) as [[c1 [e|]] sv] eqn:Es;
      [discriminate|].
    pose proof (storeValue_time _ _ _ _ _ Es) as Ht.
    assert (H1 : exists saved1, runMembers ms c1 saved1 = Some (c', saved')).
    { destruct sv; eauto. }
    destruct H1 as [saved1 H1].
    unfold lastOr. cbn [fold_left fst snd].
    destruct (jctx.names jctx.fDeadline key) eqn:Ek.
    + rewrite (names_some _ _ Ek) in Ht.
      rewrite (IH c1 saved1 c' saved' (Some item) H1 Ht).
      unfold lastOr.
      destruct (fold_left _ ms (Some item)) eqn:Ef; [reflexivity|].
      exfalso. clear - Ef. revert Ef. generalize item.
      induction ms as [|m ms IHm]; intros it Ef; [discriminate Ef|].
      cbn [fold_left] in Ef. destruct (jctx.names jctx.fDeadline (fst m)); eauto.
    + assert (Hd : jctx.Deadline c1 = jctx.Deadline c).
      { rewrite Ht. unfold jctx.names in Ek.
        destruct (jctx.lookupField key) as [[]|]; try reflexivity. discriminate Ek. }
      rewrite <- Hd. apply (IH c1 saved1 c' saved' acc H1). rewrite Hd. exact Hacc.
Qed.

(** X5. The deadline of the context that [Decode] returns for an accepted
    envelope is decided by the last member whose key names the deadline:
    [null], the zero time or no such member leave the deadline of the base
    context; another time, as [Time.UnmarshalJSON] reads the member, sets
    it, in UTC, unless the base context has an earlier one. *)
Theorem X5_Decode_deadline_last_member (ctx : context.Context) (method : string)
  (req : json.RawMessage) (c : jctx.wireContext) :
  parsesAsEnvelope req c ->
  jctx.V c = Some jctx.wireVersion ->
  exists ctx' p,
    jctx.Decode ctx method req = (Some ctx', p, None) /\
    context.Deadline ctx'
    = decodedDeadline (context.Deadline ctx)
        (match jctx.fieldMember jctx.fDeadline (jctx.membersOf (json.raw req)) with
         | Some item => memberTime item
         | None => None
         end).
Proof.
  intros Hp Hv. rewrite (Decode_accept ctx method req c Hp Hv).
  pose proof (runMembers_time _ _ _ _ _ None (Unmarshal_members req c Hp) eq_refl) as Hd.
  change (lastOr jctx.fDeadline (jctx.membersOf (json.raw req)) None)
    with (jctx.fieldMember jctx.fDeadline (jctx.membersOf (json.raw req))) in Hd.
  change (jctx.Deadline jctx.zeroWire) with (@None time.Time) in Hd.
  rewrite <- Hd.
  eexists _, _. split; [reflexivity|]. cbv zeta.
  unfold decodedDeadline, context.WithDeadline.
  assert (Hm : context.Deadline
                 (match jctx.Metadata c with
                  | Some m => context.WithValue_metadataKey ctx (Some m)
                  | None => ctx
                  end) = context.Deadline ctx).
  { destruct (jctx.Metadata c); reflexivity. }
  destruct (jctx.Deadline c) as [d|]; [|exact Hm].
  destruct (time.IsZero d); cbn [negb]; [exact Hm|].
  rewrite Hm. destruct (context.Deadline ctx) as [cur|] eqn:Ec; [|reflexivity].
  destruct (time.Before cur (time.UTC d)); [|reflexivity].
  cbn [context.Deadline]. rewrite Hm. reflexivity.
Qed.

Lemma X5_Decode_deadline_last_member_witness :
  exists ctx' p,
    jctx.Decode ctxOld "m"
      (Some (js "{'jctx':'1','deadline':null,'DeadLine':'2009-11-10T23:00:00.00000015+05:00'}"))
    = (Some ctx', p, None) /\
    context.Deadline ctx'
    = decodedDeadline (context.Deadline ctxOld)
        (match jctx.fieldMember jctx.fDeadline
                 (jctx.membersOf
                    (js "{'jctx':'1','deadline':null,'DeadLine':'2009-11-10T23:00:00.00000015+05:00'}")) with
         | Some item => memberTime item
         | None => None
         end).
Proof.
  apply (X5_Decode_deadline_last_member ctxOld "m"
           (Some (js "{'jctx':'1','deadline':null,'DeadLine':'2009-11-10T23:00:00.00000015+05:00'}"))
           (jctx.mkWire (Some (bs "1"))
              (Some (time.mkTime 63393472800 150 (time.FixedZone 18000))) None None)).
  - split; [|split]; vm_compute; try reflexivity; discriminate.
  - reflexivity.
Defined.

Lemma unquote_head (item v : bytes) :
  unquoteBytes item = Some v -> nth 0 item 0 = dquote.
Proof.
  unfold unquoteBytes. destruct item as [|q r]; [discriminate|].
  destruct (rev r) as [|q' inner]; [discriminate|].
  destruct (Z.eqb_spec q dquote) as [->|]; [reflexivity|discriminate].
Qed.

Lemma storeValue_string (item v : bytes) (c : jctx.wireContext) :
  unquoteBytes item = Some v ->
  storeValue (Some jctx.fV) item c
  = (jctx.mkWire (Some v) (jctx.Deadline c) (jctx.Payload c) (jctx.Metadata c), None, None).
Proof.
  intros Hu. pose proof (unquote_head _ _ Hu) as Hh.
  unfold storeValue, jctx.literalStore.
  destruct item as [|b t]; [discriminate Hu|]. cbn [nth] in *. subst b.
  change (dquote =? ch "{") with false. change (dquote =? ch "[") with false.
  change (dquote =? ch "n") with false. change (dquote =? dquote) with true.
  cbv beta iota. rewrite Hu. reflexivity.
Qed.

Lemma storeValue_other (f : option jctx.field) (item : bytes) (c c' : jctx.wireContext)
  (e : option error) (sv : option error) :
  storeValue f item c = (c', e, sv) ->
  f <> Some jctx.fV -> jctx.V c' = jctx.V c.
Proof.
  unfold storeValue, jctx.literalStore, jctx.compositeStore, jctx.storeTime.
  intros H Hf.
  destruct f as [[]|]; try (exfalso; apply Hf; reflexivity);
    destruct item as [|b t]; cbn [nth] in H;
    repeat match type of H with
           | context [if ?x then _ else _] => destruct x
           | context [match time.UnmarshalJSON ?x ?y with _ => _ end] =>
               destruct (time.UnmarshalJSON x y)
           end;
    injection H as <- _ _; reflexivity.
Qed.

(** The version after the stores: the string of the last member that names
    it, when that member is a string literal. *)
Lemma runMembers_version (ms : list (bytes * bytes)) :
  forall c saved c' saved' acc item v,
    runMembers ms c saved = Some (c', saved') ->
    lastOr jctx.fV ms acc = Some item ->
    unquoteBytes item = Some v ->
    (acc = Some item -> jctx.V c = Some v) ->
    jctx.V c' = Some v.
Proof.
  induction ms as [|[key it] ms IH]; intros c saved c' saved' acc item v H Hl Hu Hacc.
  - injection H as <- _. cbn in Hl. auto.
  - cbn [runMembers] in H. unfold lastOr in Hl. cbn [fold_left fst snd] in Hl.
    destruct (storeValue (jctx.lookupField key) it c) as [[c1 [e|]] sv] eqn:Es;
      [discriminate|].
    assert (H1 : exists saved1, runMembers ms c1 saved1 = Some (c', saved')).
    { destruct sv; eauto. }
    destruct H1 as [saved1 H1].
    destruct (jctx.names jctx.fV key) eqn:Ek.
    + apply (IH c1 saved1 c' saved' (Some it) item v H1 Hl Hu).
      intros Hit. injection Hit as ->.
      rewrite (names_some _ _ Ek), (storeValue_string item v c Hu) in Es.
      injection Es as <- _. reflexivity.
    + apply (IH c1 saved1 c' saved' acc item v H1 Hl Hu).
      intros Ha. rewrite (storeValue_other _ _ _ _ _ _ Es); [auto|].
      intros Hf. unfold jctx.names in Ek. rewrite Hf in Ek. discriminate Ek.
Qed.

(** X6. Of several version members the last one decides: an envelope that
    parses and whose last version member is a string other than the
    supported version is rejected with the version error, whatever an
    earlier member said. *)
Theorem X6_Decode_version_last_member (ctx : context.Context) (method : string)
  (req : json.RawMessage) (c : jctx.wireContext) (item v : bytes) :
  parsesAsEnvelope req c ->
  jctx.fieldMember jctx.fV (jctx.membersOf (json.raw req)) = Some item ->
  unquoteBytes item = Some v ->
  v <> jctx.wireVersion ->
  jctx.Decode ctx method req = (None, None, Some (ErrInvalidVersion v)).
Proof.
  intros Hp Hl Hu Hne.
  assert (Hv : jctx.V c = Some v).
  { apply (runMembers_version _ _ _ _ _ None item v (Unmarshal_members req c Hp) Hl Hu).
    discriminate. }
  destruct Hp as (Hlen & Hb & Hun). unfold jctx.Decode.
  destruct (Nat.eqb_spec (json.len req) 0) as [|_]; [contradiction|].
  rewrite Hb, Z.eqb_refl, Hun, Hv. cbn [negb orb].
  destruct (bytes_eqb v jctx.wireVersion) eqn:E; [|reflexivity].
  apply bytes_eqb_eq in E. contradiction.
Qed.

Lemma X6_Decode_version_last_member_witness :
  jctx.Decode ctxTimer "m" (Some (js "{'jctx':'1','payload':[1],'JCTX':'2'}"))
  = (None, None, Some (ErrInvalidVersion (bs "2"))).
Proof.
  apply (X6_Decode_version_last_member ctxTimer "m"
           (Some (js "{'jctx':'1','payload':[1],'JCTX':'2'}"))
           (jctx.mkWire (Some (bs "2")) None (Some (js "[1]")) None) (js "'2'") (bs "2")).
  - split; [|split]; vm_compute; try reflexivity; discriminate.
  - vm_compute. reflexivity.
  - vm_compute. reflexivity.
  - vm_compute. discriminate.
Defined.

Lemma storeValue_version (item : bytes) (c c' : jctx.wireContext) (sv : option error) :
  notStringOrNull item = true ->
  storeValue (Some jctx.fV) item c = (c', None, sv) -> sv <> None.
Proof.
  unfold notStringOrNull, storeValue, jctx.literalStore, jctx.compositeStore.
  intros Hn H. apply andb_true_iff in Hn as [H1 H2].
  apply negb_true_iff in H1, H2.
  destruct item as [|b t]; cbn [nth] in *.
  - rewrite H1, H2 in H. cbn in H. injection H as _ <-. discriminate.
  - destruct (b =? ch "{"); [injection H as _ <-; discriminate|].
    destruct (b =? ch "["); [injection H as _ <-; discriminate|].
    rewrite H1, H2 in H.
    destruct ((b =? ch "t") || (b =? ch "f")); injection H as _ <-; discriminate.
Qed.

Lemma runMembers_saved (ms : list (bytes * bytes)) :
  forall c saved c' saved',
    runMembers ms c saved = Some (c', saved') ->
    saved <> None \/
    existsb (fun m => jctx.names jctx.fV (fst m) && notStringOrNull (snd m)) ms = true ->
    saved' <> None.
Proof.
  induction ms as [|[key item] ms IH]; intros c saved c' saved' H Hor.
  - injection H as _ <-. destruct Hor as [|Hor]; [assumption|discriminate Hor].
  - cbn [runMembers] in H. cbn [existsb fst snd] in Hor.
    destruct (storeValue (jctx.lookupField key) item c) as [[c1 [e|]] sv] eqn:Es;
      [discriminate|].
    destruct sv as [e|].
    + apply (IH _ _ _ _ H). left. destruct saved; discriminate.
    + apply (IH _ _ _ _ H).
      destruct Hor as [Hs|Hor]; [left; exact Hs|].
      apply orb_true_iff in Hor as [Hk|Hr]; [|right; exact Hr].
      apply andb_true_iff in Hk as [Hk Hn].
      rewrite (names_some _ _ Hk) in Es.
      exfalso. apply (storeValue_version _ _ _ _ Hn Es). reflexivity.
Qed.

Lemma storeValue_deadline_bad (item : bytes) (c : jctx.wireContext) :
  badTime item = true ->
  exists c' e sv, storeValue (Some jctx.fDeadline) item c = (c', Some e, sv).
Proof.
  unfold badTime. intros H. apply andb_true_iff in H as [H1 H2].
  apply negb_true_iff in H1.
  assert (Hu : forall t0, exists e, time.UnmarshalJSON item t0 = inl e).
  { intros t0. unfold time.UnmarshalJSON.
    destruct (bytes_eqb item (bs "null")) eqn:En.
    - apply null_head in En. apply Z.eqb_neq in H1. contradiction.
    - destruct (time.parseRFC3339 item) as [e|]; [eauto|discriminate]. }
  unfold storeValue, jctx.literalStore, jctx.compositeStore, jctx.storeTime.
  destruct item as [|b t]; cbn [nth] in *.
  - rewrite H1. destruct (Hu (match jctx.Deadline c with Some t => t | None => time.zero end))
      as [e ->]. eauto.
  - destruct (Hu (match jctx.Deadline c with Some t => t | None => time.zero end))
      as [e He].
    destruct (b =? ch "{"); [rewrite He; eauto|].
    destruct (b =? ch "["); [rewrite He; eauto|].
    rewrite H1, He. eauto.
Qed.

Lemma runMembers_deadline (ms : list (bytes * bytes)) :
  forall c saved r,
    runMembers ms c saved = Some r ->
    existsb (fun m => jctx.names jctx.fDeadline (fst m) && badTime (snd m)) ms = false.
Proof.
  induction ms as [|[key item] ms IH]; intros c saved r H; [reflexivity|].
  cbn [runMembers] in H. cbn [existsb fst snd].
  destruct (jctx.names jctx.fDeadline key && badTime item) eqn:Ek.
  - apply andb_true_iff in Ek as [Hk Hb].
    rewrite (names_some _ _ Hk) in H.
    destruct (storeValue_deadline_bad item c Hb) as (c' & e & sv & Es).
    rewrite Es in H. discriminate.
  - cbn [orb].
    destruct (storeValue (jctx.lookupField key) item c) as [[c1 [e|]] [e'|]];
      try discriminate; eapply IH; eauto.
Qed.

Lemma fallback_unless_parsed (ctx : context.Context) (method : string) (req : json.RawMessage) :
  (forall c, parsesAsEnvelope req c -> False) ->
  jctx.Decode ctx method req = (Some ctx, req, None).
Proof.
  intros Hno. apply Decode_fallback.
  destruct (Nat.eq_dec (json.len req) 0) as [|Hlen]; [left; assumption|].
  destruct (Z.eq_dec (nth 0 (json.raw req) 0) (ch "{")) as [Hb|]; [|right; left; assumption].
  right; right; left.
  destruct (json.Unmarshal (json.raw req) jctx.zeroWire) as [c [e|]] eqn:Eu;
    [discriminate|].
  exfalso. apply (Hno c). repeat split; assumption.
Qed.

(** X7. A message with a version member that is a number, a boolean, an
    object or an array is not an envelope for [Decode]: it comes back
    unchanged with the context given and no error, whatever the other
    members are. *)
Theorem X7_Decode_version_not_string (ctx : context.Context) (method : string)
  (req : json.RawMessage) :
  existsb (fun m => jctx.names jctx.fV (fst m) && notStringOrNull (snd m))
          (jctx.membersOf (json.raw req)) = true ->
  jctx.Decode ctx method req = (Some ctx, req, None).
Proof.
  intros Hex. apply fallback_unless_parsed. intros c Hp.
  apply (runMembers_saved _ _ _ _ _ (Unmarshal_members req c Hp)); [|reflexivity].
  right. exact Hex.
Qed.

Lemma X7_Decode_version_not_string_witness :
  jctx.Decode ctxTimer "m" (Some (js "{'jctx':1,'payload':[1],'jctx':'2'}"))
  = (Some ctxTimer, Some (js "{'jctx':1,'payload':[1],'jctx':'2'}"), None).
Proof.
  apply (X7_Decode_version_not_string ctxTimer "m"
           (Some (js "{'jctx':1,'payload':[1],'jctx':'2'}"))).
  vm_compute. reflexivity.
Defined.

(** X8. A message with a deadline member that is not [null] and that
    [Time.UnmarshalJSON] rejects comes back unchanged with the context
    given and no error, even when its version is the supported one. *)
Theorem X8_Decode_bad_deadline (ctx : context.Context) (method : string)
  (req : json.RawMessage) :
  existsb (fun m => jctx.names jctx.fDeadline (fst m) && badTime (snd m))
          (jctx.membersOf (json.raw req)) = true ->
  jctx.Decode ctx method req = (Some ctx, req, None).
Proof.
  intros Hex. apply fallback_unless_parsed. intros c Hp.
  rewrite (runMembers_deadline _ _ _ _ (Unmarshal_members req c Hp)) in Hex.
  discriminate.
Qed.

Lemma X8_Decode_bad_deadline_witness :
  jctx.Decode ctxOld "m" (Some (js "{'jctx':'1','deadline':'2009-11-10 23:00:00','payload':[1]}"))
  = (Some ctxOld, Some (js "{'jctx':'1','deadline':'2009-11-10 23:00:00','payload':[1]}"), None).
Proof.
  apply (X8_Decode_bad_deadline ctxOld "m"
           (Some (js "{'jctx':'1','deadline':'2009-11-10 23:00:00','payload':[1]}"))).
  vm_compute. reflexivity.
Defined.

Lemma equalFold_join (k : bytes) :
  forall s t, equalFold s k = true -> equalFold t k = true -> equalFold s t = true.
Proof.
  induction k as [|c k IH]; intros [|a s] [|b t]; simpl; intros H1 H2;
    try discriminate; try reflexivity.
  apply andb_true_iff in H1 as [H1 H1']. apply andb_true_iff in H2 as [H2 H2'].
  apply Z.eqb_eq in H1, H2. rewrite H1, H2, Z.eqb_refl. simpl. apply IH; assumption.
Qed.

Lemma equalFold_fields (f g : jctx.field) :
  equalFold (jctx.fieldName g) (jctx.fieldName f) = jctx.field_eqb g f.
Proof. destruct f, g; reflexivity. Qed.

(** X9. A key of the envelope names a field exactly when it equals the
    field's name up to the case of ASCII letters; so no key names two
    fields. *)
Theorem X9_names_equalFold (f : jctx.field) (key : bytes) :
  jctx.names f key = equalFold (jctx.fieldName f) key.
Proof.
  assert (Hexact : forall g, bytes_eqb (jctx.fieldName g) key = true ->
                             equalFold (jctx.fieldName f) key = jctx.field_eqb g f).
  { intros g Hg. apply bytes_eqb_eq in Hg. subst key. destruct f, g; reflexivity. }
  assert (Hfold : forall g, equalFold (jctx.fieldName g) key = true ->
                            equalFold (jctx.fieldName f) key = jctx.field_eqb g f).
  { intros g Hg. destruct (equalFold (jctx.fieldName f) key) eqn:Ef.
    - rewrite <- equalFold_fields. symmetry. apply (equalFold_join key); assumption.
    - destruct (jctx.field_eqb g f) eqn:Eg; [|reflexivity].
      assert (g = f) by (destruct g, f; try discriminate; reflexivity).
      subst. congruence. }
  unfold jctx.names, jctx.lookupField, jctx.fields. cbn [find].
  destruct (bytes_eqb (jctx.fieldName jctx.fV) key) eqn:E1; [symmetry; auto|].
  destruct (bytes_eqb (jctx.fieldName jctx.fDeadline) key) eqn:E2; [symmetry; auto|].
  destruct (bytes_eqb (jctx.fieldName jctx.fPayload) key) eqn:E3; [symmetry; auto|].
  destruct (bytes_eqb (jctx.fieldName jctx.fMetadata) key) eqn:E4; [symmetry; auto|].
  destruct (equalFold (jctx.fieldName jctx.fV) key) eqn:F1; [symmetry; auto|].
  destruct (equalFold (jctx.fieldName jctx.fDeadline) key) eqn:F2; [symmetry; auto|].
  destruct (equalFold (jctx.fieldName jctx.fPayload) key) eqn:F3; [symmetry; auto|].
  destruct (equalFold (jctx.fieldName jctx.fMetadata) key) eqn:F4; [symmetry; auto|].
  destruct f; symmetry; assumption.
Qed.

(** ** Compaction is idempotent *)

Lemma sim_refl (s : scanner) : sim s s.
Proof. split; [reflexivity|left; reflexivity]. Qed.

Lemma sim_eof (n : Z) (s t : scanner) :
  sim s t -> eof n s <> scanError -> eof n t <> scanError.
Proof.
  destruct s as [f st], t as [g st']. intros [Hst H] He. cbn [step parseState] in *. subst st'.
  destruct H as [H | [[H Hn] | (H & Hnil & [Ht | Hn])]]; subst.
  - exact He.
  - destruct g; try discriminate Hn; destruct st as [|p st];
      try (exfalso; apply He; reflexivity); discriminate.
  - discriminate.
  - destruct g; try discriminate Hn; discriminate.
Qed.

Lemma sim_space (n : Z) (s t s1 : scanner) (c : byte) (v : opcode) :
  sim s t -> stepScanner n s c = (s1, v) -> atLeastSkipSpace v = true ->
  step s1 <> stateError -> sim s1 t.
Proof.
  destruct s as [f st], t as [g st']. intros [Hst H] Es Hv Hne.
  cbn [step parseState] in *. subst st'.
  destruct f; unfold_step_in Es; break_hyp Es; injection Es as <- <-;
    try discriminate Hv; try (exfalso; apply Hne; reflexivity);
    cbn [step parseState] in *;
    try (split; [reflexivity|exact H]);
    destruct H as [H | [[H Hn] | (H & Hnil & Ht)]]; try discriminate H; subst;
    cbn [numEnd] in *;
    try (split; [reflexivity|]; cbn [step parseState];
         first [ left; reflexivity
               | right; left; split; reflexivity
               | right; right; repeat split; auto; right; reflexivity
               | right; right; repeat split; auto; left; reflexivity ]).
  all: try (split; [reflexivity|]; cbn [step parseState]; right; left; split; assumption).
  all: try (split; [reflexivity|]; cbn [step parseState]; right; right; repeat split; auto).
Qed.

Lemma sim_kept (n : Z) (s t s1 : scanner) (c : byte) (v : opcode) :
  sim s t -> stepScanner n s c = (s1, v) -> atLeastSkipSpace v = false ->
  stepScanner n t c = (s1, v).
Proof.
  destruct s as [f st], t as [g st']. intros [Hst H] Es Hv.
  cbn [step parseState] in *. subst st'.
  destruct H as [H | [[H Hn] | (H & Hnil & Ht)]]; subst.
  - exact Es.
  - unfold_step_in Es. break_hyp Es; injection Es as <- <-; try discriminate Hv;
      repeat match goal with H : (_ =? _) = true |- _ => apply Z.eqb_eq in H end; subst;
      try discriminate;
      destruct g; try discriminate Hn; reflexivity.
  - unfold_step_in Es. break_hyp Es; injection Es as <- <-; discriminate Hv.
Qed.

Lemma escaped_cases (c : byte) :
  escaped c = true -> c = 60 \/ c = 62 \/ c = 38 \/ c = 226.
Proof.
  unfold escaped. intros H.
  repeat (apply orb_true_iff in H as [H|H]); apply Z.eqb_eq in H; subst; auto.
Qed.

Lemma only_in_string (n : Z) (s s1 : scanner) (c : byte) (v : opcode) :
  escaped c = true ->
  stepScanner n s c = (s1, v) -> v <> scanError -> step s1 <> stateError ->
  step s = stateInString /\ s1 = s /\ v = scanContinue.
Proof.
  intros Hc Es Hv Hne. apply escaped_cases in Hc.
  destruct s as [f st].
  destruct Hc as [-> | [-> | [-> | ->]]];
    destruct f; unfold_step_in Es; break_hyp Es; injection Es as <- <-;
    try (exfalso; apply Hv; reflexivity); try (exfalso; apply Hne; reflexivity);
    try discriminate;
    repeat split; reflexivity.
Qed.

Lemma string_stays (n : Z) (st : list pstate) (c : byte) :
  In c [60; 62; 38; 226; 128; 168; 169] ->
  stepScanner n (mkScanner stateInString st) c = (mkScanner stateInString st, scanContinue).
Proof.
  intros H. cbn [In] in H.
  repeat (destruct H as [<-|H]; [reflexivity|]). contradiction.
Qed.

(** Bytes that the scanner passes without a skip and that need no escape
    are copied. *)
Lemma compact_prefix (n : Z) (pre : bytes) :
  forall s s' o,
    quietRun n s pre = Some s' ->
    forallb (fun c => negb (escaped c)) pre = true ->
    compact_from n true s 0 (pre ++ o)
    = match compact_from n true s' 0 o with Some x => Some (pre ++ x) | None => None end.
Proof.
  induction pre as [|c pre IH]; intros s s' o Hq Hf.
  - injection Hq as <-. cbn [app]. destruct (compact_from n true s 0 o); reflexivity.
  - cbn [quietRun] in Hq. cbn [forallb] in Hf. apply andb_true_iff in Hf as [Hc Hf].
    destruct (stepScanner n s c) as [s1 v] eqn:Es.
    destruct (atLeastSkipSpace v) eqn:Ev; [discriminate|].
    cbn [app compact_from]. rewrite Es.
    apply negb_true_iff in Hc. unfold escaped in Hc.
    apply orb_false_iff in Hc as [Hh H226]. rewrite Hh, H226.
    cbn [andb negb Nat.eqb Nat.pred app]. rewrite Ev. cbn [negb].
    rewrite (IH s1 s' o Hq Hf).
    destruct v; try discriminate Ev; destruct (compact_from n true s' 0 o); reflexivity.
Qed.

Lemma land_even (c : byte) : Z.land c (Z.lnot 1) = 168 -> c = 168 \/ c = 169.
Proof.
  intros H. rewrite <- Z.ldiff_land in H.
  change 1 with (Z.ones 1) in H. rewrite Z.ldiff_ones_r in H by lia.
  rewrite Z.shiftr_div_pow2, Z.shiftl_mul_pow2 in H by lia.
  change (2 ^ 1) with 2 in H. pose proof (Z.div_mod c 2). pose proof (Z.mod_pos_bound c 2).
  lia.
Qed.

Lemma instring_cons (n : Z) (st : list pstate) (x : byte) (r1 o : bytes) :
  compact_from n true (mkScanner stateInString st) 0 (x :: r1) = Some o ->
  (exists o1, o = ch "\" :: o1) \/
  (exists s1 o1, o = x :: o1 /\
                 stepScanner n (mkScanner stateInString st) x = (s1, scanContinue) /\
                 compact_from n true s1 0 r1 = Some o1).
Proof.
  intros H. apply compact_cons in H as (s1 & v & o1 & Es & Hv & Ho & ->).
  cbv zeta in *.
  destruct ((x =? ch "<") || (x =? ch ">") || (x =? ch "&")); [left; eexists; reflexivity|].
  match goal with |- context [if ?b then _ else _] => destruct b eqn:Esep end;
    [left; eexists; reflexivity|].
  right. cbn [negb andb Nat.eqb Nat.pred app] in *.
  assert (Hc : v = scanContinue).
  { unfold_step_in Es. break_hyp Es; injection Es as <- <-; try reflexivity.
    exfalso. apply Hv. reflexivity. }
  subst v. cbn [atLeastSkipSpace negb app]. exists s1, o1. auto.
Qed.

Lemma separator_head (n : Z) (st : list pstate) (r o' : bytes) (y : byte) :
  compact_from n true (mkScanner stateInString st) 0 r = Some (128 :: y :: o') ->
  y = 168 \/ y = 169 ->
  exists r', r = 128 :: y :: r'.
Proof.
  intros H Hy. destruct r as [|x r1].
  { cbn in H. discriminate H. }
  apply instring_cons in H as [[o1 H] | (s1 & o1 & H & Es & Ho)]; [discriminate|].
  injection H as <- <-.
  rewrite string_stays in Es by (cbn; auto 10). injection Es as <-.
  destruct r1 as [|x2 r2].
  { cbn in Ho. discriminate Ho. }
  apply instring_cons in Ho as [[o1 H] | (s1 & o1 & H & Es & Ho)].
  - exfalso. injection H as H _. destruct Hy; subst; discriminate.
  - injection H as <- _. eauto.
Qed.

Lemma compact_hold (n : Z) (st : list pstate) (c2 : byte) (r : bytes) :
  c2 = 168 \/ c2 = 169 ->
  compact_from n true (mkScanner stateInString st) 2 (128 :: c2 :: r)
  = compact_from n true (mkScanner stateInString st) 0 r.
Proof.
  intros [-> | ->]; cbn [compact_from]; rewrite !string_stays by (cbn; auto 10);
    cbn; destruct (compact_from n true _ 0 r); reflexivity.
Qed.

Lemma compact_idem_from (n : Z) (k : nat) :
  forall src, (List.length src <= k)%nat ->
  forall s t out,
    sim s t ->
    compact_from n true s 0 src = Some out ->
    compact_from n true t 0 out = Some out.
Proof.
  induction k as [|k IH]; intros src Hlen s t out Hsim H.
  - destruct src; [|cbn in Hlen; lia].
    cbn in H. destruct (eof n s) eqn:Ee; try discriminate; injection H as <-;
      cbn; pose proof (sim_eof n s t Hsim) as Ht; rewrite Ee in Ht;
      destruct (eof n t); try reflexivity; exfalso; apply Ht; try discriminate; reflexivity.
  - destruct src as [|c r].
    { cbn in H. destruct (eof n s) eqn:Ee; try discriminate; injection H as <-;
        cbn; pose proof (sim_eof n s t Hsim) as Ht; rewrite Ee in Ht;
        destruct (eof n t); try reflexivity; exfalso; apply Ht; try discriminate; reflexivity. }
    cbn [List.length] in Hlen.
    apply compact_cons in H as (s1 & v & o & Es & Hv & Ho & Hout).
    cbv zeta in *.
    assert (Hne : step s1 <> stateError).
    { intros He. rewrite compact_error in Ho by exact He. discriminate. }
    destruct (escaped c) eqn:Hesc.
    + destruct (only_in_string n s s1 c v Hesc Es Hv Hne) as (Hs & -> & ->).
      assert (t = s).
      { destruct s as [f st], t as [g st']. destruct Hsim as [Hst Hd].
        cbn [step parseState] in *. subst.
        destruct Hd as [Hd | [[Hd _] | [Hd _]]]; try discriminate. subst. reflexivity. }
      subst t. destruct s as [f st]. cbn [step] in Hs. subst f.
      apply escaped_cases in Hesc.
      destruct Hesc as [-> | [-> | [-> | ->]]].
      * cbn in Ho. subst out.
        change (compact_from n true (mkScanner stateInString st) 0 (bs "\u003c" ++ o)
                = Some (bs "\u003c" ++ o)).
        rewrite (compact_prefix n (bs "\u003c") _ (mkScanner stateInString st) o)
          by reflexivity.
        rewrite (IH r ltac:(lia) _ _ o (sim_refl _) Ho). reflexivity.
      * cbn in Ho. subst out.
        change (compact_from n true (mkScanner stateInString st) 0 (bs "\u003e" ++ o)
                = Some (bs "\u003e" ++ o)).
        rewrite (compact_prefix n (bs "\u003e") _ (mkScanner stateInString st) o)
          by reflexivity.
        rewrite (IH r ltac:(lia) _ _ o (sim_refl _) Ho). reflexivity.
      * cbn in Ho. subst out.
        change (compact_from n true (mkScanner stateInString st) 0 (bs "\u0026" ++ o)
                = Some (bs "\u0026" ++ o)).
        rewrite (compact_prefix n (bs "\u0026") _ (mkScanner stateInString st) o)
          by reflexivity.
        rewrite (IH r ltac:(lia) _ _ o (sim_refl _) Ho). reflexivity.
      * change ((226 =? ch "<") || (226 =? ch ">") || (226 =? ch "&")) with false in *.
        change (226 =? 226) with true in *. cbn [andb negb] in *.
        match type of Ho with context [if ?b then _ else _] => destruct b eqn:Esep end.
        -- destruct r as [|c1 [|c2 r']]; try discriminate Esep.
           apply andb_true_iff in Esep as [E1 E2]. apply Z.eqb_eq in E1, E2. subst c1.
           apply land_even in E2.
           rewrite compact_hold in Ho by exact E2.
           cbn [nth app] in Hout.
           assert (Hr : compact_from n true (mkScanner stateInString st) 0 o = Some o).
           { refine (IH r' _ _ _ o (sim_refl _) Ho). cbn [List.length] in Hlen. lia. }
           destruct E2 as [-> | ->]; subst out.
           ++ change (compact_from n true (mkScanner stateInString st) 0 (bs "\u2028" ++ o)
                      = Some (bs "\u2028" ++ o)).
              rewrite (compact_prefix n (bs "\u2028") _ (mkScanner stateInString st) o)
                by reflexivity.
              rewrite Hr. reflexivity.
           ++ change (compact_from n true (mkScanner stateInString st) 0 (bs "\u2029" ++ o)
                      = Some (bs "\u2029" ++ o)).
              rewrite (compact_prefix n (bs "\u2029") _ (mkScanner stateInString st) o)
                by reflexivity.
              rewrite Hr. reflexivity.
        -- cbn [Nat.eqb Nat.pred andb atLeastSkipSpace negb app] in *. subst out.
           assert (Hr : compact_from n true (mkScanner stateInString st) 0 o = Some o).
           { refine (IH r _ _ _ o (sim_refl _) Ho). lia. }
           cbn [compact_from].
           change ((226 =? ch "<") || (226 =? ch ">") || (226 =? ch "&")) with false.
           change (226 =? 226) with true. cbn [andb negb].
           rewrite string_stays by (cbn; auto 10).
           assert (Eo : match o with
                        | c1 :: c2 :: _ => (c1 =? 128) && (Z.land c2 (Z.lnot 1) =? 168)
                        | _ => false
                        end = false).
           { destruct o as [|c1 [|c2 o']]; try reflexivity.
             destruct ((c1 =? 128) && (Z.land c2 (Z.lnot 1) =? 168)) eqn:E; [|reflexivity].
             exfalso. apply andb_true_iff in E as [E1 E2]. apply Z.eqb_eq in E1, E2. subst c1.
             pose proof (land_even _ E2) as Hy.
             destruct (separator_head n st r o' c2 Ho Hy) as [r' ->].
             cbv beta iota in Esep. rewrite E2, !Z.eqb_refl in Esep. discriminate Esep. }
           rewrite Eo. cbn [Nat.eqb Nat.pred andb atLeastSkipSpace negb app].
           rewrite Hr. reflexivity.
    + unfold escaped in Hesc. apply orb_false_iff in Hesc as [Hh H226].
      rewrite Hh, H226 in *. cbn [andb negb Nat.eqb Nat.pred app] in *.
      destruct (atLeastSkipSpace v) eqn:Ev; cbn [negb app] in Hout; subst out.
      * refine (IH r _ s1 t o _ Ho); [lia|].
        apply (sim_space n s t s1 c v); assumption.
      * pose proof (sim_kept n s t s1 c v Hsim Es Ev) as Et.
        cbn [compact_from]. rewrite Hh, H226, Et. cbn [andb negb Nat.eqb Nat.pred app].
        rewrite Ev. cbn [negb].
        rewrite (IH r ltac:(lia) s1 s1 o (sim_refl _) Ho).
        destruct v; try reflexivity. exfalso. apply Hv. reflexivity.
Qed.

(** What [compact] returns, it returns unchanged when run again. *)
Lemma compact_idem (n : Z) (src out : bytes) :
  compact n true src = Some out -> compact n true out = Some out.
Proof.
  unfold compact. intros H.
  apply (compact_idem_from n (List.length src) src (le_n _) reset reset out (sim_refl _) H).
Qed.

Lemma compact_nonempty (n : Z) (src out : bytes) :
  compact n true src = Some out -> out <> [].
Proof.
  intros H ->. apply compact_idem in H. discriminate H.
Qed.

Lemma compact_checkValid (n : Z) (e : bool) (src : bytes) :
  forall s hold,
    (exists o, compact_from n e s hold src = Some o) <-> checkValid_from n s src = None.
Proof.
  induction src as [|c r IH]; intros s hold.
  - cbn. destruct (eof n s); split; intros H; try reflexivity;
      try (eexists; reflexivity); try discriminate H.
    destruct H as [o H]. discriminate H.
  - cbn [compact_from checkValid_from].
    destruct (stepScanner n s c) as [s1 v].
    destruct v.
    12: { split; [intros [o H]; discriminate H|intros H; discriminate H]. }
    all: match goal with
         | |- context [compact_from _ ?b ?s' ?h _] =>
             specialize (IH s' h); destruct (compact_from n b s' h r) as [o|]
         end.
    all: split;
      [ intros [o' H]; try discriminate H; apply IH; eauto
      | intros H; apply IH in H; destruct H as [o' H]; try discriminate H;
        eexists; reflexivity ].
Qed.

(** ** Encode: success and output *)

(** The member that [Encode] writes for a raw field. *)
Lemma raw_member (p : RawMessage) (f : jctx.field) :
  jctx.omittable (marshalerEncoder (RawMessage_MarshalJSON p)) (len p =? 0)%nat f
  = match raw p with
    | [] => inr []
    | b => match compact maxNestingDepth true b with
           | Some out => inr (jctx.member false f out)
           | None => inl (MarshalerError SyntaxError)
           end
    end.
Proof.
  unfold jctx.omittable, marshalerEncoder, RawMessage_MarshalJSON, len.
  destruct p as [[|b p']|]; cbn [raw List.length Nat.eqb]; try reflexivity.
  destruct (compact maxNestingDepth true (b :: p')); reflexivity.
Qed.

Lemma deadline_member (d : time.Time) :
  0 <= time.nsec d < 10 ^ 9 ->
  if (time.Year (time.UTC d) <? 0) || (10000 <=? time.Year (time.UTC d))
  then marshalerEncoder (time.MarshalJSON (time.UTC d)) = inl (MarshalerError ErrYearRange)
  else exists tb, time.MarshalJSON (time.UTC d) = inr tb /\
                  marshalerEncoder (time.MarshalJSON (time.UTC d)) = inr tb.
Proof.
  intros Hns.
  destruct ((time.Year (time.UTC d) <? 0) || (10000 <=? time.Year (time.UTC d))) eqn:Ey.
  - unfold time.MarshalJSON. rewrite Ey. reflexivity.
  - apply orb_false_iff in Ey as [E1 E2]. apply Z.ltb_ge in E1. apply Z.leb_gt in E2.
    destruct (timeFacts.time_roundtrip (time.UTC d) time.zero eq_refl Hns (conj E1 E2))
      as (ds & Hm & Hpl & _).
    exists (dquote :: ds ++ [dquote]). split; [exact Hm|].
    rewrite Hm. unfold marshalerEncoder.
    rewrite (plain_literal_compact maxNestingDepth ds Hpl). reflexivity.
Qed.

Lemma three_parts (pre : bytes) (d p m : error + bytes) :
  (exists out,
     match d with
     | inl e => inl e
     | inr d =>
         match p with
         | inl e => inl e
         | inr p =>
             match m with
             | inl e => inl e
             | inr m => inr (pre ++ d ++ p ++ m ++ [ch "}"])
             end
         end
     end = (inr out : error + bytes)) <->
  (exists x, d = inr x) /\ (exists x, p = inr x) /\ (exists x, m = inr x).
Proof.
  destruct d as [e|d]; destruct p as [e'|p]; destruct m as [e''|m]; split;
    try (intros [out H]; discriminate H);
    try (intros ([x H] & _); discriminate H);
    try (intros (_ & [x H] & _); discriminate H);
    try (intros (_ & _ & [x H]); discriminate H).
  - intros _. repeat split; eexists; reflexivity.
  - intros _. eexists; reflexivity.
Qed.

Lemma raw_member_ok (p : RawMessage) (f : jctx.field) :
  (exists x, jctx.omittable (marshalerEncoder (RawMessage_MarshalJSON p))
               (len p =? 0)%nat f = inr x)
  <-> (raw p = [] \/ checkValid maxNestingDepth (raw p) = None).
Proof.
  rewrite raw_member.
  pose proof (compact_checkValid maxNestingDepth true (raw p) reset 0) as Hc.
  fold (compact maxNestingDepth true (raw p)) in Hc.
  fold (checkValid maxNestingDepth (raw p)) in Hc.
  destruct (raw p) as [|b0 b'] eqn:E.
  - split; [intros _; left; reflexivity|intros _; eexists; reflexivity].
  - destruct (compact maxNestingDepth true (b0 :: b')) as [o|].
    + split; [intros _; right; apply Hc; eauto|intros _; eexists; reflexivity].
    + split; [intros [x Hx]; discriminate Hx|].
      intros [Hx|Hx]; [discriminate Hx|]. apply Hc in Hx. destruct Hx as [o Hx].
      discriminate Hx.
Qed.

Lemma deadline_member_ok (vd : option time.Time) :
  match vd with Some t => 0 <= time.nsec t < 10 ^ 9 | None => True end ->
  (exists x, jctx.omittable
               (marshalerEncoder
                  (match option_map time.UTC vd with
                   | Some t => time.MarshalJSON t
                   | None => inr (bs "null")
                   end))
               (match option_map time.UTC vd with None => true | Some _ => false end)
               jctx.fDeadline = inr x)
  <-> match vd with
      | Some d => 0 <= time.Year (time.UTC d) < 10000
      | None => True
      end.
Proof.
  intros Hns. destruct vd as [d|]; cbn [option_map]; unfold jctx.omittable.
  - pose proof (deadline_member d Hns) as Hd.
    destruct ((time.Year (time.UTC d) <? 0) || (10000 <=? time.Year (time.UTC d))) eqn:Ey.
    + rewrite Hd. split; [intros [x H]; discriminate H|].
      intros Hy. apply orb_true_iff in Ey as [Ey|Ey];
        [apply Z.ltb_lt in Ey|apply Z.leb_le in Ey]; lia.
    + destruct Hd as (tb & _ & Hd). rewrite Hd.
      apply orb_false_iff in Ey as [E1 E2]. apply Z.ltb_ge in E1. apply Z.leb_gt in E2.
      split; [intros _; lia|intros _; eexists; reflexivity].
  - split; [intros _; exact I|intros _; eexists; reflexivity].
Qed.

(** When the model's [Encode] succeeds, with the scanner's limit itself as
    the bound on nesting. *)
Lemma Encode_ok_iff (ctx : context.Context) (method : string) (P : RawMessage) :
  match context.Deadline ctx with Some d => 0 <= time.nsec d < 10 ^ 9 | None => True end ->
  (exists out, jctx.Encode ctx method P = (Some out, None)) <->
  (match context.Deadline ctx with
   | Some d => 0 <= time.Year (time.UTC d) < 10000
   | None => True
   end /\
   (raw P = [] \/ checkValid maxNestingDepth (raw P) = None) /\
   (attachedBytes ctx = [] \/ checkValid maxNestingDepth (attachedBytes ctx) = None)).
Proof.
  intros Hns.
  set (M := match context.Value_metadataKey ctx with Some m => m | None => None end).
  assert (HrM : attachedBytes ctx = raw M).
  { unfold attachedBytes, M. destruct (context.Value_metadataKey ctx); reflexivity. }
  rewrite HrM.
  rewrite <- (deadline_member_ok (context.Deadline ctx) Hns).
  rewrite <- (raw_member_ok P jctx.fPayload), <- (raw_member_ok M jctx.fMetadata).
  rewrite <- (three_parts (jctx.member true jctx.fV (encodeString jctx.wireVersion))).
  rewrite Encode_wire. fold M.
  unfold jctx.Marshal_wireContext. cbn [jctx.V jctx.Deadline jctx.Payload jctx.Metadata].
  match goal with
  | |- (exists _, match ?X with inl _ => _ | inr _ => _ end = _) <-> (exists _, ?Y = _) =>
      change X with Y; destruct Y as [e|o]
  end.
  - split; intros [out H]; discriminate H.
  - split; intros _; eexists; reflexivity.
Qed.

Lemma checkValid_mono (n n' : Z) (b : bytes) :
  n <= n' -> checkValid n b = None -> checkValid n' b = None.
Proof.
  intros Hn H.
  destruct (proj2 (compact_checkValid n true b reset 0) H) as [o Ho].
  apply (compact_checkValid n' true b reset 0). exists o.
  exact (compact_mono n n' true b Hn reset 0%nat o Ho).
Qed.

(** X10. [Encode] succeeds whenever the deadline, if there is one, falls in
    the years 0 to 9999 of UTC and the parameters and the attached metadata
    are each empty or valid JSON nested less than 10000 deep; and whenever
    [Encode] succeeds, the deadline falls in those years and the parameters
    and the metadata are each empty or valid JSON. *)
Theorem X10_Encode_succeeds (ctx : context.Context) (method : string) (P : RawMessage) :
  match context.Deadline ctx with Some d => 0 <= time.nsec d < 10 ^ 9 | None => True end ->
  (match context.Deadline ctx with
   | Some d => 0 <= time.Year (time.UTC d) < 10000
   | None => True
   end /\
   (raw P = [] \/ checkValid (maxNestingDepth - 1) (raw P) = None) /\
   (attachedBytes ctx = [] \/
    checkValid (maxNestingDepth - 1) (attachedBytes ctx) = None) ->
   exists out, jctx.Encode ctx method P = (Some out, None)) /\
  ((exists out, jctx.Encode ctx method P = (Some out, None)) ->
   match context.Deadline ctx with
   | Some d => 0 <= time.Year (time.UTC d) < 10000
   | None => True
   end /\
   (raw P = [] \/ checkValid maxNestingDepth (raw P) = None) /\
   (attachedBytes ctx = [] \/ checkValid maxNestingDepth (attachedBytes ctx) = None)).
Proof.
  intros Hns. pose proof (Encode_ok_iff ctx method P Hns) as [Hto Hfrom].
  split; [|exact Hto].
  intros (Hy & HP & HM). apply Hfrom. split; [exact Hy|].
  split.
  - destruct HP as [HP|HP]; [left; exact HP|right].
    apply (checkValid_mono (maxNestingDepth - 1)); [lia|exact HP].
  - destruct HM as [HM|HM]; [left; exact HM|right].
    apply (checkValid_mono (maxNestingDepth - 1)); [lia|exact HM].
Qed.

Lemma X10_Encode_succeeds_witness :
  (0 <= time.Year (time.UTC (time.mkTime 63393490800 150 (time.FixedZone 18000))) < 10000 /\
   (js "[1, {'k': 'v'} ]" = [] \/
    checkValid (maxNestingDepth - 1) (js "[1, {'k': 'v'} ]") = None) /\
   (attachedBytes ctxExample = [] \/
    checkValid (maxNestingDepth - 1) (attachedBytes ctxExample) = None) ->
   exists out, jctx.Encode ctxExample "m" (Some (js "[1, {'k': 'v'} ]")) = (Some out, None)) /\
  ((exists out, jctx.Encode ctxExample "m" (Some (js "[1, {'k': 'v'} ]")) = (Some out, None)) ->
   0 <= time.Year (time.UTC (time.mkTime 63393490800 150 (time.FixedZone 18000))) < 10000 /\
   (js "[1, {'k': 'v'} ]" = [] \/ checkValid maxNestingDepth (js "[1, {'k': 'v'} ]") = None) /\
   (attachedBytes ctxExample = [] \/
    checkValid maxNestingDepth (attachedBytes ctxExample) = None)).
Proof.
  apply (X10_Encode_succeeds ctxExample "m" (Some (js "[1, {'k': 'v'} ]"))).
  cbn. lia.
Defined.

Lemma Encode_raw (ctx ctx' : context.Context) (method method' : string) (P P' : RawMessage) :
  option_map time.UTC (context.Deadline ctx) = option_map time.UTC (context.Deadline ctx') ->
  attachedBytes ctx = attachedBytes ctx' ->
  raw P = raw P' ->
  jctx.Encode ctx method P = jctx.Encode ctx' method' P'.
Proof.
  intros Hd Hm Hp. rewrite !Encode_wire, Hd. unfold jctx.Marshal_wireContext.
  cbn [jctx.V jctx.Deadline jctx.Payload jctx.Metadata].
  rewrite !raw_member, Hp.
  unfold attachedBytes in Hm.
  replace (raw match context.Value_metadataKey ctx with Some m => m | None => None end)
    with (raw match context.Value_metadataKey ctx' with Some m => m | None => None end).
  - reflexivity.
  - destruct (context.Value_metadataKey ctx), (context.Value_metadataKey ctx'); auto.
Qed.

Lemma Equal_UTC (d d' : time.Time) :
  time.Equal d d' = true -> time.UTC d = time.UTC d'.
Proof.
  unfold time.Equal, time.UTC. intros H. apply andb_true_iff in H as [H1 H2].
  apply Z.eqb_eq in H1, H2. rewrite H1, H2. reflexivity.
Qed.

(** X11. [Encode] reads the context only through the instant of its deadline
    and the bytes of its metadata, and the parameters only through their
    bytes: the zone of the deadline, the method name, other values of the
    context, and whether an empty raw message is nil make no difference. *)
Theorem X11_Encode_reads (ctx ctx' : context.Context) (method method' : string)
  (P P' : RawMessage) :
  match context.Deadline ctx, context.Deadline ctx' with
  | Some d, Some d' => time.Equal d d' = true
  | None, None => True
  | _, _ => False
  end ->
  attachedBytes ctx = attachedBytes ctx' ->
  raw P = raw P' ->
  jctx.Encode ctx method P = jctx.Encode ctx' method' P'.
Proof.
  intros Hd Hm Hp. apply Encode_raw; auto.
  destruct (context.Deadline ctx) as [d|], (context.Deadline ctx') as [d'|];
    try contradiction; [|reflexivity].
  cbn [option_map]. rewrite (Equal_UTC d d' Hd). reflexivity.
Qed.

Lemma X11_Encode_reads_witness :
  jctx.Encode
    (context.valueCtx (context.metaCtx (context.timerCtx ctxOld plus5) None) 1 2)
    "m" (Some [])
  = jctx.Encode (context.timerCtx context.Background (time.UTC plus5)) "n" None.
Proof.
  apply (X11_Encode_reads
           (context.valueCtx (context.metaCtx (context.timerCtx ctxOld plus5) None) 1 2)
           (context.timerCtx context.Background (time.UTC plus5)) "m" "n" (Some []) None).
  - reflexivity.
  - reflexivity.
  - reflexivity.
Defined.

Lemma Encode_payload (ctx : context.Context) (method : string) (P : RawMessage) (pb : bytes) :
  compact maxNestingDepth true (raw P) = Some pb ->
  jctx.Encode ctx method P = jctx.Encode ctx method (Some pb).
Proof.
  intros Hc. rewrite !Encode_wire. unfold jctx.Marshal_wireContext.
  cbn [jctx.V jctx.Deadline jctx.Payload jctx.Metadata].
  rewrite !raw_member. cbn [raw].
  pose proof (compact_nonempty _ _ _ Hc) as Hne.
  pose proof (compact_idem _ _ _ Hc) as Hi.
  destruct (raw P) as [|b0 b'] eqn:E; [discriminate Hc|]. rewrite Hc.
  destruct pb; [contradiction|]. rewrite Hi. reflexivity.
Qed.

(** X12. [Encode] sees the parameters only up to compaction: the parameters
    and their compacted form give the same result. *)
Theorem X12_Encode_compacted (ctx : context.Context) (method : string) (P : RawMessage)
  (pb : bytes) :
  compact maxNestingDepth true (raw P) = Some pb ->
  jctx.Encode ctx method P = jctx.Encode ctx method (Some pb).
Proof.
  exact (Encode_payload ctx method P pb).
Qed.

Lemma X12_Encode_compacted_witness :
  jctx.Encode ctxExample "m" (Some (js " [1, {'k': '<v>'} ] "))
  = jctx.Encode ctxExample "m" (Some (bs "[1,{" ++ js "'k':'" ++ ch "\" :: bs "u003cv"
                                        ++ ch "\" :: bs "u003e" ++ js "'}]")).
Proof.
  apply (X12_Encode_compacted ctxExample "m" (Some (js " [1, {'k': '<v>'} ] "))).
  vm_compute. reflexivity.
Defined.

Lemma envelope_valid (n : Z) (f : jctx.field) (v : bytes) (ms : list (jctx.field * bytes)) :
  n + 1 = maxNestingDepth ->
  good n v -> Forall (fun m => good n (snd m)) ms ->
  checkValid maxNestingDepth (envelope f v ms) = None.
Proof.
  intros Hn Hv Hms. unfold checkValid, envelope.
  apply (checkValid_quiet maxNestingDepth _ reset (mkScanner stateEndTop [])).
  - cbn [quietRun].
    change (stepScanner maxNestingDepth reset (ch "{"))
      with (mkScanner stateBeginStringOrEmpty [parseObjectKey], scanBeginObject).
    cbn [atLeastSkipSpace].
    apply (quietRun_members n Hn ms f v); auto. left. reflexivity.
  - discriminate.
Qed.

Lemma present_good (n : Z) (f : jctx.field) (b : bytes) :
  b = [] \/ good n b -> Forall (fun m => good n (snd m)) (present f b).
Proof.
  intros H. unfold present. destruct b; [constructor|].
  destruct H as [H|H]; [discriminate|]. constructor; [exact H|constructor].
Qed.

(** X13. For a deadline in range and parameters and metadata that are empty
    or compact JSON nested less deep than the limit, [Encode] returns an
    envelope that is itself valid JSON. *)
Theorem X13_Encode_valid_json (ctx : context.Context) (method : string) (P : RawMessage) :
  match context.Deadline ctx with Some d => okTime d | None => True end ->
  raw P = [] \/ okBytes (raw P) ->
  attachedBytes ctx = [] \/ okBytes (attachedBytes ctx) ->
  exists out,
    jctx.Encode ctx method P = (Some out, None) /\
    checkValid maxNestingDepth out = None.
Proof.
  intros HD HP HM.
  destruct (roundtrip_general ctx context.Background method method P HD HP HM)
    as (tb & Htb & HE & _).
  cbv zeta in *. eexists. split; [exact HE|].
  apply (envelope_valid (maxNestingDepth - 1)); [lia| |].
  - apply (compact_fixed_quiet _ _ reset). reflexivity.
  - repeat (apply Forall_app; split); apply present_good.
    + destruct (context.Deadline ctx) as [d|]; [|left; exact Htb].
      right. destruct HD as [Hns Hy].
      destruct (timeFacts.time_roundtrip (time.UTC d) time.zero eq_refl Hns Hy)
        as (ds & Hm & Hpl & _).
      destruct Htb as [Htb _]. rewrite Hm in Htb. injection Htb as <-.
      apply (compact_fixed_quiet _ _ reset). apply plain_literal_compact. exact Hpl.
    + destruct HP as [HP|HP]; [left; exact HP|right; apply okBytes_good; exact HP].
    + destruct HM as [HM|HM]; [left; exact HM|right; apply okBytes_good; exact HM].
Qed.

Lemma X13_Encode_valid_json_witness :
  exists out,
    jctx.Encode ctxExample "m" (Some (js "[1,{'k':'v'}]")) = (Some out, None) /\
    checkValid maxNestingDepth out = None.
Proof.
  apply (X13_Encode_valid_json ctxExample "m" (Some (js "[1,{'k':'v'}]"))).
  - change (okTime (time.mkTime 63393490800 150 (time.FixedZone 18000))).
    split; [cbn [time.nsec]; lia|].
    replace (time.Year _) with 2009 by (vm_compute; reflexivity). lia.
  - right. vm_compute. reflexivity.
  - right. vm_compute. reflexivity.
Defined.

(** ** Encode and Decode together *)

Lemma roundtrip_full (ctx base : context.Context) (method method' : string)
  (P P' : RawMessage) :
  match context.Deadline ctx with Some d => okTime d | None => True end ->
  (raw P = [] /\ P' = None) \/
  (exists pb, compact (maxNestingDepth - 1) true (raw P) = Some pb /\ P' = Some pb) ->
  attachedBytes ctx = [] \/ okBytes (attachedBytes ctx) ->
  exists out,
    jctx.Encode ctx method P = (Some out, None) /\
    jctx.Decode base method' (Some out) = (Some (derived base ctx), P', None).
Proof.
  intros HD HP HM.
  destruct HP as [[HP ->] | (pb & Hc & ->)].
  - destruct (roundtrip_general ctx base method method' P HD (or_introl HP) HM)
      as (tb & _ & HE & HDec).
    cbv zeta in *. eexists. split; [exact HE|].
    rewrite HDec. unfold decodedPayload. rewrite HP. reflexivity.
  - assert (Hok : okBytes pb) by (apply (compact_idem _ _ _ Hc)).
    assert (Hc' : compact maxNestingDepth true (raw P) = Some pb).
    { apply (compact_mono (maxNestingDepth - 1)); [lia|exact Hc]. }
    destruct (roundtrip_general ctx base method method' (Some pb) HD (or_intror Hok) HM)
      as (tb & _ & HE & HDec).
    cbv zeta in *. eexists. split.
    + rewrite (Encode_payload ctx method P pb Hc'). exact HE.
    + rewrite HDec. unfold decodedPayload. cbn [raw].
      pose proof (compact_nonempty _ _ _ Hc). destruct pb; [contradiction|reflexivity].
Qed.

(** X14. For a sending context whose deadline, if any, falls in the years
    0 to 9999 and whose metadata is empty or compact JSON nested less than
    10000 deep, and for any parameters that are valid JSON nested less than
    10000 deep, [Encode] succeeds and [Decode] of its result returns the
    compacted form of the parameters, on any base context. *)
Theorem X14_roundtrip_compacts (ctx base : context.Context) (method method' : string)
  (P : RawMessage) (pb : bytes) :
  match context.Deadline ctx with Some d => okTime d | None => True end ->
  attachedBytes ctx = [] \/ okBytes (attachedBytes ctx) ->
  compact (maxNestingDepth - 1) true (raw P) = Some pb ->
  exists out ctx',
    jctx.Encode ctx method P = (Some out, None) /\
    jctx.Decode base method' (Some out) = (Some ctx', Some pb, None).
Proof.
  intros HD HM Hc.
  destruct (roundtrip_full ctx base method method' P (Some pb) HD) as (out & HE & HDec);
    [right; eauto|exact HM|].
  eauto.
Qed.

Lemma X14_roundtrip_compacts_witness :
  exists out ctx',
    jctx.Encode ctxExample "m" (Some (js " [1, {'k': 'v'} ] ")) = (Some out, None) /\
    jctx.Decode ctxTimer "m" (Some out) = (Some ctx', Some (js "[1,{'k':'v'}]"), None).
Proof.
  apply (X14_roundtrip_compacts ctxExample ctxTimer "m" "m" (Some (js " [1, {'k': 'v'} ] "))).
  - change (okTime (time.mkTime 63393490800 150 (time.FixedZone 18000))).
    split; [cbn [time.nsec]; lia|].
    replace (time.Year _) with 2009 by (vm_compute; reflexivity). lia.
  - right. vm_compute. reflexivity.
  - vm_compute. reflexivity.
Defined.

Lemma derived_merged (base ctx : context.Context) :
  context.Deadline (derived base ctx)
  = decodedDeadline (context.Deadline base) (context.Deadline ctx) /\
  context.Value_metadataKey (derived base ctx)
  = match attachedBytes ctx with
    | [] => context.Value_metadataKey base
    | m => Some (Some m)
    end.
Proof.
  unfold derived, decodedDeadline, context.WithDeadline. cbv zeta.
  destruct (attachedBytes ctx) as [|mb m']; destruct (context.Deadline ctx) as [d|];
    try destruct (time.IsZero d); cbn [context.Deadline context.Value_metadataKey];
    try (split; reflexivity);
    destruct (context.Deadline base) as [cur|] eqn:Eb;
    try destruct (time.Before cur (time.UTC d));
    cbn [context.Deadline context.Value_metadataKey]; rewrite ?Eb; split; reflexivity.
Qed.

(** X15. For a sending context whose deadline, if any, falls in the years
    0 to 9999, with parameters and metadata that are each empty or compact
    JSON nested less than 10000 deep, [Decode] of the result of [Encode] on
    a base context that has a deadline or metadata of its own gives: as
    deadline the earlier of the two, a zero deadline of the sender counting
    as none, and as metadata the sender's when that is not empty, else the
    base context's. *)
Theorem X15_roundtrip_onto_base (ctx base : context.Context) (method method' : string)
  (P : RawMessage) :
  match context.Deadline ctx with Some d => okTime d | None => True end ->
  raw P = [] \/ okBytes (raw P) ->
  attachedBytes ctx = [] \/ okBytes (attachedBytes ctx) ->
  exists out ctx' P',
    jctx.Encode ctx method P = (Some out, None) /\
    jctx.Decode base method' (Some out) = (Some ctx', P', None) /\
    context.Deadline ctx'
    = decodedDeadline (context.Deadline base) (context.Deadline ctx) /\
    context.Value_metadataKey ctx'
    = match attachedBytes ctx with
      | [] => context.Value_metadataKey base
      | m => Some (Some m)
      end.
Proof.
  intros HD HP HM.
  destruct (roundtrip_general ctx base method method' P HD HP HM) as (tb & _ & HE & HDec).
  cbv zeta in *. eexists _, _, _. split; [exact HE|]. split; [exact HDec|].
  apply derived_merged.
Qed.

Lemma X15_roundtrip_onto_base_witness :
  exists out ctx' P',
    jctx.Encode (context.timerCtx context.Background plus5) "m" (Some (js "[1]"))
    = (Some out, None) /\
    jctx.Decode (context.timerCtx ctxOld time.zero) "m" (Some out) = (Some ctx', P', None) /\
    context.Deadline ctx' = Some time.zero /\
    context.Value_metadataKey ctx' = Some (Some (js "'old'")).
Proof.
  apply (X15_roundtrip_onto_base (context.timerCtx context.Background plus5)
           (context.timerCtx ctxOld time.zero) "m" "m" (Some (js "[1]"))).
  - split; [cbn [time.nsec plus5]; lia|].
    replace (time.Year _) with 2009 by (vm_compute; reflexivity). lia.
  - right. vm_compute. reflexivity.
  - left. reflexivity.
Defined.

(** X16. For a context whose deadline is absent or is not the zero time
    and falls in the years 0 to 9999, with parameters and metadata that are
    each empty or compact JSON nested less than 10000 deep: encoding what
    [Decode] returned for the result of [Encode], on a base context without
    deadline and metadata, gives that envelope again, byte for byte. *)
Theorem X16_reencode_same (ctx base : context.Context) (method method' : string)
  (P : RawMessage) :
  match context.Deadline ctx with
  | Some d => okTime d /\ time.IsZero d = false
  | None => True
  end ->
  raw P = [] \/ okBytes (raw P) ->
  attachedBytes ctx = [] \/ okBytes (attachedBytes ctx) ->
  context.Deadline base = None ->
  context.Value_metadataKey base = None ->
  exists out ctx' P',
    jctx.Encode ctx method P = (Some out, None) /\
    jctx.Decode base method' (Some out) = (Some ctx', P', None) /\
    jctx.Encode ctx' method' P' = (Some out, None).
Proof.
  intros HD HP HM Hbd Hbm.
  destruct (roundtrip_general ctx base method method' P) as (tb & _ & HE & HDec); auto.
  { destruct (context.Deadline ctx); tauto. }
  cbv zeta in *. eexists _, (derived base ctx), (decodedPayload P).
  split; [exact HE|]. split; [exact HDec|].
  rewrite <- HE. apply Encode_raw.
  - destruct (derived_merged base ctx) as [Hd _]. rewrite Hd.
    unfold decodedDeadline. rewrite Hbd.
    destruct (context.Deadline ctx) as [d|]; [|reflexivity].
    destruct HD as [_ Hz]. rewrite Hz. reflexivity.
  - destruct (derived_merged base ctx) as [_ Hv].
    unfold attachedBytes at 1. rewrite Hv, Hbm.
    destruct (attachedBytes ctx); reflexivity.
  - unfold decodedPayload. destruct (raw P); reflexivity.
Qed.

Lemma X16_reencode_same_witness :
  exists out ctx' P',
    jctx.Encode ctxExample "m" (Some (js "[1,{'k':'v'}]")) = (Some out, None) /\
    jctx.Decode context.Background "n" (Some out) = (Some ctx', P', None) /\
    jctx.Encode ctx' "n" P' = (Some out, None).
Proof.
  apply (X16_reencode_same ctxExample context.Background "m" "n" (Some (js "[1,{'k':'v'}]"))).
  - change (okTime (time.mkTime 63393490800 150 (time.FixedZone 18000)) /\
            time.IsZero (time.mkTime 63393490800 150 (time.FixedZone 18000)) = false).
    split; [split|reflexivity]; [cbn [time.nsec]; lia|].
    replace (time.Year _) with 2009 by (vm_compute; reflexivity). lia.
  - right. vm_compute. reflexivity.
  - right. vm_compute. reflexivity.
  - reflexivity.
  - reflexivity.
Defined.

(** ** Metadata from end to end *)



(** X18. The nil mask of [WithMetadata(ctx, nil)] is not transmitted: for a
    context whose deadline, if any, falls in the years 0 to 9999, and
    parameters that are empty or compact JSON nested less than 10000 deep,
    the context after [Encode] and [Decode] has the metadata of the
    receiving base context. *)
Theorem X18_mask_not_transmitted (T : Type) (cT : Codec T)
  (ctx base : context.Context) (method method' : string) (P : RawMessage) :
  match context.Deadline ctx with Some d => okTime d | None => True end ->
  raw P = [] \/ okBytes (raw P) ->
  exists out ctx2 P',
    jctx.Encode (fst (jctx.WithMetadata ctx (@None T))) method P = (Some out, None) /\
    jctx.Decode base method' (Some out) = (Some ctx2, P', None) /\
    context.Value_metadataKey ctx2 = context.Value_metadataKey base.
Proof.
  intros HD HP.
  set (ctx1 := fst (jctx.WithMetadata ctx (@None T))).
  destruct (roundtrip_general ctx1 base method method' P) as (tb & _ & HE & HDec);
    [exact HD|exact HP|left; reflexivity|].
  cbv zeta in *. eexists _, (derived base ctx1), _.
  split; [exact HE|]. split; [exact HDec|].
  destruct (derived_merged base ctx1) as [_ Hv]. rewrite Hv. reflexivity.
Qed.

Lemma X18_mask_not_transmitted_witness :
  exists out ctx2 P',
    jctx.Encode (fst (jctx.WithMetadata ctxExample (@None RawMessage))) "m" (Some (js "[1]"))
    = (Some out, None) /\
    jctx.Decode ctxOld "m" (Some out) = (Some ctx2, P', None) /\
    context.Value_metadataKey ctx2 = context.Value_metadataKey ctxOld.
Proof.
  apply (X18_mask_not_transmitted RawMessage RawMessage_Codec ctxExample ctxOld "m" "m"
           (Some (js "[1]"))).
  - change (okTime (time.mkTime 63393490800 150 (time.FixedZone 18000))).
    split; [cbn [time.nsec]; lia|].
    replace (time.Year _) with 2009 by (vm_compute; reflexivity). lia.
  - right. vm_compute. reflexivity.
Defined.

Lemma rescanNumber_all (n : Z) (p : bytes) :
  forall f s',
    inNumber f = true ->
    quietRun n (mkScanner f []) p = Some s' ->
    rescanNumber p = (p, []).
Proof.
  induction p as [|c r IH]; intros f s' Hf Hq; [reflexivity|].
  simpl in Hq. destruct (stepScanner n (mkScanner f []) c) as [s1 op] eqn:Es.
  destruct (atLeastSkipSpace op) eqn:Eo; [discriminate|].
  destruct (number_step n f c s1 op Hf Es Eo) as (Hc & Hf1 & Hst).
  destruct s1 as [f1 st1]. simpl in Hst, Hf1. subst st1.
  cbn [rescanNumber]. rewrite Hc, (IH _ _ Hf1 Hq). reflexivity.
Qed.

Lemma skip_top (n : Z) (data : bytes) :
  forall s s',
    parseState s <> [] ->
    quietRun n s data = Some s' -> parseState s' = [] ->
    exists op, skip n 1 s data = Some (s', op, data, []).
Proof.
  induction data as [|c r IH]; intros s s' Hne Hq He.
  - simpl in Hq. injection Hq as <-. contradiction.
  - simpl in Hq. destruct (stepScanner n s c) as [s1 op] eqn:Es.
    destruct (atLeastSkipSpace op) eqn:Eo; [discriminate|].
    cbn [skip]. rewrite Es.
    destruct (parseState s1) as [|p1 st1] eqn:E1.
    + assert (Hcomp : complete s1 = true).
      { clear - Es E1 Hne Eo. destruct s as [f [|p st]]; [contradiction|].
        destruct f; unfold_step; break_hyp Es; injection Es as <- <-;
          try discriminate; reflexivity. }
      pose proof (quietRun_complete n s1 s' r Hcomp Hq) as ->.
      simpl in Hq. injection Hq as <-.
      exists op. reflexivity.
    + destruct (IH s1 s' ltac:(rewrite E1; discriminate) Hq He) as (op' & Hk).
      exists op'. cbn [List.length Nat.ltb Nat.leb]. rewrite Hk. reflexivity.
Qed.

(** [json.Unmarshal] into a raw message returns a text that is scanned
    without a skipped byte as it is. *)
Lemma Unmarshal_raw_good (data : bytes) (m : RawMessage) :
  good maxNestingDepth data -> Unmarshal_RawMessage data m = (Some data, None).
Proof.
  intros (s' & Hq & He). unfold Unmarshal_RawMessage.
  unfold checkValid. rewrite (checkValid_quiet _ _ _ _ Hq He).
  destruct data as [|b v'].
  { simpl in Hq. injection Hq as <-. exfalso. apply He. reflexivity. }
  cbn [quietRun] in Hq.
  destruct (stepScanner maxNestingDepth reset b) as [s1 op] eqn:Es.
  destruct (atLeastSkipSpace op) eqn:Eo; [discriminate|].
  rewrite (scanWhile_quiet _ _ _ _ _ v' Es Eo).
  assert (Hb : objBase <> []) by discriminate.
  destruct (step_lift maxNestingDepth objBase reset s1 b op Hb eq_refl eq_refl Es Eo)
    as [_ Hc1].
  unfold reset in Es. unfold_step_in Es.
  break_hyp Es. all: try (injection Es as <- <-). all: try discriminate.
  all: repeat match goal with
    | H : (_ =? _) = true |- _ => apply Z.eqb_eq in H; subst
    end.
  - destruct (skip_top maxNestingDepth v' (mkScanner stateBeginStringOrEmpty [parseObjectKey]) s')
      as (op' & Hk); [discriminate|exact Hq| |].
    { apply (eof_ok_stack maxNestingDepth); auto.
      destruct (quietRun_lift maxNestingDepth objBase v' Hb _ s' Hc1 (or_introl eq_refl) Hq);
        auto. }
    cbn [parseState List.length]. rewrite Hk. reflexivity.
  - destruct (skip_top maxNestingDepth v' (mkScanner stateBeginValueOrEmpty [parseArrayValue]) s')
      as (op' & Hk); [discriminate|exact Hq| |].
    { apply (eof_ok_stack maxNestingDepth); auto.
      destruct (quietRun_lift maxNestingDepth objBase v' Hb _ s' Hc1 (or_introl eq_refl) Hq);
        auto. }
    cbn [parseState List.length]. rewrite Hk. reflexivity.
  - pose proof (rescanString_quiet maxNestingDepth [] v' stateInString s' eq_refl Hq He) as Hr.
    cbn beta iota in Hr. rewrite app_nil_r in Hr.
    unfold rescanLiteral. change (dquote =? dquote) with true. cbn beta iota.
    rewrite Hr. reflexivity.
  - pose proof (rescanNumber_all maxNestingDepth v' stateNeg s' eq_refl Hq) as Hr.
    unfold rescanLiteral. change (ch "-" =? dquote) with false.
    change (isDigit (ch "-") || (ch "-" =? ch "-")) with true. cbn beta iota.
    rewrite Hr. reflexivity.
  - pose proof (rescanNumber_all maxNestingDepth v' state0 s' eq_refl Hq) as Hr.
    unfold rescanLiteral. change (ch "0" =? dquote) with false.
    change (isDigit (ch "0") || (ch "0" =? ch "-")) with true. cbn beta iota.
    rewrite Hr. reflexivity.
  - pose proof (keyword_quiet maxNestingDepth stateT v' s' Hq He) as Hr.
    cbn beta iota in Hr. subst v'. reflexivity.
  - pose proof (keyword_quiet maxNestingDepth stateF v' s' Hq He) as Hr.
    cbn beta iota in Hr. subst v'. reflexivity.
  - pose proof (keyword_quiet maxNestingDepth stateN v' s' Hq He) as Hr.
    cbn beta iota in Hr. subst v'. reflexivity.
  - pose proof (rescanNumber_all maxNestingDepth v' state1 s' eq_refl Hq) as Hr.
    assert (Hdig : isDigit b = true).
    { match goal with
      | H : (_ && _) = true |- _ =>
          apply andb_true_iff in H as [H1 H2]; apply Z.leb_le in H1, H2;
          unfold ch in H1, H2; simpl in H1, H2; unfold isDigit;
          apply andb_true_iff; split; apply Z.leb_le; lia
      end. }
    unfold rescanLiteral.
    repeat match goal with H : (b =? _) = false |- _ => rewrite H end.
    rewrite Hdig. cbn [orb]. cbn beta iota. rewrite Hr. reflexivity.
Qed.

(** X19. Metadata given as raw JSON text is stored in compacted form, and
    [UnmarshalMetadata] into a raw message returns exactly the stored
    bytes. *)
Theorem X19_metadata_raw_fidelity (ctx : context.Context) (text bits : bytes)
  (target : RawMessage) :
  compact maxNestingDepth true text = Some bits ->
  snd (jctx.WithMetadata ctx (Some (Some text : RawMessage))) = None /\
  jctx.UnmarshalMetadata (fst (jctx.WithMetadata ctx (Some (Some text : RawMessage)))) target
  = (Some bits, None).
Proof.
  intros Hc.
  assert (Hm : Marshal (Some text : RawMessage) = inr bits).
  { cbn [Marshal RawMessage_Codec RawMessage_MarshalJSON marshalerEncoder].
    rewrite Hc. reflexivity. }
  unfold jctx.WithMetadata. rewrite Hm. cbn [fst snd]. split; [reflexivity|].
  unfold jctx.UnmarshalMetadata. cbn [context.Value_metadataKey context.WithValue_metadataKey].
  cbn [Unmarshal RawMessage_Codec].
  apply Unmarshal_raw_good.
  apply (compact_fixed_quiet maxNestingDepth bits reset).
  apply (compact_idem _ _ _ Hc).
Qed.

Lemma X19_metadata_raw_fidelity_witness :
  snd (jctx.WithMetadata ctxOld (Some (Some (js " { 'a' : [1, 2.5e3, true], 'b' : 'x' } ")
                                        : RawMessage))) = None /\
  jctx.UnmarshalMetadata
    (fst (jctx.WithMetadata ctxOld (Some (Some (js " { 'a' : [1, 2.5e3, true], 'b' : 'x' } ")
                                            : RawMessage))))
    (None : RawMessage)
  = (Some (js "{'a':[1,2.5e3,true],'b':'x'}"), None).
Proof.
  apply (X19_metadata_raw_fidelity ctxOld (js " { 'a' : [1, 2.5e3, true], 'b' : 'x' } ")
           (js "{'a':[1,2.5e3,true],'b':'x'}") None).
  vm_compute. reflexivity.
Defined.

(** ** Deadlines across zones *)

Lemma Encode_meta (ctx : context.Context) (method : string) (P : RawMessage) (mb : bytes) :
  compact maxNestingDepth true (attachedBytes ctx) = Some mb ->
  jctx.Encode ctx method P = jctx.Encode (context.metaCtx ctx (Some mb)) method P.
Proof.
  intros Hc. rewrite !Encode_wire. cbn [context.Deadline context.Value_metadataKey].
  unfold jctx.Marshal_wireContext.
  cbn [jctx.V jctx.Deadline jctx.Payload jctx.Metadata].
  rewrite !raw_member. cbn [raw].
  pose proof (compact_nonempty _ _ _ Hc) as Hne.
  pose proof (compact_idem _ _ _ Hc) as Hi.
  replace (raw match context.Value_metadataKey ctx with Some m => m | None => None end)
    with (attachedBytes ctx)
    by (unfold attachedBytes; destruct (context.Value_metadataKey ctx); reflexivity).
  destruct (attachedBytes ctx) as [|b0 b'] eqn:E; [discriminate Hc|]. rewrite Hc.
  destruct mb; [contradiction|]. rewrite Hi. reflexivity.
Qed.

Lemma valid_compacts (n : Z) (b : bytes) :
  checkValid n b = None -> exists o, compact n true b = Some o.
Proof.
  intros H. apply (compact_checkValid n true b reset 0). exact H.
Qed.

(** The round trip for any parameters and metadata that are valid JSON
    nested less deep than the limit: the envelope holds their compact
    forms. *)
Lemma roundtrip_any (ctx base : context.Context) (method method' : string)
  (P : RawMessage) :
  match context.Deadline ctx with Some d => okTime d | None => True end ->
  raw P = [] \/ checkValid (maxNestingDepth - 1) (raw P) = None ->
  attachedBytes ctx = [] \/ checkValid (maxNestingDepth - 1) (attachedBytes ctx) = None ->
  exists tb pb mb,
    match context.Deadline ctx with
    | Some d => time.MarshalJSON (time.UTC d) = inr tb /\ tb <> []
    | None => tb = []
    end /\
    (raw P = [] /\ pb = [] \/ compact (maxNestingDepth - 1) true (raw P) = Some pb) /\
    (attachedBytes ctx = [] /\ mb = [] \/
     compact (maxNestingDepth - 1) true (attachedBytes ctx) = Some mb) /\
    let out := envelope jctx.fV (encodeString jctx.wireVersion)
                 (present jctx.fDeadline tb ++ present jctx.fPayload pb
                    ++ present jctx.fMetadata mb) in
    jctx.Encode ctx method P = (Some out, None) /\
    jctx.Decode base method' (Some out)
    = (Some (derived base (context.metaCtx ctx (Some mb))), decodedPayload (Some pb), None).
Proof.
  intros HD HP HM.
  assert (Hpb : exists pb,
             (raw P = [] /\ pb = [] \/ compact (maxNestingDepth - 1) true (raw P) = Some pb) /\
             (pb = [] \/ okBytes pb) /\
             forall c, jctx.Encode c method P = jctx.Encode c method (Some pb)).
  { destruct HP as [HP|HP].
    - exists []. split; [left; auto|]. split; [left; reflexivity|].
      intros c. apply Encode_raw; auto.
    - destruct (valid_compacts _ _ HP) as [pb Hc]. exists pb.
      split; [right; exact Hc|]. split; [right; exact (compact_idem _ _ _ Hc)|].
      intros c. apply Encode_payload.
      apply (compact_mono (maxNestingDepth - 1)); [lia|exact Hc]. }
  destruct Hpb as (pb & Hpb & Hokp & HEp).
  assert (Hmb : exists mb,
             (attachedBytes ctx = [] /\ mb = [] \/
              compact (maxNestingDepth - 1) true (attachedBytes ctx) = Some mb) /\
             (mb = [] \/ okBytes mb) /\
             forall p, jctx.Encode ctx method p
                       = jctx.Encode (context.metaCtx ctx (Some mb)) method p).
  { destruct HM as [HM|HM].
    - exists []. split; [left; auto|]. split; [left; reflexivity|].
      intros p. apply Encode_raw; auto.
    - destruct (valid_compacts _ _ HM) as [mb Hc]. exists mb.
      split; [right; exact Hc|]. split; [right; exact (compact_idem _ _ _ Hc)|].
      intros p. apply Encode_meta.
      apply (compact_mono (maxNestingDepth - 1)); [lia|exact Hc]. }
  destruct Hmb as (mb & Hmb & Hokm & HEm).
  destruct (roundtrip_general (context.metaCtx ctx (Some mb)) base method method' (Some pb))
    as (tb & Htb & HE & HDec); [exact HD|exact Hokp|exact Hokm|].
  exists tb, pb, mb. split; [exact Htb|]. split; [exact Hpb|]. split; [exact Hmb|].
  cbv zeta in *. split; [|exact HDec].
  rewrite HEp, HEm. exact HE.
Qed.

(** C8 (amended). A deadline in a zone other than UTC that is not the zero
    time and whose year in UTC is within 0 to 9999, on a context whose
    parameters and attached metadata are each empty or valid JSON nested
    less than 10000 deep: [Encode] succeeds and writes the deadline as
    [MarshalJSON] renders it in UTC, and [Decode] of the envelope, on a
    base context without an earlier deadline, yields a context whose
    deadline is that same instant in UTC. *)
Theorem C8_deadline_utc (ctx base : context.Context) (method method' : string)
  (P : json.RawMessage) (d : time.Time) :
  context.Deadline ctx = Some d ->
  time.loc d <> time.utcLoc ->
  okTime d -> time.IsZero d = false ->
  json.raw P = [] \/ json.checkValid (json.maxNestingDepth - 1) (json.raw P) = None ->
  attachedBytes ctx = [] \/
  json.checkValid (json.maxNestingDepth - 1) (attachedBytes ctx) = None ->
  match context.Deadline base with
  | Some cur => time.Before cur (time.UTC d) = false
  | None => True
  end ->
  exists out tb rest ctx' P',
    jctx.Encode ctx method P = (Some out, None) /\
    time.MarshalJSON (time.UTC d) = inr tb /\
    out = ch "{" :: memberText jctx.fV (json.encodeString jctx.wireVersion)
            ++ ch "," :: memberText jctx.fDeadline tb ++ rest /\
    jctx.Decode base method' (Some out) = (Some ctx', P', None) /\
    context.Deadline ctx' = Some (time.UTC d) /\
    time.Equal (time.UTC d) d = true /\ time.loc (time.UTC d) = time.utcLoc.
Proof.
  intros Hd Hloc Hok Hz HP HM Hb.
  destruct (roundtrip_any ctx base method method' P) as (tb & pb & mb & Htb & _ & _ & HE & HDec);
    auto.
  { rewrite Hd. exact Hok. }
  cbv zeta in *. rewrite Hd in Htb. destruct Htb as [Htb Hne].
  eexists _, tb, _, _, _.
  split; [exact HE|]. split; [exact Htb|]. split; [|split; [exact HDec|]].
  - unfold envelope. f_equal. f_equal.
    unfold present at 1. destruct tb as [|t0 tb']; [contradiction|].
    cbn [app body]. reflexivity.
  - split; [|split; [|reflexivity]].
    + unfold derived, context.WithDeadline. cbv zeta.
      cbn [context.Deadline]. rewrite Hd, Hz.
      destruct (attachedBytes (context.metaCtx ctx (Some mb))); cbn [context.Deadline];
        destruct (context.Deadline base); rewrite ?Hb; reflexivity.
    + unfold time.Equal, time.UTC. cbn [time.sec time.nsec].
      rewrite !Z.eqb_refl. reflexivity.
Qed.

Lemma C8_deadline_utc_witness :
  exists out tb rest ctx' P',
    jctx.Encode (context.metaCtx (context.timerCtx context.Background plus5)
                   (Some (js "{'a': 1}")))
      "m" (Some (js "[1, 2]")) = (Some out, None) /\
    time.MarshalJSON (time.UTC plus5) = inr tb /\
    out = ch "{" :: memberText jctx.fV (json.encodeString jctx.wireVersion)
            ++ ch "," :: memberText jctx.fDeadline tb ++ rest /\
    jctx.Decode context.Background "m" (Some out) = (Some ctx', P', None) /\
    context.Deadline ctx' = Some (time.UTC plus5) /\
    time.Equal (time.UTC plus5) plus5 = true /\ time.loc (time.UTC plus5) = time.utcLoc.
Proof.
  apply (C8_deadline_utc
           (context.metaCtx (context.timerCtx context.Background plus5) (Some (js "{'a': 1}")))
           context.Background "m" "m" (Some (js "[1, 2]")) plus5).
  - reflexivity.
  - discriminate.
  - split; [cbn [time.nsec plus5]; lia|].
    replace (time.Year _) with 2009 by (vm_compute; reflexivity). lia.
  - reflexivity.
  - right. vm_compute. reflexivity.
  - right. vm_compute. reflexivity.
  - exact I.
Defined.

(** C8, as stated, fails: the zero time seen at +05:00 is encoded, and
    [Decode] sets no deadline for it. *)
Lemma C8_counterexample :
  ~ (exists out ctx' P' d',
       jctx.Encode (context.timerCtx context.Background zeroPlus5) "m" None = (Some out, None) /\
       jctx.Decode context.Background "m" (Some out) = (Some ctx', P', None) /\
       context.Deadline ctx' = Some d').
Proof.
  intros (out & ctx' & P' & d' & HE & HD & Hdl).
  assert (E : jctx.Encode (context.timerCtx context.Background zeroPlus5) "m" None
              = (Some (js "{'jctx':'1','deadline':'0001-01-01T00:00:00Z'}"), None))
    by (vm_compute; reflexivity).
  rewrite E in HE. injection HE as <-.
  assert (D : jctx.Decode context.Background "m"
                (Some (js "{'jctx':'1','deadline':'0001-01-01T00:00:00Z'}"))
              = (Some context.Background, None, None))
    by (vm_compute; reflexivity).
  rewrite D in HD. injection HD as <- _.
  discriminate Hdl.
Qed.

(** ** Metadata fidelity *)



